(** * CoreAstra: the client side of the safety-gated command pipeline

    A shallow embedding of the TypeScript front end that submits shell
    commands: the shared type declarations ([types]), the API service
    ([terminalApi]), the [Terminal] component with its confirmation dialog,
    the [ApprovalModal] component and the approval handlers of [App].

    Conventions of the embedding.
    - A JavaScript string is the list of its UTF-16 code units.
    - React state is a record; a handler is a function on that record that
      also returns the chronological list of calls it makes to the outside
      (HTTP requests, console, callback props).
    - An [async] handler is cut at each [await]: the part before it, and
      one continuation per awaited promise.  The remote services are
      functions gathered in a record [World].
    - The handlers of [Terminal] are also composed into an event loop in
      which promises settle in any order; the handlers of [App] are run to
      completion one at a time in [App], and with their requests in flight
      in [AppAsync].
    - [Api] reads the execute stream through the declared type
      [CommandResult]; [Stream] is the same loop with the untyped callback
      inside its [try].  [Mount] adds the promise of the mount effect of
      [Terminal] to the event loop.
    - Line identifiers (uuid) and timestamps of terminal lines are left out:
      no handler reads them. *)

From Stdlib Require Import List Bool Arith NArith ZArith Lia String Ascii.
From Stdlib Require Import DecimalString Permutation.
Import ListNotations.

Set Implicit Arguments.

(* ================================================================== *)
(** ** JavaScript strings *)
(* ================================================================== *)

Module JS.

Definition jsstring := list N.

(** A literal whose characters are all ASCII. *)
Definition js (s : string) : jsstring :=
  map N_of_ascii (list_ascii_of_string s).

Definition jsstring_dec : forall a b : jsstring, {a = b} + {a <> b} :=
  list_eq_dec N.eq_dec.

(** [a === b] on strings. *)
Definition streq (a b : jsstring) : bool :=
  if jsstring_dec a b then true else false.

(** Truthiness of a string: the empty string is the only falsy one. *)
Definition truthy (s : jsstring) : bool :=
  match s with [] => false | _ :: _ => true end.

(** ECMAScript WhiteSpace and LineTerminator code points, the characters
    that [String.prototype.trim] strips. *)
Definition isWhiteSpace (c : N) : bool :=
  (  (c =? 0x0009) || (c =? 0x000A) || (c =? 0x000B) || (c =? 0x000C)
  || (c =? 0x000D) || (c =? 0x0020) || (c =? 0x00A0) || (c =? 0x1680)
  || ((0x2000 <=? c) && (c <=? 0x200A))
  || (c =? 0x2028) || (c =? 0x2029) || (c =? 0x202F) || (c =? 0x205F)
  || (c =? 0x3000) || (c =? 0xFEFF))%N.

Fixpoint trimStart (s : jsstring) : jsstring :=
  match s with
  | [] => []
  | c :: r => if isWhiteSpace c then trimStart r else s
  end.

Definition trimEnd (s : jsstring) : jsstring :=
  rev (trimStart (rev s)).

Definition trim (s : jsstring) : jsstring := trimEnd (trimStart s).

Fixpoint startsWith (s p : jsstring) : bool :=
  match p, s with
  | [], _ => true
  | _ :: _, [] => false
  | x :: p', y :: s' => (x =? y)%N && startsWith s' p'
  end.

(** [s.slice(n)] for a non-negative [n]. *)
Definition slice (n : nat) (s : jsstring) : jsstring := skipn n s.
Arguments slice : simpl never.

(** [s.split(sep)] for a one-character separator. *)
Fixpoint split (sep : N) (s : jsstring) : list jsstring :=
  match s with
  | [] => [[]]
  | c :: r =>
      if (c =? sep)%N then [] :: split sep r
      else match split sep r with
           | [] => [[c]]
           | h :: t => (c :: h) :: t
           end
  end.

(** [String(n)] for an integer [n]. *)
Definition ofZ (z : Z) : jsstring := js (NilZero.string_of_int (Z.to_int z)).
Definition ofNat (n : nat) : jsstring := ofZ (Z.of_nat n).

(** [`${v}`] for an optional property: a missing one prints as "undefined". *)
Definition template {A} (f : A -> jsstring) (v : option A) : jsstring :=
  match v with Some a => f a | None => js "undefined" end.

End JS.
Import JS.

(** The outcome of an awaited promise. *)
Inductive Result (A : Type) : Type :=
| Ok (value : A)
| Throw (message : jsstring).
Arguments Ok {A} value.
Arguments Throw {A} message.

(* ================================================================== *)
(** ** types: the shared type declarations *)
(* ================================================================== *)

Module Types.

(** [export type RiskLevel = 'low' | 'medium' | 'high' | 'critical'] *)
Inductive RiskLevel := low | medium | high | critical.

Definition RiskLevel_members : list RiskLevel := [low; medium; high; critical].

Definition RiskLevel_literal (r : RiskLevel) : jsstring :=
  match r with
  | low => js "low" | medium => js "medium"
  | high => js "high" | critical => js "critical"
  end.

Record CommandAnalysis := {
  command : jsstring;
  is_risky : bool;
  risk_level : RiskLevel;
  reason : jsstring;
  affected_paths : list jsstring;
  requires_confirmation : bool;
  backup_recommended : bool
}.

(** The property names of [interface CommandAnalysis], in declaration order. *)
Definition CommandAnalysis_properties : list string :=
  ["command"; "is_risky"; "risk_level"; "reason"; "affected_paths";
   "requires_confirmation"; "backup_recommended"]%string.

(** The discriminator of [CommandResult]. *)
Inductive CommandResultType :=
| output | execution_complete | error | confirmation_required | execution_start.

Definition CommandResultType_members : list CommandResultType :=
  [output; execution_complete; error; confirmation_required; execution_start].

Definition CommandResultType_literal (t : CommandResultType) : jsstring :=
  match t with
  | output => js "output"
  | execution_complete => js "execution_complete"
  | error => js "error"
  | confirmation_required => js "confirmation_required"
  | execution_start => js "execution_start"
  end.

Inductive Stream := stdout_stream | stderr_stream.

Record Backup := { original : jsstring; backup : jsstring }.

Record CommandResult := {
  type : CommandResultType;
  stream : option Stream;
  content : option jsstring;
  exit_code : option Z;
  success : option bool;
  stdout : option jsstring;
  stderr : option jsstring;
  message : option jsstring;
  analysis : option CommandAnalysis;
  backups : option (list Backup)
}.

Inductive LineType := line_input | line_output | line_error | line_info | line_warning.

Record TerminalLine := { line_type : LineType; line_content : jsstring }.

End Types.

(* ================================================================== *)
(** ** Handlers: state, calls to the outside, sequencing *)
(* ================================================================== *)

Module Effects.

(** Body of [POST /api/terminal/execute]. *)
Record ExecuteRequest := {
  req_command : jsstring;
  req_confirmed : bool;
  req_create_backup : bool
}.

(** What a handler does to the outside, in the order it does it.
    [onCommandExecuted] is the optional callback prop of [Terminal]; the
    call is recorded whether or not the parent passes one. *)
Inductive Call :=
| POST_analyze (command : jsstring)
| POST_execute (body : ExecuteRequest)
| POST_cd (path : jsstring)
| console_error (label : jsstring)
| console_log (label : jsstring) (data : Types.CommandResult)
| onCommandExecuted (command : jsstring) (data : Types.CommandResult).

Record Out (S A : Type) := { val : A; st : S; log : list Call }.

Definition M (S A : Type) : Type := S -> Out S A.

Definition ret {S A} (a : A) : M S A :=
  fun s => {| val := a; st := s; log := [] |}.

Definition bind {S A B} (m : M S A) (f : A -> M S B) : M S B :=
  fun s =>
    let o1 := m s in
    let o2 := f (val o1) (st o1) in
    {| val := val o2; st := st o2; log := log o1 ++ log o2 |}.

Definition call {S} (c : Call) : M S unit :=
  fun s => {| val := tt; st := s; log := [c] |}.

Definition update {S} (f : S -> S) : M S unit :=
  fun s => {| val := tt; st := f s; log := [] |}.

Definition read {S A} (f : S -> A) : M S A :=
  fun s => {| val := f s; st := s; log := [] |}.

Fixpoint forEach {S A} (l : list A) (f : A -> M S unit) : M S unit :=
  match l with
  | [] => ret tt
  | a :: r => bind (f a) (fun _ => forEach r f)
  end.

Declare Scope handler_scope.
Delimit Scope handler_scope with handler.
Notation "x <- m ;; k" := (bind m (fun x => k))
  (at level 61, m at next level, right associativity) : handler_scope.
Notation "m ;; k" := (bind m (fun _ => k))
  (at level 61, right associativity) : handler_scope.

End Effects.
Import Effects.

(* ================================================================== *)
(** ** services/api: [terminalApi] *)
(* ================================================================== *)

Module Api.

(** What [fetch] and the body reader give back for an execute request:
    [chunks] are the decoded texts of the successive [reader.read()] values,
    [read_failure] a rejection of [reader.read()] after them. *)
Inductive ExecuteResponse :=
| fetch_rejected (message : jsstring)
| not_ok (status : N) (errorText : option jsstring)
| no_body
| body_stream (chunks : list jsstring) (read_failure : option jsstring).

(** The back end and the JSON decoder.  [A] is the client's view of the
    analysis object ([response.data] is untyped). *)
Record World (A : Type) := {
  analyze_endpoint : jsstring -> Result A;
  cd_endpoint : jsstring -> Result jsstring;
  execute_endpoint : ExecuteRequest -> ExecuteResponse;
  JSON_parse : jsstring -> option Types.CommandResult
}.

(** [JSON.stringify({ command, confirmed, create_backup: true })] *)
Definition execute_body (command : jsstring) (confirmed : bool) : ExecuteRequest :=
  {| req_command := command; req_confirmed := confirmed; req_create_backup := true |}.

Definition data_lines (text : jsstring) : list jsstring :=
  filter (fun line => startsWith line (js "data: ")) (split 10 text).

Open Scope handler_scope.

(** The loop body over one decoded chunk. *)
Definition execute_chunk {S A} (w : World A)
    (onData : Types.CommandResult -> M S unit) (text : jsstring) : M S unit :=
  forEach (data_lines text) (fun line =>
    match JSON_parse w (slice 6 line) with
    | Some data => onData data
    | None => call (console_error (js "Failed to parse SSE data:"))
    end).

(** [terminalApi.execute] once the request has been answered. *)
Definition execute_response {S A} (w : World A)
    (onData : Types.CommandResult -> M S unit) (r : ExecuteResponse)
  : M S (Result unit) :=
  match r with
  | fetch_rejected m => ret (Throw m)
  | not_ok status errorText =>
      let t := match errorText with Some e => trim e | None => [] end in
      ret (Throw (if truthy t then t
                  else js "Terminal execute endpoint returned " ++ ofZ (Z.of_N status)))
  | no_body =>
      ret (Throw (js "Terminal execute endpoint did not provide a response stream."))
  | body_stream chunks read_failure =>
      forEach chunks (execute_chunk w onData) ;;
      ret (match read_failure with None => Ok tt | Some m => Throw m end)
  end.

(** [terminalApi.execute(command, confirmed, onData)] *)
Definition execute {S A} (w : World A) (command : jsstring) (confirmed : bool)
    (onData : Types.CommandResult -> M S unit) : M S (Result unit) :=
  call (POST_execute (execute_body command confirmed)) ;;
  execute_response w onData (execute_endpoint w (execute_body command confirmed)).

Close Scope handler_scope.

End Api.

(* ================================================================== *)
(** ** components/Terminal *)
(* ================================================================== *)

Module Terminal.

Import Types.
Open Scope handler_scope.

Record ConfirmDialog := {
  open : bool;
  dialog_command : jsstring;
  dialog_analysis : option CommandAnalysis
}.

Definition closedDialog : ConfirmDialog :=
  {| open := false; dialog_command := []; dialog_analysis := None |}.

(** The [useState] cells of the component. *)
Record State := {
  input : jsstring;
  lines : list TerminalLine;
  currentDir : jsstring;
  isExecuting : bool;
  history : list jsstring;
  historyIndex : Z;
  confirmDialog : ConfirmDialog
}.

Definition initial : State :=
  {| input := []; lines := []; currentDir := []; isExecuting := false;
     history := []; historyIndex := (-1)%Z; confirmDialog := closedDialog |}.

Definition setInput (v : jsstring) (s : State) : State :=
  {| input := v; lines := lines s; currentDir := currentDir s;
     isExecuting := isExecuting s; history := history s;
     historyIndex := historyIndex s; confirmDialog := confirmDialog s |}.

Definition setLines (f : list TerminalLine -> list TerminalLine) (s : State) : State :=
  {| input := input s; lines := f (lines s); currentDir := currentDir s;
     isExecuting := isExecuting s; history := history s;
     historyIndex := historyIndex s; confirmDialog := confirmDialog s |}.

Definition setCurrentDir (v : jsstring) (s : State) : State :=
  {| input := input s; lines := lines s; currentDir := v;
     isExecuting := isExecuting s; history := history s;
     historyIndex := historyIndex s; confirmDialog := confirmDialog s |}.

Definition setIsExecuting (v : bool) (s : State) : State :=
  {| input := input s; lines := lines s; currentDir := currentDir s;
     isExecuting := v; history := history s;
     historyIndex := historyIndex s; confirmDialog := confirmDialog s |}.

Definition setHistory (f : list jsstring -> list jsstring) (s : State) : State :=
  {| input := input s; lines := lines s; currentDir := currentDir s;
     isExecuting := isExecuting s; history := f (history s);
     historyIndex := historyIndex s; confirmDialog := confirmDialog s |}.

Definition setHistoryIndex (v : Z) (s : State) : State :=
  {| input := input s; lines := lines s; currentDir := currentDir s;
     isExecuting := isExecuting s; history := history s;
     historyIndex := v; confirmDialog := confirmDialog s |}.

Definition setConfirmDialog (v : ConfirmDialog) (s : State) : State :=
  {| input := input s; lines := lines s; currentDir := currentDir s;
     isExecuting := isExecuting s; history := history s;
     historyIndex := historyIndex s; confirmDialog := v |}.

Definition addLine (t : LineType) (c : jsstring) : M State unit :=
  update (setLines (fun prev => prev ++ [{| line_type := t; line_content := c |}])).

(** A promise a running [handleCommand] is suspended on. *)
Inductive Pending :=
| AwaitChangeDirectory (path : jsstring)
| AwaitAnalyze (command : jsstring)
| AwaitExecute (command : jsstring) (confirmed : bool).

(** [setIsExecuting(true)] and the request of [terminalApi.execute]. *)
Definition start_execute (command : jsstring) (confirmed : bool)
  : M State (option Pending) :=
  update (setIsExecuting true) ;;
  call (POST_execute (Api.execute_body command confirmed)) ;;
  ret (Some (AwaitExecute command confirmed)).

(** [handleCommand(command, confirmed)] up to its first [await]. *)
Definition handleCommand_begin (command : jsstring) (confirmed : bool)
  : M State (option Pending) :=
  if negb (truthy (trim command)) then ret None
  else
    update (setHistory (fun prev =>
      filter (fun c => negb (streq c command)) prev ++ [command])) ;;
    update (setHistoryIndex (-1)%Z) ;;
    let trimmedCommand := trim command in
    if streq trimmedCommand (js "clear") || streq trimmedCommand (js "cls") then
      update (setLines (fun _ => [])) ;;
      ret None
    else if startsWith trimmedCommand (js "cd ") then
      let path := trim (slice 3 trimmedCommand) in
      call (POST_cd path) ;;
      ret (Some (AwaitChangeDirectory path))
    else
      dir <- read currentDir ;;
      addLine line_input (dir ++ js "> " ++ command) ;;
      if negb confirmed then
        call (POST_analyze command) ;;
        ret (Some (AwaitAnalyze command))
      else start_execute command confirmed.

(** After [await terminalApi.changeDirectory(path)]. *)
Definition after_changeDirectory (r : Result jsstring) : M State unit :=
  match r with
  | Ok path =>
      update (setCurrentDir path) ;;
      addLine line_info (js "Changed directory to: " ++ path)
  | Throw m => addLine line_error (js "Error: " ++ m)
  end.

(** After [await terminalApi.analyze(command)] (so [confirmed] is false). *)
Definition after_analyze (command : jsstring) (r : Result CommandAnalysis)
  : M State (option Pending) :=
  match r with
  | Ok analysis =>
      if requires_confirmation analysis then
        update (setConfirmDialog
          {| open := true; dialog_command := command;
             dialog_analysis := Some analysis |}) ;;
        ret None
      else start_execute command false
  | Throw _ =>
      call (console_error (js "Analysis failed:")) ;;
      start_execute command false
  end.

(** The callback handed to [terminalApi.execute]. *)
Definition onData (command : jsstring) (data : CommandResult) : M State unit :=
  match type data with
  | output =>
      addLine (match stream data with
               | Some stderr_stream => line_error
               | _ => line_output
               end)
              (match content data with Some c => c | None => [] end)
  | execution_complete =>
      (if match success data with Some true => false | _ => true end then
         addLine line_error
           (js "Command exited with code " ++ template ofZ (exit_code data))
       else ret tt) ;;
      call (onCommandExecuted command data)
  | error =>
      addLine line_error (js "Error: " ++ template (fun m => m) (message data))
  | execution_start =>
      match backups data with
      | Some (b :: bs) =>
          addLine line_info
            (js "Created " ++ ofNat (List.length (b :: bs))
               ++ js " backup(s) before execution")
      | _ => ret tt
      end
  | confirmation_required => ret tt
  end.

(** The [catch] and [finally] after [await terminalApi.execute(...)]. *)
Definition after_execute (r : Result unit) : M State unit :=
  match r with
  | Ok _ => ret tt
  | Throw m => addLine line_error (js "Execution failed: " ++ m)
  end ;;
  update (setIsExecuting false).

Section WithWorld.

Variable w : Api.World CommandAnalysis.

(** The answered part of [terminalApi.execute] followed by [after_execute]. *)
Definition finish_execute (command : jsstring) (confirmed : bool) : M State unit :=
  r <- Api.execute_response w (onData command)
         (Api.execute_endpoint w (Api.execute_body command confirmed)) ;;
  after_execute r.

(** The continuation of a suspended [handleCommand] once its promise
    settles; [Some] when it suspends again. *)
Definition settle (p : Pending) : M State (option Pending) :=
  match p with
  | AwaitChangeDirectory path =>
      after_changeDirectory (Api.cd_endpoint w path) ;; ret None
  | AwaitAnalyze command =>
      after_analyze command (Api.analyze_endpoint w command)
  | AwaitExecute command confirmed =>
      finish_execute command confirmed ;; ret None
  end.

Definition settle_all (p : option Pending) : M State unit :=
  match p with
  | None => ret tt
  | Some p1 =>
      p2 <- settle p1 ;;
      match p2 with
      | None => ret tt
      | Some p3 => settle p3 ;; ret tt
      end
  end.

(** [handleCommand(command, confirmed)] run to completion with nothing
    interleaved. *)
Definition handleCommand (command : jsstring) (confirmed : bool) : M State unit :=
  p <- handleCommand_begin command confirmed ;;
  settle_all p.

End WithWorld.

Close Scope handler_scope.

End Terminal.

(* ================================================================== *)
(** ** components/Terminal: the rendered controls and the event loop *)
(* ================================================================== *)

Module TerminalUI.

Import Types Terminal.
Open Scope handler_scope.
Open Scope Z_scope.

Inductive Key := Enter | ArrowUp | ArrowDown | OtherKey.

(** What can happen to a mounted [Terminal]: the user acts on a control, or
    the [n]-th outstanding promise settles. *)
Inductive Event :=
| Change (text : jsstring)
| KeyDown (key : Key) (shiftKey : bool)
| ClickSend
| ClickExecuteAnyway
| CloseDialog
| Settle (n : nat).

(** [history[i] || ""] *)
Definition at_index (l : list jsstring) (i : Z) : jsstring :=
  if i <? 0 then [] else nth (Z.to_nat i) l [].

Definition handleKeyDown (key : Key) (shiftKey : bool) : M State (option Pending) :=
  match key, shiftKey with
  | Enter, false =>
      text <- read input ;;
      p <- handleCommand_begin text false ;;
      update (setInput []) ;;
      ret p
  | ArrowUp, _ =>
      h <- read history ;;
      i <- read historyIndex ;;
      let len := Z.of_nat (List.length h) in
      if 0 <? len then
        let newIndex := if i <? len - 1 then i + 1 else i in
        update (setHistoryIndex newIndex) ;;
        update (setInput (at_index h (len - 1 - newIndex))) ;;
        ret None
      else ret None
  | ArrowDown, _ =>
      h <- read history ;;
      i <- read historyIndex ;;
      let len := Z.of_nat (List.length h) in
      if 0 <? i then
        let newIndex := i - 1 in
        update (setHistoryIndex newIndex) ;;
        update (setInput (at_index h (len - 1 - newIndex))) ;;
        ret None
      else if i =? 0 then
        update (setHistoryIndex (-1)) ;;
        update (setInput []) ;;
        ret None
      else ret None
  | _, _ => ret None
  end.

(** [onClick] of the send button. *)
Definition handleSend : M State (option Pending) :=
  text <- read input ;;
  p <- handleCommand_begin text false ;;
  update (setInput []) ;;
  ret p.

Definition handleConfirmExecution : M State (option Pending) :=
  c <- read (fun s => dialog_command (confirmDialog s)) ;;
  update (setConfirmDialog closedDialog) ;;
  handleCommand_begin c true.

(** The [disabled] props of the input field and of the send button. *)
Definition inputDisabled (s : State) : bool := isExecuting s.
Definition sendDisabled (s : State) : bool :=
  isExecuting s || negb (truthy (trim (input s))).

(** A mounted component: its state and the promises its handlers wait on. *)
Record Running := { term : State; pool : list Pending }.

Definition mounted : Running := {| term := initial; pool := [] |}.

Fixpoint remove_nth {A} (n : nat) (l : list A) : list A :=
  match n, l with
  | _, [] => []
  | O, _ :: r => r
  | S k, a :: r => a :: remove_nth k r
  end.

Definition suspend (p : option Pending) : list Pending :=
  match p with Some x => [x] | None => [] end.

(** Whether the control of a user event is rendered and not disabled.  The
    buttons of the dialog are rendered while it is open. *)
Definition enabled (r : Running) (e : Event) : bool :=
  match e with
  | Change _ | KeyDown _ _ => negb (inputDisabled (term r))
  | ClickSend => negb (sendDisabled (term r))
  | ClickExecuteAnyway | CloseDialog => open (confirmDialog (term r))
  | Settle n => match nth_error (pool r) n with Some _ => true | None => false end
  end.

Section WithWorld.

Variable w : Api.World CommandAnalysis.

(** The handler of an event, run whether or not its control is enabled. *)
Definition fire (r : Running) (e : Event) : Running * list Call :=
  let handler (m : M State (option Pending)) :=
    let o := m (term r) in
    ({| term := st o; pool := pool r ++ suspend (val o) |}, log o) in
  match e with
  | Change text => ({| term := setInput text (term r); pool := pool r |}, [])
  | KeyDown key shiftKey => handler (handleKeyDown key shiftKey)
  | ClickSend => handler handleSend
  | ClickExecuteAnyway => handler handleConfirmExecution
  | CloseDialog =>
      ({| term := setConfirmDialog closedDialog (term r); pool := pool r |}, [])
  | Settle n =>
      match nth_error (pool r) n with
      | None => (r, [])
      | Some p =>
          let o := settle w p (term r) in
          ({| term := st o; pool := remove_nth n (pool r) ++ suspend (val o) |},
           log o)
      end
  end.

(** One turn of the event loop: a disabled control does nothing. *)
Definition step (r : Running) (e : Event) : Running * list Call :=
  if enabled r e then fire r e else (r, []).

(** The events of a run with the calls each one made. *)
Fixpoint run (r : Running) (es : list Event) : Running * list (Event * list Call) :=
  match es with
  | [] => (r, [])
  | e :: rest =>
      let '(r1, calls) := step r e in
      let '(r2, tr) := run r1 rest in
      (r2, (e, calls) :: tr)
  end.

End WithWorld.

(** The execute requests still being served. *)
Definition executing (r : Running) : list Pending :=
  filter (fun p => match p with AwaitExecute _ _ => true | _ => false end) (pool r).

Close Scope Z_scope.
Close Scope handler_scope.

End TerminalUI.

(* ================================================================== *)
(** ** components/ApprovalModal *)
(* ================================================================== *)

Module ApprovalModal.

(** [risk_level: "safe" | "low" | "medium" | "high" | "critical"] *)
Inductive RiskLevel := safe | low | medium | high | critical.

Definition RiskLevel_members : list RiskLevel := [safe; low; medium; high; critical].

Definition RiskLevel_literal (r : RiskLevel) : jsstring :=
  match r with
  | safe => js "safe" | low => js "low" | medium => js "medium"
  | high => js "high" | critical => js "critical"
  end.

Definition RiskLevel_eqb (a b : RiskLevel) : bool :=
  match a, b with
  | safe, safe | low, low | medium, medium | high, high | critical, critical => true
  | _, _ => false
  end.

(** The component's own [interface CommandAnalysis] ([App] declares the
    same one).  [risk_score] is declared [number]; the model takes the
    integers. *)
Record CommandAnalysis := {
  risk_level : RiskLevel;
  risk_score : Z;
  category : jsstring;
  actions : list jsstring;
  affected_paths : list jsstring;
  reversible : bool;
  requires_sudo : bool;
  warnings : list jsstring;
  recommendations : list jsstring
}.

Definition CommandAnalysis_properties : list string :=
  ["risk_level"; "risk_score"; "category"; "actions"; "affected_paths";
   "reversible"; "requires_sudo"; "warnings"; "recommendations"]%string.

(** The data props; [onApprove] and [onReject] are the handlers of [App]. *)
Record Props := {
  open : bool;
  command : jsstring;
  analysis : option CommandAnalysis;
  loading : bool
}.

Record State := {
  showDetails : bool;
  showPaths : bool;
  createBackup : bool;
  countdown : option nat
}.

Definition initial : State :=
  {| showDetails := false; showPaths := false; createBackup := true;
     countdown := None |}.

Definition setCreateBackup (v : bool) (s : State) : State :=
  {| showDetails := showDetails s; showPaths := showPaths s;
     createBackup := v; countdown := countdown s |}.

Definition setCountdown (v : option nat) (s : State) : State :=
  {| showDetails := showDetails s; showPaths := showPaths s;
     createBackup := createBackup s; countdown := v |}.

(** The dependencies [open, analysis?.risk_level] of the first effect. *)
Definition deps (p : Props) : bool * option RiskLevel :=
  (open p, option_map risk_level (analysis p)).

Definition deps_eqb (a b : bool * option RiskLevel) : bool :=
  Bool.eqb (fst a) (fst b) &&
  match snd a, snd b with
  | None, None => true
  | Some x, Some y => RiskLevel_eqb x y
  | _, _ => false
  end.

(** The first effect: the countdown starts at 5 for an open critical
    command and is cleared otherwise. *)
Definition countdown_effect (p : Props) (s : State) : State :=
  if open p && match analysis p with
               | Some a => RiskLevel_eqb (risk_level a) critical
               | None => false
               end
  then setCountdown (Some 5) s
  else setCountdown None s.

(** The callback of the second effect's 1000 ms timer, which is armed
    while the countdown is positive. *)
Definition timer_armed (s : State) : bool :=
  match countdown s with Some (S _) => true | _ => false end.

Definition timer_fires (s : State) : State :=
  match countdown s with
  | Some (S n) => setCountdown (Some n) s
  | _ => s
  end.

(** The component renders nothing without an analysis. *)
Definition rendered (p : Props) : bool :=
  match analysis p with Some _ => true | None => false end.

(** The checkbox is rendered for a command that is not reversible. *)
Definition checkboxRendered (p : Props) : bool :=
  match analysis p with Some a => negb (reversible a) | None => false end.

(** [disabled] of the approve button. *)
Definition approveDisabled (p : Props) (s : State) : bool :=
  loading p || timer_armed s.

End ApprovalModal.

(* ================================================================== *)
(** ** App: the approval flow around the modal *)
(* ================================================================== *)

Module App.

Import ApprovalModal.
Open Scope handler_scope.

Inductive TabType := terminal | chat | planner | monitor | files | connections.

Record State := {
  activeTab : TabType;
  approvalModalOpen : bool;
  pendingCommand : option jsstring;
  commandAnalysis : option CommandAnalysis;
  approvalLoading : bool
}.

Definition initial : State :=
  {| activeTab := terminal; approvalModalOpen := false; pendingCommand := None;
     commandAnalysis := None; approvalLoading := false |}.

Definition setActiveTab (v : TabType) (s : State) : State :=
  {| activeTab := v; approvalModalOpen := approvalModalOpen s;
     pendingCommand := pendingCommand s; commandAnalysis := commandAnalysis s;
     approvalLoading := approvalLoading s |}.

Definition setApprovalModalOpen (v : bool) (s : State) : State :=
  {| activeTab := activeTab s; approvalModalOpen := v;
     pendingCommand := pendingCommand s; commandAnalysis := commandAnalysis s;
     approvalLoading := approvalLoading s |}.

Definition setPendingCommand (v : option jsstring) (s : State) : State :=
  {| activeTab := activeTab s; approvalModalOpen := approvalModalOpen s;
     pendingCommand := v; commandAnalysis := commandAnalysis s;
     approvalLoading := approvalLoading s |}.

Definition setCommandAnalysis (v : option CommandAnalysis) (s : State) : State :=
  {| activeTab := activeTab s; approvalModalOpen := approvalModalOpen s;
     pendingCommand := pendingCommand s; commandAnalysis := v;
     approvalLoading := approvalLoading s |}.

Definition setApprovalLoading (v : bool) (s : State) : State :=
  {| activeTab := activeTab s; approvalModalOpen := approvalModalOpen s;
     pendingCommand := pendingCommand s; commandAnalysis := commandAnalysis s;
     approvalLoading := v |}.

(** The test of [handleRunCommand] that decides whether the modal opens. *)
Definition needsApproval (a : CommandAnalysis) : bool :=
  RiskLevel_eqb (risk_level a) high || RiskLevel_eqb (risk_level a) critical.

Section WithWorld.

Variable w : Api.World CommandAnalysis.

Definition handleRunCommand (command : jsstring) : M State unit :=
  update (setActiveTab terminal) ;;
  call (POST_analyze command) ;;
  match Api.analyze_endpoint w command with
  | Ok a =>
      if needsApproval a then
        update (setPendingCommand (Some command)) ;;
        update (setCommandAnalysis (Some a)) ;;
        update (setApprovalModalOpen true)
      else ret tt
  | Throw _ => call (console_error (js "Command analysis failed:"))
  end.

Definition handleApproveCommand (createBackup : bool) : M State unit :=
  p <- read pendingCommand ;;
  match p with
  | None => ret tt
  | Some c =>
      if negb (truthy c) then ret tt
      else
        update (setApprovalLoading true) ;;
        r <- Api.execute w c true
               (fun data => call (console_log (js "Command output:") data)) ;;
        match r with
        | Ok _ =>
            update (setApprovalModalOpen false) ;;
            update (setPendingCommand None) ;;
            update (setCommandAnalysis None)
        | Throw _ => call (console_error (js "Command execution failed:"))
        end ;;
        update (setApprovalLoading false)
  end.

End WithWorld.

Definition handleRejectCommand : M State unit :=
  update (setApprovalModalOpen false) ;;
  update (setPendingCommand None) ;;
  update (setCommandAnalysis None).

(** The props [App] passes to [<ApprovalModal>]. *)
Definition modalProps (s : State) : Props :=
  {| open := approvalModalOpen s;
     command := match pendingCommand s with Some c => c | None => [] end;
     analysis := commandAnalysis s;
     loading := approvalLoading s |}.

(** [App] with its mounted modal. *)
Record System := { app : State; modal : ApprovalModal.State }.

Definition started : System := {| app := initial; modal := ApprovalModal.initial |}.

Inductive Event :=
| RunCommand (command : jsstring)
| TimerFires
| CheckBackup (checked : bool)
| ClickApprove
| Reject.

Definition enabled (y : System) (e : Event) : bool :=
  let p := modalProps (app y) in
  match e with
  | RunCommand _ => true
  | TimerFires => timer_armed (modal y)
  | CheckBackup _ => open p && checkboxRendered p
  | ClickApprove => open p && rendered p && negb (approveDisabled p (modal y))
  | Reject => open p && rendered p
  end.

Section WithWorld.

Variable w : Api.World CommandAnalysis.

(** After a handler of [App] has run, the modal is rendered with the new
    props and its first effect runs if its dependencies changed. *)
Definition rerender (before : System) (o : Out State unit) : System * list Call :=
  let p0 := modalProps (app before) in
  let p1 := modalProps (st o) in
  ({| app := st o;
      modal := if deps_eqb (deps p0) (deps p1) then modal before
               else countdown_effect p1 (modal before) |},
   log o).

(** The handler of an event, run whether or not its control is enabled. *)
Definition fire (y : System) (e : Event) : System * list Call :=
  match e with
  | RunCommand c => rerender y (handleRunCommand w c (app y))
  | TimerFires => ({| app := app y; modal := timer_fires (modal y) |}, [])
  | CheckBackup b => ({| app := app y; modal := setCreateBackup b (modal y) |}, [])
  | ClickApprove =>
      rerender y (handleApproveCommand w (createBackup (modal y)) (app y))
  | Reject => rerender y (handleRejectCommand (app y))
  end.

Definition step (y : System) (e : Event) : System * list Call :=
  if enabled y e then fire y e else (y, []).

Fixpoint run (y : System) (es : list Event) : System * list Call :=
  match es with
  | [] => (y, [])
  | e :: rest =>
      let '(y1, c1) := step y e in
      let '(y2, c2) := run y1 rest in
      (y2, c1 ++ c2)
  end.

End WithWorld.

Close Scope handler_scope.

End App.

(* ================================================================== *)
(** ** App: the stored navigation settings *)
(* ================================================================== *)

Module Navigation.

Section Json.

(** JavaScript numbers are kept abstract; [Boolean] only needs to know
    which of them are falsy (zero and NaN). *)
Variable num : Type.
Variable num_truthy : num -> bool.

(** A value [JSON.parse] can return. *)
#[warnings="-register-all"]
Inductive json :=
| JNull
| JBool (b : bool)
| JNumber (n : num)
| JString (s : jsstring)
| JArray (items : list json)
| JObject (entries : list (jsstring * json)).

(** [Boolean(value)] *)
Definition Boolean (v : json) : bool :=
  match v with
  | JNull => false
  | JBool b => b
  | JNumber n => num_truthy n
  | JString s => truthy s
  | JArray _ | JObject _ => true
  end.

(** [Object.entries(value)]: the properties of an object, the indexed
    elements of an array, the indexed characters of a string, nothing for
    the other values. *)
Definition Object_entries (v : json) : list (jsstring * json) :=
  match v with
  | JObject es => es
  | JArray items => combine (map ofNat (seq 0 (List.length items))) items
  | JString s =>
      combine (map ofNat (seq 0 (List.length s))) (map (fun c => JString [c]) s)
  | _ => []
  end.

(** The [id]s of [NAVIGATION_SECTIONS_META], in its order. *)
Definition DEFAULT_NAVIGATION_ORDER : list jsstring :=
  [js "terminal"; js "chat"; js "files"; js "connections"; js "planner";
   js "monitor"].

(** [list.includes(x)] on strings. *)
Definition includes (l : list jsstring) (x : jsstring) : bool :=
  existsb (streq x) l.

(** An object with boolean values: its properties in insertion order. *)
Definition config := list (jsstring * bool).

(** [obj[key] = value] *)
Fixpoint assign (key : jsstring) (value : bool) (obj : config) : config :=
  match obj with
  | [] => [(key, value)]
  | (k, v) :: rest =>
      if streq k key then (k, value) :: rest
      else (k, v) :: assign key value rest
  end.

(** [obj[key]] *)
Fixpoint get (key : jsstring) (obj : config) : option bool :=
  match obj with
  | [] => None
  | (k, v) :: rest => if streq k key then Some v else get key rest
  end.

Definition getDefaultNavigationConfig : config :=
  fold_left (fun acc id => assign id true acc) DEFAULT_NAVIGATION_ORDER [].

Definition sanitizeConfigInput (input : json) : config :=
  fold_left
    (fun defaults entry =>
       if includes DEFAULT_NAVIGATION_ORDER (fst entry)
       then assign (fst entry) (Boolean (snd entry)) defaults
       else defaults)
    (Object_entries input)
    getDefaultNavigationConfig.

(** The elements of the stored order that are section ids. *)
Definition known_ids (items : list json) : list jsstring :=
  flat_map (fun v =>
              match v with
              | JString s => if includes DEFAULT_NAVIGATION_ORDER s then [s] else []
              | _ => []
              end)
           items.

(** [Array.isArray(input) ? input.filter(...) : []] *)
Definition filtered_ids (input : json) : list jsstring :=
  match input with
  | JArray items => known_ids items
  | _ => []
  end.

Definition sanitizeOrderInput (input : json) : list jsstring :=
  let filtered := filtered_ids input in
  let missing :=
    filter (fun id => negb (includes filtered id)) DEFAULT_NAVIGATION_ORDER in
  filtered ++ missing.

(** The browser: [storage] is [None] where [window] is undefined; otherwise
    it is [localStorage.getItem], which may throw.  [parse] is [JSON.parse],
    [None] when it throws. *)
Record Browser := {
  storage : option (jsstring -> Result (option jsstring));
  parse : jsstring -> option json
}.

(** The last property of that name among the entries: the one whose value
    an object built from them ends up with. *)
Definition last_entry (key : jsstring) (es : list (jsstring * json))
  : option (jsstring * json) :=
  find (fun e => streq (fst e) key) (rev es).

(** A sanitised order or config written back as a JSON value. *)
Definition order_json (order : list jsstring) : json :=
  JArray (map JString order).

Definition config_json (c : config) : json :=
  JObject (map (fun kv => (fst kv, JBool (snd kv))) c).

Definition NAV_CONFIG_STORAGE_KEY : jsstring := js "coreastra:navigation:config".
Definition NAV_ORDER_STORAGE_KEY : jsstring := js "coreastra:navigation:order".

(** The readers return their value and the label of the [console.warn]
    they made, if any. *)
Definition readStoredNavigationConfig (b : Browser) : config * option jsstring :=
  match storage b with
  | None => (getDefaultNavigationConfig, None)
  | Some getItem =>
      match getItem NAV_CONFIG_STORAGE_KEY with
      | Throw _ =>
          (getDefaultNavigationConfig, Some (js "Failed to read navigation config"))
      | Ok None => (getDefaultNavigationConfig, None)
      | Ok (Some rawValue) =>
          if negb (truthy rawValue) then (getDefaultNavigationConfig, None)
          else
            match parse b rawValue with
            | None =>
                (getDefaultNavigationConfig,
                 Some (js "Failed to read navigation config"))
            | Some parsed =>
                match parsed with
                | JObject _ | JArray _ => (sanitizeConfigInput parsed, None)
                | _ => (getDefaultNavigationConfig, None)
                end
            end
      end
  end.

Definition readStoredNavigationOrder (b : Browser) : list jsstring * option jsstring :=
  match storage b with
  | None => (DEFAULT_NAVIGATION_ORDER, None)
  | Some getItem =>
      match getItem NAV_ORDER_STORAGE_KEY with
      | Throw _ =>
          (DEFAULT_NAVIGATION_ORDER, Some (js "Failed to read navigation order"))
      | Ok None => (DEFAULT_NAVIGATION_ORDER, None)
      | Ok (Some rawValue) =>
          if negb (truthy rawValue) then (DEFAULT_NAVIGATION_ORDER, None)
          else
            match parse b rawValue with
            | None =>
                (DEFAULT_NAVIGATION_ORDER,
                 Some (js "Failed to read navigation order"))
            | Some parsed => (sanitizeOrderInput parsed, None)
            end
      end
  end.

End Json.

Arguments JNull {num}.
Arguments JBool {num} b.
Arguments JString {num} s.

End Navigation.

(* ================================================================== *)
(** * Notions used in the statements *)
(* ================================================================== *)

Import Types Terminal TerminalUI.

(** An input made of white space only (the empty one included). *)
Definition blank (s : jsstring) : bool := forallb isWhiteSpace s.

(** The two tests of [handleCommand] that recognise a built-in. *)
Definition builtin (command : jsstring) : bool :=
  let t := trim command in
  streq t (js "clear") || streq t (js "cls") || startsWith t (js "cd ").

(** A request to the analyzer or to the executor. *)
Definition gate_call (c : Call) : bool :=
  match c with
  | POST_analyze _ | POST_execute _ => true
  | _ => false
  end.

Definition execute_call (c : Call) : bool :=
  match c with POST_execute _ => true | _ => false end.

(** A request to the back end. *)
Definition request_call (c : Call) : bool :=
  match c with
  | POST_analyze _ | POST_execute _ | POST_cd _ => true
  | _ => false
  end.

(** The events the callback of [terminalApi.execute] is called with, in
    order: the callback is instantiated with one that records its argument. *)
Definition delivered {A} (w : Api.World A) (r : Api.ExecuteResponse)
  : list CommandResult :=
  st (Api.execute_response w (fun d => update (fun l => l ++ [d])) r []).

(** The events a chunk of the stream holds: its [data: ] lines that parse. *)
Definition parsed_lines {A} (w : Api.World A) (text : jsstring)
  : list CommandResult :=
  flat_map (fun line =>
              match Api.JSON_parse w (slice 6 line) with
              | Some d => [d]
              | None => []
              end)
           (Api.data_lines text).


(** The controls through which a command is typed and submitted. *)
Definition submission_control (e : Event) : bool :=
  match e with
  | Change _ | KeyDown _ _ | ClickSend => true
  | _ => false
  end.

(** ** Sample commands, analyses and back ends *)

Module Sample.

Definition rm_project : jsstring := js "rm -rf /tmp/project".

(** What the shared declarations let the analyzer say about [rm_project]. *)
Definition rm_analysis : Types.CommandAnalysis :=
  {| Types.command := rm_project; is_risky := true;
     Types.risk_level := Types.critical;
     reason := js "Recursive delete"; Types.affected_paths := [js "/tmp/project"];
     requires_confirmation := true; backup_recommended := true |}.

Definition plain_analysis (c : jsstring) : Types.CommandAnalysis :=
  {| Types.command := c; is_risky := false; Types.risk_level := Types.low;
     reason := []; Types.affected_paths := [];
     requires_confirmation := false; backup_recommended := false |}.

(** A command the analyzer rates critical without asking for confirmation. *)
Definition unguarded_analysis (c : jsstring) : Types.CommandAnalysis :=
  {| Types.command := c; is_risky := true; Types.risk_level := Types.critical;
     reason := []; Types.affected_paths := [];
     requires_confirmation := false; backup_recommended := false |}.

Definition quote : jsstring := [34%N].

(** The text [{"type":"confirmation_required"}]. *)
Definition confirmation_payload : jsstring :=
  js "{" ++ quote ++ js "type" ++ quote ++ js ":"
     ++ quote ++ js "confirmation_required" ++ quote ++ js "}".

Definition confirmation_event : CommandResult :=
  {| type := confirmation_required; stream := None; content := None;
     exit_code := None; success := None; stdout := None; stderr := None;
     message := None; analysis := None; backups := None |}.

(** The decoder on the one text the samples send. *)
Definition parse_sample (text : jsstring) : option CommandResult :=
  if streq text confirmation_payload then Some confirmation_event else None.

(** A back end that asks confirmation for [rm_project] only and whose
    execute stream stays silent. *)
Definition world : Api.World Types.CommandAnalysis :=
  {| Api.analyze_endpoint := fun c =>
       if streq c rm_project then Ok rm_analysis else Ok (plain_analysis c);
     Api.cd_endpoint := fun p => Ok p;
     Api.execute_endpoint := fun _ => Api.body_stream [] None;
     Api.JSON_parse := parse_sample |}.

(** The same back end with the analyzer unreachable. *)
Definition world_analyzer_down : Api.World Types.CommandAnalysis :=
  {| Api.analyze_endpoint := fun _ => Throw (js "Network Error");
     Api.cd_endpoint := fun p => Ok p;
     Api.execute_endpoint := fun _ => Api.body_stream [] None;
     Api.JSON_parse := parse_sample |}.

(** A back end that rates every command critical but never asks for
    confirmation. *)
Definition world_unguarded : Api.World Types.CommandAnalysis :=
  {| Api.analyze_endpoint := fun c => Ok (unguarded_analysis c);
     Api.cd_endpoint := fun p => Ok p;
     Api.execute_endpoint := fun _ => Api.body_stream [] None;
     Api.JSON_parse := parse_sample |}.


(** The analyses as [App] and [ApprovalModal] declare them. *)
Definition rm_report : ApprovalModal.CommandAnalysis :=
  {| ApprovalModal.risk_level := ApprovalModal.critical;
     ApprovalModal.risk_score := 95;
     ApprovalModal.category := js "filesystem";
     ApprovalModal.actions := [js "delete"];
     ApprovalModal.affected_paths := [js "/tmp/project"];
     ApprovalModal.reversible := false;
     ApprovalModal.requires_sudo := false;
     ApprovalModal.warnings := [js "Recursive delete"];
     ApprovalModal.recommendations := [] |}.

Definition chmod_docs : jsstring := js "chmod 600 /tmp/docs".

(** A command of medium risk that cannot be undone. *)
Definition chmod_report : ApprovalModal.CommandAnalysis :=
  {| ApprovalModal.risk_level := ApprovalModal.medium;
     ApprovalModal.risk_score := 40;
     ApprovalModal.category := js "permissions";
     ApprovalModal.actions := [js "modify"];
     ApprovalModal.affected_paths := [js "/tmp/docs"];
     ApprovalModal.reversible := false;
     ApprovalModal.requires_sudo := false;
     ApprovalModal.warnings := [];
     ApprovalModal.recommendations := [] |}.

Definition safe_report : ApprovalModal.CommandAnalysis :=
  {| ApprovalModal.risk_level := ApprovalModal.safe;
     ApprovalModal.risk_score := 0;
     ApprovalModal.category := js "inspection";
     ApprovalModal.actions := [js "read"];
     ApprovalModal.affected_paths := [];
     ApprovalModal.reversible := true;
     ApprovalModal.requires_sudo := false;
     ApprovalModal.warnings := [];
     ApprovalModal.recommendations := [] |}.

Definition app_world : Api.World ApprovalModal.CommandAnalysis :=
  {| Api.analyze_endpoint := fun c =>
       if streq c rm_project then Ok rm_report
       else if streq c chmod_docs then Ok chmod_report
       else Ok safe_report;
     Api.cd_endpoint := fun p => Ok p;
     Api.execute_endpoint := fun _ => Api.body_stream [] None;
     Api.JSON_parse := parse_sample |}.

End Sample.

(** ** Notions for the further properties *)

(** The cursor of the history is on an entry, or on none. *)
Definition index_in_range (s : State) : Prop :=
  (-1 <= historyIndex s < Z.of_nat (List.length (history s)))%Z \/
  (historyIndex s = -1 /\ history s = [])%Z.

(** One press of an arrow key in the input field. *)
Definition arrowUp (s : State) : State := st (handleKeyDown ArrowUp false s).
Definition arrowDown (s : State) : State := st (handleKeyDown ArrowDown false s).

(** Whether [terminalApi.execute] returns normally on a response: the body
    was there and was read to its end. *)
Definition answers_ok (r : Api.ExecuteResponse) : bool :=
  match r with
  | Api.body_stream _ None => true
  | _ => false
  end.

(** What holds of the confirmation dialog and of the analyses under way
    in every state the component reaches. *)
Definition dialog_ok (w : Api.World CommandAnalysis) (s : State) : Prop :=
  let d := confirmDialog s in
  (open d = true ->
   exists a,
     dialog_analysis d = Some a /\
     Api.analyze_endpoint w (dialog_command d) = Ok a /\
     requires_confirmation a = true /\
     blank (dialog_command d) = false /\
     builtin (dialog_command d) = false) /\
  (open d = false -> d = closedDialog).

Definition pool_ok (r : Running) : Prop :=
  forall c, In (AwaitAnalyze c) (pool r) -> blank c = false /\ builtin c = false.

(** The terminal lines of [s'] are those of [s] with more after them. *)
Definition lines_extended (s s' : State) : Prop :=
  exists l, lines s' = lines s ++ l.

(** What holds of the approval state of [App] in every state it reaches:
    a pending command comes with the open modal and with the analysis the
    analyzer gave for it, which is of high or critical risk. *)
Definition app_ok (w : Api.World ApprovalModal.CommandAnalysis) (s : App.State)
  : Prop :=
  App.approvalLoading s = false /\
  match App.pendingCommand s with
  | Some c =>
      App.approvalModalOpen s = true /\
      exists a, App.commandAnalysis s = Some a /\
                Api.analyze_endpoint w c = Ok a /\
                App.needsApproval a = true
  | None => App.approvalModalOpen s = false /\ App.commandAnalysis s = None
  end.

(** The modal is open on a critical command. *)
Definition critical_open (s : App.State) : bool :=
  App.approvalModalOpen s &&
  match App.commandAnalysis s with
  | Some a =>
      ApprovalModal.RiskLevel_eqb (ApprovalModal.risk_level a)
        ApprovalModal.critical
  | None => false
  end.

(** The countdown is there exactly for an open critical command, and is at
    most 5. *)
Definition countdown_ok (y : App.System) : Prop :=
  match ApprovalModal.countdown (App.modal y) with
  | Some k => k <= 5 /\ critical_open (App.app y) = true
  | None => critical_open (App.app y) = false
  end.

(** A back end for which every command is critical. *)
Definition all_critical_world : Api.World ApprovalModal.CommandAnalysis :=
  {| Api.analyze_endpoint := fun _ => Ok Sample.rm_report;
     Api.cd_endpoint := fun p => Ok p;
     Api.execute_endpoint := fun _ => Api.body_stream [] None;
     Api.JSON_parse := Sample.parse_sample |}.

(** The back end of the samples with an execute endpoint that answers
    without a body. *)
Definition no_body_world : Api.World ApprovalModal.CommandAnalysis :=
  {| Api.analyze_endpoint := Api.analyze_endpoint Sample.app_world;
     Api.cd_endpoint := Api.cd_endpoint Sample.app_world;
     Api.execute_endpoint := fun _ => Api.no_body;
     Api.JSON_parse := Api.JSON_parse Sample.app_world |}.

(** ** [terminalApi.execute]: the read loop with its untyped callback *)

(** [onData] is declared [(data: any) => void] and is called inside the
    [try] of the read loop, after [JSON.parse]: the decoder may return a
    value that is no event object, and an exception of the callback is
    caught and reported by the same [catch] as a failure of the decoder. *)
Module Stream.

Open Scope handler_scope.

(** What [JSON.parse] returns for a line, as far as a callback that reads
    [data.type] can tell: an object whose [type] is one of the five
    discriminators; [null], on which reading [type] throws; and any other
    value (a number, a string, a boolean, an array, an object with another
    [type] or with none), whose [type] equals none of the five. *)
Inductive Parsed :=
| parsed_event (d : CommandResult)
| parsed_null
| parsed_other.

(** A callback: what it does, and whether it returns or throws. *)
Definition Callback (S : Type) : Type := Parsed -> M S (Result unit).

(** The loop body over one decoded chunk; [None] is a [SyntaxError] of
    [JSON.parse]. *)
Definition execute_chunk {S} (JSON_parse : jsstring -> option Parsed)
    (onData : Callback S) (text : jsstring) : M S unit :=
  forEach (Api.data_lines text) (fun line =>
    match JSON_parse (slice 6 line) with
    | Some data =>
        r <- onData data ;;
        match r with
        | Ok _ => ret tt
        | Throw _ => call (console_error (js "Failed to parse SSE data:"))
        end
    | None => call (console_error (js "Failed to parse SSE data:"))
    end).

(** The [while] loop over the chunks the reader gives. *)
Definition read_loop {S} (JSON_parse : jsstring -> option Parsed)
    (onData : Callback S) (chunks : list jsstring) : M S unit :=
  forEach chunks (execute_chunk JSON_parse onData).

(** The callback [handleCommand] passes, on an arbitrary value: the tests
    [data.type === ...] throw a [TypeError] on [null] and all fail on a
    value without one of the five discriminators.  The optional prop
    [onCommandExecuted] is taken to return normally. *)
Definition onData (command : jsstring) : Callback State :=
  fun data =>
    match data with
    | parsed_event d => Terminal.onData command d ;; ret (Ok tt)
    | parsed_null => ret (Throw (js "TypeError"))
    | parsed_other => ret (Ok tt)
    end.

(** A callback that records its argument and throws on the values [throws]
    selects. *)
Definition recorder (throws : Parsed -> bool) : Callback (list Parsed) :=
  fun data =>
    update (fun seen => seen ++ [data]) ;;
    ret (if throws data then Throw [] else Ok tt).

(** The values the callback is called with, in order, and what the loop
    writes to the console. *)
Definition delivered (JSON_parse : jsstring -> option Parsed)
    (throws : Parsed -> bool) (chunks : list jsstring) : list Parsed :=
  st (read_loop JSON_parse (recorder throws) chunks []).

Definition reported (JSON_parse : jsstring -> option Parsed)
    (throws : Parsed -> bool) (chunks : list jsstring) : list Call :=
  log (read_loop JSON_parse (recorder throws) chunks []).

(** The values a chunk holds: its [data: ] lines that [JSON.parse] accepts. *)
Definition accepted (JSON_parse : jsstring -> option Parsed) (text : jsstring)
  : list Parsed :=
  flat_map (fun line =>
              match JSON_parse (slice 6 line) with
              | Some data => [data]
              | None => []
              end)
           (Api.data_lines text).

(** A [data: ] line that [JSON.parse] rejects, and one that ends in the
    [catch]: rejected, or accepted with the callback throwing on it. *)
Definition rejected (JSON_parse : jsstring -> option Parsed) (line : jsstring)
  : bool :=
  match JSON_parse (slice 6 line) with Some _ => false | None => true end.

Definition caught (JSON_parse : jsstring -> option Parsed)
    (throws : Parsed -> bool) (line : jsstring) : bool :=
  match JSON_parse (slice 6 line) with Some data => throws data | None => true end.

(** The decoder read through the declared type [CommandResult]: only event
    objects are seen. *)
Definition typed (JSON_parse : jsstring -> option Parsed) (text : jsstring)
  : option CommandResult :=
  match JSON_parse text with
  | Some (parsed_event d) => Some d
  | _ => None
  end.

Definition is_null (data : Parsed) : bool :=
  match data with parsed_null => true | _ => false end.

(** A decoder for the samples: the text [null] and the confirmation event. *)
Definition parse_sample (text : jsstring) : option Parsed :=
  if streq text (js "null") then Some parsed_null
  else if streq text Sample.confirmation_payload
       then Some (parsed_event Sample.confirmation_event)
  else None.


(** A chunk of four lines: [null], a line that is no JSON, the confirmation
    event and a comment line of the stream. *)
Definition sample_chunk : jsstring :=
  js "data: null" ++ [10%N] ++ js "data: {oops" ++ [10%N]
    ++ js "data: " ++ Sample.confirmation_payload ++ [10%N]
    ++ js ": keep-alive" ++ [10%N].

Close Scope handler_scope.

End Stream.

(** The state [s] with the lines [l] added at the end of the terminal. *)
Definition appended (l : list TerminalLine) (s : State) : State :=
  setLines (fun prev => prev ++ l) s.


(** A [console.error] call. *)
Definition console_error_call (x : Call) : bool :=
  match x with console_error _ => true | _ => false end.

(** ** components/Terminal: the mount effect *)

Module Mount.

Open Scope handler_scope.

(** [loadInitialDirectory] after [await terminalApi.getCurrentDirectory()];
    [isCancelled] is set by the clean-up of the effect. *)
Definition loadInitialDirectory_after (isCancelled : bool) (r : Result jsstring)
  : M State unit :=
  match r with
  | Ok path =>
      if isCancelled then ret tt
      else
        update (setCurrentDir path) ;;
        addLine line_info (js "CoreAstra Terminal v1.0.0") ;;
        addLine line_info
          ([194%N; 169%N] ++ js " GROWEAGLES TECHSOUL PRIVATE LIMITED (TECHSOUL)") ;;
        addLine line_info (js "Current directory: " ++ path) ;;
        addLine line_info []
  | Throw m =>
      if isCancelled then ret tt
      else
        let message :=
          if truthy m then m else js "Unable to reach the CoreAstra backend." in
        update (setCurrentDir (js "(offline)")) ;;
        addLine line_error (js "Failed to connect to backend services: " ++ message)
  end.

(** A mounted component with the promise of its mount effect: [loading]
    while [getCurrentDirectory()] has not settled. *)
Record Component := { running : Running; loading : bool }.

Definition component_mounted : Component :=
  {| running := mounted; loading := true |}.

(** A turn of the event loop: an event of [TerminalUI], or the settling of
    the mount effect's promise. *)
Inductive Turn :=
| Ui (e : Event)
| DirectoryLoaded.

Section WithWorld.

Variable w : Api.World CommandAnalysis.

(** The answer of [GET /api/terminal/pwd]: the [path] of the returned
    object, or a rejection. *)
Variable pwd : Result jsstring.

Definition turn (k : Component) (t : Turn) : Component * list Call :=
  match t with
  | Ui e =>
      let '(r, calls) := step w (running k) e in
      ({| running := r; loading := loading k |}, calls)
  | DirectoryLoaded =>
      if loading k then
        let o := loadInitialDirectory_after false pwd (term (running k)) in
        ({| running := {| term := st o; pool := pool (running k) |};
            loading := false |},
         log o)
      else (k, [])
  end.

Fixpoint turns (k : Component) (ts : list Turn) : Component :=
  match ts with
  | [] => k
  | t :: rest => turns (fst (turn k t)) rest
  end.

End WithWorld.

Close Scope handler_scope.

End Mount.

(** ** App: the approval flow with its requests in flight *)

(** [handleRunCommand] and [handleApproveCommand] are [async]: each is cut
    at its [await], and the other handlers can run in between. *)
Module AppAsync.

Import ApprovalModal App.
Open Scope handler_scope.

(** A promise a handler of [App] is suspended on. *)
Inductive Pending :=
| AwaitAnalyze (command : jsstring)
| AwaitExecute (command : jsstring).

(** [handleRunCommand(command)] up to [await terminalApi.analyze(command)]. *)
Definition handleRunCommand_begin (command : jsstring) : M App.State Pending :=
  update (setActiveTab terminal) ;;
  call (POST_analyze command) ;;
  ret (AwaitAnalyze command).

(** [handleRunCommand(command)] after the [await]. *)
Definition handleRunCommand_after (command : jsstring) (r : Result CommandAnalysis)
  : M App.State unit :=
  match r with
  | Ok a =>
      if needsApproval a then
        update (setPendingCommand (Some command)) ;;
        update (setCommandAnalysis (Some a)) ;;
        update (setApprovalModalOpen true)
      else ret tt
  | Throw _ => call (console_error (js "Command analysis failed:"))
  end.

(** [handleApproveCommand(createBackup)] up to [await terminalApi.execute]:
    the request is sent before the handler is suspended. *)
Definition handleApproveCommand_begin (createBackup : bool)
  : M App.State (option Pending) :=
  p <- read pendingCommand ;;
  match p with
  | None => ret None
  | Some c =>
      if negb (truthy c) then ret None
      else
        update (setApprovalLoading true) ;;
        call (POST_execute (Api.execute_body c true)) ;;
        ret (Some (AwaitExecute c))
  end.

Section WithWorld.

Variable w : Api.World CommandAnalysis.

(** [handleApproveCommand] once the request has been answered. *)
Definition handleApproveCommand_after (c : jsstring) : M App.State unit :=
  r <- Api.execute_response w
         (fun data => call (console_log (js "Command output:") data))
         (Api.execute_endpoint w (Api.execute_body c true)) ;;
  match r with
  | Ok _ =>
      update (setApprovalModalOpen false) ;;
      update (setPendingCommand None) ;;
      update (setCommandAnalysis None)
  | Throw _ => call (console_error (js "Command execution failed:"))
  end ;;
  update (setApprovalLoading false).

Definition settle (p : Pending) : M App.State unit :=
  match p with
  | AwaitAnalyze c => handleRunCommand_after c (Api.analyze_endpoint w c)
  | AwaitExecute c => handleApproveCommand_after c
  end.

Definition suspendOn (p : option Pending) : list Pending :=
  match p with Some x => [x] | None => [] end.

(** [App] with its modal and the promises its handlers wait on. *)
Record Flow := { sys : System; waiting : list Pending }.

Definition flow_started : Flow := {| sys := started; waiting := [] |}.

(** A user event of [App], or the settling of the [n]-th promise. *)
Inductive Event :=
| User (e : App.Event)
| Settle (n : nat).

Definition enabled (f : Flow) (e : Event) : bool :=
  match e with
  | User u => App.enabled (sys f) u
  | Settle n => match nth_error (waiting f) n with Some _ => true | None => false end
  end.

(** The modal rendered again after a handler left [App] in state [s]. *)
Definition commit (before : System) (s : App.State) : System :=
  fst (rerender before (ret tt s)).

Definition fire (f : Flow) (e : Event) : Flow * list Call :=
  match e with
  | User (RunCommand c) =>
      let o := handleRunCommand_begin c (app (sys f)) in
      ({| sys := commit (sys f) (st o); waiting := waiting f ++ [val o] |}, log o)
  | User ClickApprove =>
      let o := handleApproveCommand_begin (createBackup (modal (sys f))) (app (sys f)) in
      ({| sys := commit (sys f) (st o);
          waiting := waiting f ++ suspendOn (val o) |}, log o)
  | User TimerFires =>
      ({| sys := {| app := app (sys f); modal := timer_fires (modal (sys f)) |};
          waiting := waiting f |}, [])
  | User (CheckBackup b) =>
      ({| sys := {| app := app (sys f); modal := setCreateBackup b (modal (sys f)) |};
          waiting := waiting f |}, [])
  | User Reject =>
      let o := handleRejectCommand (app (sys f)) in
      ({| sys := commit (sys f) (st o); waiting := waiting f |}, log o)
  | Settle n =>
      match nth_error (waiting f) n with
      | None => (f, [])
      | Some p =>
          let o := settle p (app (sys f)) in
          ({| sys := commit (sys f) (st o); waiting := remove_nth n (waiting f) |},
           log o)
      end
  end.

Definition step (f : Flow) (e : Event) : Flow * list Call :=
  if enabled f e then fire f e else (f, []).

Fixpoint run (f : Flow) (es : list Event) : Flow * list Call :=
  match es with
  | [] => (f, [])
  | e :: rest =>
      let '(f1, c1) := step f e in
      let '(f2, c2) := run f1 rest in
      (f2, c1 ++ c2)
  end.

(** No event of the run is the answer of an analysis. *)
Fixpoint no_analysis_answer (f : Flow) (es : list Event) : bool :=
  match es with
  | [] => true
  | e :: rest =>
      match e with
      | Settle n =>
          match nth_error (waiting f) n with
          | Some (AwaitAnalyze _) => false
          | _ => true
          end
      | User _ => true
      end && no_analysis_answer (fst (step f e)) rest
  end.

End WithWorld.

Close Scope handler_scope.

End AppAsync.

(* ================================================================== *)
(** * Properties *)
(* ================================================================== *)

Unset Implicit Arguments.

(** ** Strings *)

Lemma streq_true (a b : jsstring) : streq a b = true <-> a = b.
Proof.
  unfold streq. destruct (jsstring_dec a b); split; congruence.
Qed.

Lemma streq_false (a b : jsstring) : streq a b = false <-> a <> b.
Proof.
  unfold streq. destruct (jsstring_dec a b); split; congruence.
Qed.

Lemma streq_refl (a : jsstring) : streq a a = true.
Proof. now apply streq_true. Qed.

Lemma trimStart_nil (s : jsstring) : trimStart s = [] <-> blank s = true.
Proof.
  induction s as [|c r IH]; simpl.
  - tauto.
  - destruct (isWhiteSpace c); simpl.
    + exact IH.
    + split; discriminate.
Qed.

Lemma trimStart_head (s : jsstring) (c : N) (r : jsstring) :
  trimStart s = c :: r -> isWhiteSpace c = false.
Proof.
  induction s as [|d t IH]; simpl; [discriminate|].
  destruct (isWhiteSpace d) eqn:E; [exact IH|].
  intros H. injection H as -> _. exact E.
Qed.

Lemma blank_app (a b : jsstring) : blank (a ++ b) = blank a && blank b.
Proof. apply forallb_app. Qed.

Lemma blank_rev (s : jsstring) : blank (rev s) = blank s.
Proof.
  induction s as [|c r IH]; simpl; [reflexivity|].
  rewrite blank_app, IH. simpl. rewrite andb_true_r. apply andb_comm.
Qed.

(** [command.trim()] is the empty string exactly for a blank command. *)
Lemma truthy_trim (s : jsstring) : truthy (trim s) = negb (blank s).
Proof.
  unfold trim, trimEnd.
  destruct (blank s) eqn:B.
  - apply trimStart_nil in B. rewrite B. reflexivity.
  - destruct (trimStart s) as [|c r] eqn:E.
    + apply trimStart_nil in E. congruence.
    + pose proof (trimStart_head s c r E) as Hc.
      destruct (trimStart (rev (c :: r))) as [|d t] eqn:E2.
      * apply trimStart_nil in E2. rewrite blank_rev in E2.
        simpl in E2. rewrite Hc in E2. discriminate.
      * simpl. destruct (rev t); reflexivity.
Qed.

Lemma trim_nil_blank (s : jsstring) : trim s = [] <-> blank s = true.
Proof.
  pose proof (truthy_trim s) as H.
  destruct (trim s), (blank s); simpl in H; split; congruence.
Qed.

(** ** The monad of handlers *)

Lemma forEach_keeps {S A B} (proj : S -> B) (f : A -> M S unit) (l : list A) :
  (forall a s, proj (st (f a s)) = proj s) ->
  forall s, proj (st (forEach l f s)) = proj s.
Proof.
  intros Hf. induction l as [|a r IH]; intros s; simpl.
  - reflexivity.
  - unfold bind. simpl. rewrite IH. apply Hf.
Qed.

Lemma forEach_log {S A} (P : Call -> Prop) (f : A -> M S unit) (l : list A) :
  (forall a s, Forall P (log (f a s))) ->
  forall s, Forall P (log (forEach l f s)).
Proof.
  intros Hf. induction l as [|a r IH]; intros s; simpl.
  - constructor.
  - unfold bind. simpl. apply Forall_app. split; [apply Hf | apply IH].
Qed.

(** ** [terminalApi.execute] *)

Section ExecuteResponse.

Context {S A : Type} (w : Api.World A) (onData : CommandResult -> M S unit).

Lemma execute_chunk_keeps {B} (proj : S -> B) :
  (forall d s, proj (st (onData d s)) = proj s) ->
  forall text s, proj (st (Api.execute_chunk w onData text s)) = proj s.
Proof.
  intros H text. unfold Api.execute_chunk. apply forEach_keeps.
  intros line s. destruct (Api.JSON_parse w (slice 6 line)); [apply H | reflexivity].
Qed.

Lemma execute_response_keeps {B} (proj : S -> B) :
  (forall d s, proj (st (onData d s)) = proj s) ->
  forall r s, proj (st (Api.execute_response w onData r s)) = proj s.
Proof.
  intros H [m|status txt| |chunks failure] s; simpl; try reflexivity.
  unfold bind. simpl. apply forEach_keeps. intros; now apply execute_chunk_keeps.
Qed.

Lemma execute_response_log (P : Call -> Prop) :
  P (console_error (js "Failed to parse SSE data:")) ->
  (forall d s, Forall P (log (onData d s))) ->
  forall r s, Forall P (log (Api.execute_response w onData r s)).
Proof.
  intros Hc H [m|status txt| |chunks failure] s; simpl; try constructor.
  unfold bind. simpl. rewrite app_nil_r. apply forEach_log.
  intros text s1. unfold Api.execute_chunk. apply forEach_log.
  intros line s2. destruct (Api.JSON_parse w (slice 6 line)).
  - apply H.
  - repeat constructor. exact Hc.
Qed.

End ExecuteResponse.

(** ** The stages of [handleCommand] *)

Ltac case_onData d :=
  unfold onData; destruct (type d); simpl;
  repeat match goal with
         | |- context [match ?x with _ => _ end] => destruct x; simpl
         end.

(** The callback of the stream only appends terminal lines. *)
Lemma onData_state (c : jsstring) (d : CommandResult) (s : State) :
  exists l, st (onData c d s) = setLines (fun prev => prev ++ l) s.
Proof.
  assert (Hid : s = setLines (fun prev => prev ++ []) s).
  { destruct s; unfold setLines; simpl. now rewrite app_nil_r. }
  case_onData d;
    solve [ eexists; reflexivity | exists []; exact Hid ].
Qed.

Lemma onData_keeps {B} (proj : State -> B) :
  (forall f s, proj (setLines f s) = proj s) ->
  forall c d s, proj (st (onData c d s)) = proj s.
Proof.
  intros H c d s. destruct (onData_state c d s) as [l ->]. apply H.
Qed.

(** The callback makes no request. *)
Lemma onData_log (c : jsstring) (d : CommandResult) (s : State) :
  Forall (fun x => request_call x = false) (log (onData c d s)).
Proof.
  case_onData d; repeat constructor.
Qed.

Section Stages.

Variable w : Api.World CommandAnalysis.

Lemma finish_execute_keeps {B} (proj : State -> B) :
  (forall f s, proj (setLines f s) = proj s) ->
  (forall v s, proj (setIsExecuting v s) = proj s) ->
  forall c b s, proj (st (finish_execute w c b s)) = proj s.
Proof.
  intros HL HE c b s. unfold finish_execute, bind, after_execute. simpl.
  set (o := Api.execute_response w (onData c) _ s).
  assert (Ho : proj (st o) = proj s).
  { apply execute_response_keeps. intros; now apply onData_keeps. }
  destruct (val o); simpl; unfold bind; simpl; rewrite HE; [|rewrite HL]; exact Ho.
Qed.

Lemma finish_execute_log (c : jsstring) (b : bool) (s : State) :
  Forall (fun x => request_call x = false) (log (finish_execute w c b s)).
Proof.
  unfold finish_execute, bind. simpl. apply Forall_app. split.
  - apply execute_response_log; [reflexivity | apply onData_log].
  - unfold after_execute.
    match goal with |- context [match ?r with Ok _ => _ | Throw _ => _ end] =>
      destruct r end; simpl; constructor.
Qed.

(** When the stream has ended the component is no longer executing. *)
Lemma finish_execute_idle (c : jsstring) (b : bool) (s : State) :
  isExecuting (st (finish_execute w c b s)) = false.
Proof.
  reflexivity.
Qed.

End Stages.

(** *** The part of [handleCommand] before its first [await] *)

Ltac case_begin c b :=
  unfold handleCommand_begin; rewrite truthy_trim;
  destruct (blank c); simpl; [reflexivity|];
  destruct (streq (trim c) (js "clear") || streq (trim c) (js "cls"));
    simpl; [reflexivity|];
  destruct (startsWith (trim c) (js "cd ")); simpl; [reflexivity|];
  destruct b; reflexivity.

Lemma begin_history (c : jsstring) (b : bool) (s : State) :
  history (st (handleCommand_begin c b s)) =
  if blank c then history s
  else filter (fun x => negb (streq x c)) (history s) ++ [c].
Proof. case_begin c b. Qed.

Lemma begin_log (c : jsstring) (b : bool) (s : State) :
  log (handleCommand_begin c b s) =
  if blank c then []
  else if streq (trim c) (js "clear") || streq (trim c) (js "cls") then []
  else if startsWith (trim c) (js "cd ") then [POST_cd (trim (slice 3 (trim c)))]
  else if b then [POST_execute (Api.execute_body c true)]
  else [POST_analyze c].
Proof. case_begin c b. Qed.

Lemma begin_val (c : jsstring) (b : bool) (s : State) :
  val (handleCommand_begin c b s) =
  if blank c then None
  else if streq (trim c) (js "clear") || streq (trim c) (js "cls") then None
  else if startsWith (trim c) (js "cd ")
       then Some (AwaitChangeDirectory (trim (slice 3 (trim c))))
  else if b then Some (AwaitExecute c true)
  else Some (AwaitAnalyze c).
Proof. case_begin c b. Qed.

Lemma begin_dialog (c : jsstring) (b : bool) (s : State) :
  confirmDialog (st (handleCommand_begin c b s)) = confirmDialog s.
Proof. case_begin c b. Qed.

Lemma begin_blank (c : jsstring) (b : bool) (s : State) :
  blank c = true -> st (handleCommand_begin c b s) = s.
Proof.
  intros H. unfold handleCommand_begin. rewrite truthy_trim, H. reflexivity.
Qed.

(** A blank command is no built-in: its trimmed text is empty. *)
Lemma builtin_not_blank (c : jsstring) : builtin c = true -> blank c = false.
Proof.
  unfold builtin. destruct (blank c) eqn:B; [|reflexivity].
  apply trim_nil_blank in B. rewrite B. discriminate.
Qed.

(** *** The continuations *)

Section Continuations.

Variable w : Api.World CommandAnalysis.

Lemma settle_history (p : Pending) (s : State) :
  history (st (settle w p s)) = history s.
Proof.
  destruct p as [path|c|c b]; simpl.
  - unfold bind, after_changeDirectory. simpl.
    destruct (Api.cd_endpoint w path); reflexivity.
  - unfold after_analyze. destruct (Api.analyze_endpoint w c) as [a|m]; simpl;
      [destruct (requires_confirmation a)|]; reflexivity.
  - change (history (st (finish_execute w c b s)) = history s).
    now apply finish_execute_keeps.
Qed.

Lemma settle_all_history (p : option Pending) (s : State) :
  history (st (settle_all w p s)) = history s.
Proof.
  destruct p as [p1|]; [|reflexivity].
  unfold settle_all, bind. simpl.
  destruct (val (settle w p1 s)) as [p3|]; simpl.
  - now rewrite !settle_history.
  - apply settle_history.
Qed.

Lemma handleCommand_history (c : jsstring) (b : bool) (s : State) :
  history (st (handleCommand w c b s)) =
  if blank c then history s
  else filter (fun x => negb (streq x c)) (history s) ++ [c].
Proof.
  unfold handleCommand, bind. simpl.
  rewrite settle_all_history. apply begin_history.
Qed.

(** A settled execute request makes no further request. *)
Lemma settle_execute_log (c : jsstring) (b : bool) (s : State) :
  Forall (fun x => request_call x = false) (log (settle w (AwaitExecute c b) s)).
Proof.
  change (Forall (fun x => request_call x = false)
            (log (finish_execute w c b s) ++ [])).
  rewrite app_nil_r. apply finish_execute_log.
Qed.

End Continuations.

(** *** The history list *)

Lemma not_in_filter_neq (c : jsstring) (h : list jsstring) :
  ~ In c (filter (fun x => negb (streq x c)) h).
Proof.
  intros H. apply filter_In in H. destruct H as [_ H].
  rewrite streq_refl in H. discriminate.
Qed.

Lemma NoDup_resubmit (c : jsstring) (h : list jsstring) :
  NoDup h -> NoDup (filter (fun x => negb (streq x c)) h ++ [c]).
Proof.
  intros H. apply NoDup_app.
  - now apply NoDup_filter.
  - repeat constructor. intros [].
  - intros a Ha [<-|[]]. exact (not_in_filter_neq _ _ Ha).
Qed.

Lemma count_resubmit (c : jsstring) (h : list jsstring) :
  count_occ jsstring_dec (filter (fun x => negb (streq x c)) h ++ [c]) c = 1.
Proof.
  rewrite count_occ_app. simpl.
  destruct (jsstring_dec c c) as [_|N]; [|congruence].
  rewrite (proj1 (count_occ_not_In jsstring_dec _ _) (not_in_filter_neq c h)).
  reflexivity.
Qed.

Lemma begin_NoDup (c : jsstring) (b : bool) (s : State) :
  NoDup (history s) -> NoDup (history (st (handleCommand_begin c b s))).
Proof.
  intros H. rewrite begin_history. destruct (blank c); [exact H|].
  now apply NoDup_resubmit.
Qed.

Lemma handleKeyDown_NoDup (k : Key) (sh : bool) (s : State) :
  NoDup (history s) -> NoDup (history (st (handleKeyDown k sh s))).
Proof.
  intros H. destruct k; simpl.
  - destruct sh; simpl; [exact H|]. unfold bind. simpl. now apply begin_NoDup.
  - unfold bind. simpl.
    destruct (0 <? Z.of_nat (List.length (history s)))%Z; exact H.
  - unfold bind. simpl.
    destruct (0 <? historyIndex s)%Z; [exact H|].
    destruct (historyIndex s =? 0)%Z; exact H.
  - destruct sh; exact H.
Qed.

Lemma fire_NoDup (w : Api.World CommandAnalysis) (r : Running) (e : Event) :
  NoDup (history (term r)) -> NoDup (history (term (fst (fire w r e)))).
Proof.
  intros H. destruct e as [text|k sh| | | |n]; simpl; try exact H.
  - now apply handleKeyDown_NoDup.
  - unfold handleSend, bind. simpl. now apply begin_NoDup.
  - unfold handleConfirmExecution, bind. simpl. now apply begin_NoDup.
  - destruct (nth_error (pool r) n) as [p|]; simpl; [|exact H].
    now rewrite settle_history.
Qed.

Lemma run_NoDup (w : Api.World CommandAnalysis) (es : list Event) (r : Running) :
  NoDup (history (term r)) -> NoDup (history (term (fst (run w r es)))).
Proof.
  revert r. induction es as [|e rest IH]; intros r H; simpl; [exact H|].
  destruct (step w r e) as [r1 calls] eqn:E1.
  specialize (IH r1).
  destruct (run w r1 rest) as [r2 tr] eqn:E2. simpl in *.
  apply IH. unfold step in E1.
  destruct (enabled r e).
  - pose proof (fire_NoDup w r e H) as F. rewrite E1 in F. exact F.
  - injection E1 as <- _. exact H.
Qed.

(** C10.  The command history never holds a command twice.  In every state
    the component reaches from its mount, through any user events and any
    settling of promises, [history] has no duplicate; and from any state
    [handleCommand(command)] leaves [history] as it was when [command] is
    white space only, and otherwise leaves [command] in it exactly once, as
    its last element. *)
Theorem history_duplicate_free
    (w : Api.World CommandAnalysis) (es : list Event)
    (s : State) (c : jsstring) (b : bool) :
  NoDup (history (term (fst (run w mounted es)))) /\
  let h' := history (st (handleCommand w c b s)) in
  if blank c then h' = history s
  else count_occ jsstring_dec h' c = 1 /\ last h' [] = c.
Proof.
  split.
  - apply run_NoDup. constructor.
  - cbv zeta. rewrite handleCommand_history. destruct (blank c); [reflexivity|].
    split; [apply count_resubmit | apply last_last].
Qed.

(** *** Built-in commands *)

Lemma handleCommand_log (w : Api.World CommandAnalysis)
    (c : jsstring) (b : bool) (s : State) :
  log (handleCommand w c b s) =
  log (handleCommand_begin c b s) ++
  log (settle_all w (val (handleCommand_begin c b s)) (st (handleCommand_begin c b s))).
Proof. reflexivity. Qed.

Lemma settle_cd_log (w : Api.World CommandAnalysis) (path : jsstring) (s : State) :
  log (settle_all w (Some (AwaitChangeDirectory path)) s) = [].
Proof.
  unfold settle_all, settle, bind, after_changeDirectory. simpl.
  destruct (Api.cd_endpoint w path); reflexivity.
Qed.

(** The calls of a built-in: one [cd] request, or none at all. *)
Lemma builtin_log (w : Api.World CommandAnalysis)
    (c : jsstring) (b : bool) (s : State) :
  builtin c = true ->
  log (handleCommand w c b s) = [] \/
  log (handleCommand w c b s) = [POST_cd (trim (slice 3 (trim c)))].
Proof.
  intros H. pose proof (builtin_not_blank c H) as B.
  rewrite handleCommand_log, begin_log, begin_val, B.
  unfold builtin in H. cbv zeta in H.
  destruct (streq (trim c) (js "clear") || streq (trim c) (js "cls")).
  - left. reflexivity.
  - simpl in H. rewrite H. right. now rewrite settle_cd_log.
Qed.

(** C9, as amended.  A command whose trimmed text is "clear" or "cls", or
    begins with "cd ", is handled as a built-in: whatever the [confirmed]
    flag, [handleCommand] sends nothing to [terminalApi.analyze] nor to
    [terminalApi.execute]. *)
Theorem builtin_bypasses_gate (w : Api.World CommandAnalysis)
    (c : jsstring) (b : bool) (s : State) :
  builtin c = true ->
  existsb gate_call (log (handleCommand w c b s)) = false.
Proof.
  intros H. destruct (builtin_log w c b s H) as [-> | ->]; reflexivity.
Qed.

Lemma builtin_bypasses_gate_witness :
  builtin (js "cd /tmp") = true /\
  existsb gate_call (log (handleCommand Sample.world (js "cd /tmp") true initial))
  = false.
Proof.
  split; [reflexivity | apply builtin_bypasses_gate; reflexivity].
Defined.

(** C9, as stated, fails on the command "cd " (and on "cd" followed by any
    white space): it begins with "cd ", but its trimmed text "cd" does not,
    so it is analysed and executed like any other command. *)
Lemma cd_without_argument_reaches_gate :
  startsWith (js "cd ") (js "cd ") = true /\
  log (handleCommand Sample.world (js "cd ") false initial) =
  [POST_analyze (js "cd "); POST_execute (Api.execute_body (js "cd ") false)].
Proof. split; reflexivity. Qed.

(** *** Commands that go through the gate *)

Section Gate.

Variable w : Api.World CommandAnalysis.

(** An unconfirmed submission sends no execute request before its first
    [await]. *)
Lemma begin_unconfirmed_log (c : jsstring) (s : State) :
  existsb execute_call (log (handleCommand_begin c false s)) = false.
Proof.
  rewrite begin_log.
  repeat match goal with |- context [if ?x then _ else _] => destruct x end;
    reflexivity.
Qed.

Lemma begin_gated (c : jsstring) (s : State) :
  blank c = false -> builtin c = false ->
  val (handleCommand_begin c false s) = Some (AwaitAnalyze c) /\
  log (handleCommand_begin c false s) = [POST_analyze c].
Proof.
  intros B H. rewrite begin_val, begin_log, B.
  unfold builtin in H. cbv zeta in H. apply orb_false_iff in H.
  destruct H as [-> ->]. split; reflexivity.
Qed.

(** The analyzer is asked exactly about the unconfirmed commands that are
    neither blank nor built-in. *)
Lemma analysis_requested (c : jsstring) (b : bool) (s : State) :
  In (POST_analyze c) (log (handleCommand_begin c b s)) ->
  b = false /\ blank c = false /\ builtin c = false.
Proof.
  rewrite begin_log. unfold builtin. cbv zeta.
  destruct (blank c); [intros []|].
  destruct (streq (trim c) (js "clear") || streq (trim c) (js "cls"));
    [intros []|].
  destruct (startsWith (trim c) (js "cd ")); [intros [H|[]]; discriminate|].
  destruct b; [intros [H|[]]; discriminate|]. auto.
Qed.

Lemma settle_log_no_analyze (p : Pending) (s : State) (c : jsstring) :
  ~ In (POST_analyze c) (log (settle w p s)).
Proof.
  destruct p as [path|c1|c1 b1].
  - unfold settle, bind, after_changeDirectory. simpl.
    destruct (Api.cd_endpoint w path); simpl; tauto.
  - unfold settle, after_analyze.
    destruct (Api.analyze_endpoint w c1) as [a|m];
      [destruct (requires_confirmation a)|]; simpl;
      intuition discriminate.
  - intros H. pose proof (settle_execute_log w c1 b1 s) as F.
    rewrite Forall_forall in F. specialize (F _ H). discriminate.
Qed.

Lemma handleCommand_analysis_requested (c : jsstring) (b : bool) (s : State) :
  In (POST_analyze c) (log (handleCommand w c b s)) ->
  b = false /\ blank c = false /\ builtin c = false.
Proof.
  rewrite handleCommand_log. intros H. apply in_app_or in H.
  destruct H as [H|H]; [now apply analysis_requested in H|].
  exfalso. revert H.
  destruct (val (handleCommand_begin c b s)) as [p1|]; [|intros []].
  unfold settle_all, bind. simpl.
  set (o := settle w p1 _). intros H. apply in_app_or in H.
  destruct H as [H|H]; [exact (settle_log_no_analyze _ _ _ H)|].
  destruct (val o) as [p3|]; simpl in H; [|exact H].
  rewrite app_nil_r in H. exact (settle_log_no_analyze _ _ _ H).
Qed.

(** What a gated, unconfirmed submission does once the analyzer has
    answered. *)
Lemma gated_unconfirmed (c : jsstring) (s : State) :
  blank c = false -> builtin c = false ->
  let s1 := st (handleCommand_begin c false s) in
  let o := after_analyze c (Api.analyze_endpoint w c) s1 in
  log (handleCommand w c false s) =
    POST_analyze c :: log o ++
      match val o with
      | Some p => log (settle w p (st o))
      | None => []
      end /\
  st (handleCommand w c false s) =
    match val o with
    | Some p => st (settle w p (st o))
    | None => st o
    end.
Proof.
  intros B H. destruct (begin_gated c s B H) as [Hv Hl].
  cbv zeta. unfold handleCommand, bind. simpl. rewrite Hv, Hl.
  unfold settle_all, bind. simpl.
  destruct (val (after_analyze c (Api.analyze_endpoint w c) _)); simpl.
  - rewrite app_nil_r. split; reflexivity.
  - split; reflexivity.
Qed.

End Gate.

(** C6.  A failure of the analyzer does not stop the submission.  When
    [handleCommand] asks [terminalApi.analyze] about an unconfirmed command
    and the call throws, the failure goes to the console and the next call
    is the execute request for that same command; nothing is shown in the
    confirmation dialog and the terminal gets no new request after it. *)
Theorem analyzer_failure_does_not_halt
    (w : Api.World CommandAnalysis) (c m : jsstring) (s : State) :
  Api.analyze_endpoint w c = Throw m ->
  In (POST_analyze c) (log (handleCommand w c false s)) ->
  exists rest,
    log (handleCommand w c false s) =
      POST_analyze c :: console_error (js "Analysis failed:")
        :: POST_execute (Api.execute_body c false) :: rest /\
    Forall (fun x => request_call x = false) rest /\
    confirmDialog (st (handleCommand w c false s)) = confirmDialog s.
Proof.
  intros Hm Hin.
  apply handleCommand_analysis_requested in Hin. destruct Hin as (_ & B & H).
  destruct (gated_unconfirmed w c s B H) as [Hl Hs]. cbv zeta in Hl, Hs.
  rewrite Hm in Hl, Hs.
  exists (log (finish_execute w c false
            (setIsExecuting true (st (handleCommand_begin c false s)))) ++ []).
  rewrite Hl, Hs. split; [reflexivity|]. split.
  - rewrite app_nil_r. apply finish_execute_log.
  - change (confirmDialog (st (finish_execute w c false
              (setIsExecuting true (st (handleCommand_begin c false s)))))
            = confirmDialog s).
    rewrite finish_execute_keeps by reflexivity.
    apply begin_dialog.
Qed.

Lemma analyzer_failure_does_not_halt_witness :
  exists rest,
    log (handleCommand Sample.world_analyzer_down (js "ls -la") false initial) =
      POST_analyze (js "ls -la") :: console_error (js "Analysis failed:")
        :: POST_execute (Api.execute_body (js "ls -la") false) :: rest /\
    Forall (fun x => request_call x = false) rest /\
    confirmDialog
      (st (handleCommand Sample.world_analyzer_down (js "ls -la") false initial))
    = confirmDialog initial.
Proof.
  apply (analyzer_failure_does_not_halt Sample.world_analyzer_down
           (js "ls -la") (js "Network Error") initial).
  - reflexivity.
  - vm_compute. left. reflexivity.
Defined.

(** *** No execution before approval *)

Section Approval.

Variable w : Api.World CommandAnalysis.
Variables (c : jsstring) (a : CommandAnalysis).
Hypothesis analysed : Api.analyze_endpoint w c = Ok a.
Hypothesis guarded : requires_confirmation a = true.

Lemma guarded_settle (p : Pending) (s : State) (body : ExecuteRequest) :
  In (POST_execute body) (log (settle w p s)) -> req_command body <> c.
Proof.
  destruct p as [path|c1|c1 b1].
  - unfold settle, bind, after_changeDirectory. simpl.
    destruct (Api.cd_endpoint w path); simpl; tauto.
  - unfold settle, after_analyze. intros H E.
    destruct (jsstring_dec c1 c) as [->|N].
    + rewrite analysed, guarded in H. exact H.
    + destruct (Api.analyze_endpoint w c1) as [a1|m];
        [destruct (requires_confirmation a1)|]; simpl in H;
        repeat destruct H as [H|H]; try discriminate; try contradiction;
        injection H as <-; simpl in E; contradiction.
  - intros H. pose proof (settle_execute_log w c1 b1 s) as F.
    rewrite Forall_forall in F. specialize (F _ H). discriminate.
Qed.

Lemma guarded_unconfirmed (s : State) :
  existsb execute_call (log (handleCommand w c false s)) = false.
Proof.
  destruct (existsb execute_call (log (handleCommand w c false s))) eqn:E;
    [exfalso | reflexivity].
  apply existsb_exists in E. destruct E as (x & Hin & Hx).
  destruct x as [ | body | | | | ]; try discriminate. clear Hx.
  rewrite handleCommand_log in Hin. apply in_app_or in Hin.
  destruct Hin as [Hin|Hin].
  - pose proof (begin_unconfirmed_log c s) as F.
    assert (existsb execute_call (log (handleCommand_begin c false s)) = true)
      by (apply existsb_exists; exists (POST_execute body); auto).
    congruence.
  - pose proof (begin_val c false s) as V.
    destruct (val (handleCommand_begin c false s)) as [p1|]; [|exact Hin].
    assert (p1 = AwaitChangeDirectory (trim (slice 3 (trim c))) \/ p1 = AwaitAnalyze c)
      as Hp.
    { repeat match type of V with context [if ?x then _ else _] => destruct x end;
        inversion V; auto. }
    clear V. unfold settle_all, bind in Hin. simpl in Hin.
    destruct Hp as [-> | ->].
    + unfold settle, bind, after_changeDirectory in Hin. simpl in Hin.
      destruct (Api.cd_endpoint w _); simpl in Hin; tauto.
    + unfold settle at 1 2 in Hin. unfold settle at 1 in Hin.
      unfold after_analyze in Hin. rewrite analysed, guarded in Hin.
      simpl in Hin. exact Hin.
Qed.

Lemma guarded_dialog (s : State) :
  In (POST_analyze c) (log (handleCommand w c false s)) ->
  confirmDialog (st (handleCommand w c false s)) =
    {| open := true; dialog_command := c; dialog_analysis := Some a |} /\
  isExecuting (st (handleCommand w c false s)) = isExecuting s.
Proof.
  intros Hin. apply handleCommand_analysis_requested in Hin.
  destruct Hin as (_ & B & H).
  destruct (gated_unconfirmed w c s B H) as [_ Hs]. cbv zeta in Hs.
  rewrite analysed in Hs. rewrite Hs. unfold after_analyze. rewrite guarded.
  split; [reflexivity|].
  simpl. unfold handleCommand_begin. rewrite truthy_trim, B.
  unfold builtin in H. cbv zeta in H. apply orb_false_iff in H.
  destruct H as [-> ->]. reflexivity.
Qed.

Lemma guarded_fire (r : Running) (e : Event) (body : ExecuteRequest) :
  In (POST_execute body) (snd (fire w r e)) ->
  req_command body = c ->
  e = ClickExecuteAnyway /\ req_confirmed body = true /\
  dialog_command (confirmDialog (term r)) = c.
Proof.
  intros Hin E.
  assert (U : forall text s, ~ In (POST_execute body)
                               (log (handleCommand_begin text false s))).
  { intros text s H. pose proof (begin_unconfirmed_log text s) as F.
    assert (existsb execute_call (log (handleCommand_begin text false s)) = true)
      by (apply existsb_exists; exists (POST_execute body); auto).
    congruence. }
  destruct e as [text|k sh| | | |n]; simpl in Hin; try contradiction.
  - exfalso. destruct k, sh; simpl in Hin; try contradiction.
    + unfold bind in Hin. simpl in Hin. rewrite app_nil_r in Hin.
      exact (U _ _ Hin).
    + unfold bind in Hin. simpl in Hin.
      destruct (0 <? Z.of_nat (List.length (history (term r))))%Z; exact Hin.
    + unfold bind in Hin. simpl in Hin.
      destruct (0 <? Z.of_nat (List.length (history (term r))))%Z; exact Hin.
    + unfold bind in Hin. simpl in Hin.
      destruct (0 <? historyIndex (term r))%Z; [exact Hin|].
      destruct (historyIndex (term r) =? 0)%Z; exact Hin.
    + unfold bind in Hin. simpl in Hin.
      destruct (0 <? historyIndex (term r))%Z; [exact Hin|].
      destruct (historyIndex (term r) =? 0)%Z; exact Hin.
  - exfalso. unfold handleSend, bind in Hin. simpl in Hin.
    rewrite app_nil_r in Hin. exact (U _ _ Hin).
  - unfold handleConfirmExecution, bind in Hin. simpl in Hin.
    rewrite begin_log in Hin.
    repeat match type of Hin with context [if ?x then _ else _] => destruct x end;
      simpl in Hin; repeat destruct Hin as [Hin|Hin];
      try discriminate; try contradiction.
    injection Hin as <-. simpl in E. auto.
  - exfalso. destruct (nth_error (pool r) n) as [p|]; simpl in Hin; [|exact Hin].
    exact (guarded_settle _ _ _ Hin E).
Qed.

Lemma guarded_run (es : list Event) (r : Running)
    (e : Event) (calls : list Call) (body : ExecuteRequest) :
  In (e, calls) (snd (run w r es)) ->
  In (POST_execute body) calls ->
  req_command body = c ->
  e = ClickExecuteAnyway /\ req_confirmed body = true.
Proof.
  revert r. induction es as [|e0 rest IH]; intros r Hin Hb E; simpl in Hin;
    [contradiction|].
  destruct (step w r e0) as [r1 calls0] eqn:E1.
  specialize (IH r1).
  destruct (run w r1 rest) as [r2 tr] eqn:E2. simpl in *.
  destruct Hin as [Hin|Hin]; [|now apply IH].
  injection Hin as -> ->. unfold step in E1.
  destruct (enabled r e).
  - pose proof (guarded_fire r e body) as F. rewrite E1 in F.
    destruct (F Hb E) as (? & ? & _). auto.
  - injection E1 as _ <-. contradiction.
Qed.

End Approval.

(** C1.  A command whose analysis has [requires_confirmation = true] is
    not executed before it is approved.  For such a command
    [handleCommand(command, false)] sends no execute request, from any
    state; when it consults the analyzer it opens the confirmation dialog
    on that command and returns without touching [isExecuting]; and in any
    run of the component, from any state, every execute request for the
    command is sent by the dialog's approval, [handleConfirmExecution],
    calling [handleCommand] with [confirmed = true]. *)
Theorem confirmation_gate_suspends_execution
    (w : Api.World CommandAnalysis) (c : jsstring) (a : CommandAnalysis) :
  Api.analyze_endpoint w c = Ok a ->
  requires_confirmation a = true ->
  (forall s, existsb execute_call (log (handleCommand w c false s)) = false) /\
  (forall s,
     In (POST_analyze c) (log (handleCommand w c false s)) ->
     confirmDialog (st (handleCommand w c false s)) =
       {| open := true; dialog_command := c; dialog_analysis := Some a |} /\
     isExecuting (st (handleCommand w c false s)) = isExecuting s) /\
  (forall r es e calls body,
     In (e, calls) (snd (run w r es)) ->
     In (POST_execute body) calls ->
     req_command body = c ->
     e = ClickExecuteAnyway /\ req_confirmed body = true).
Proof.
  intros Ha Hg. split; [|split].
  - intros s. exact (guarded_unconfirmed w c a Ha Hg s).
  - intros s. exact (guarded_dialog w c a Ha Hg s).
  - intros r es e calls body. exact (guarded_run w c a Ha Hg es r e calls body).
Qed.

Lemma confirmation_gate_suspends_execution_witness :
  log (handleCommand Sample.world Sample.rm_project false initial) =
    [POST_analyze Sample.rm_project] /\
  confirmDialog (st (handleCommand Sample.world Sample.rm_project false initial)) =
    {| open := true; dialog_command := Sample.rm_project;
       dialog_analysis := Some Sample.rm_analysis |} /\
  existsb execute_call
    (log (handleCommand Sample.world Sample.rm_project false initial)) = false.
Proof.
  destruct (confirmation_gate_suspends_execution
              Sample.world Sample.rm_project Sample.rm_analysis
              eq_refl eq_refl) as (Hno & Hdialog & _).
  split; [reflexivity|]. split.
  - apply Hdialog. left. reflexivity.
  - apply Hno.
Defined.

(** *** Submissions while a command is executing *)

(** [handleCommand] never reads [isExecuting]. *)
Lemma begin_ignores_isExecuting (c : jsstring) (b v : bool) (s : State) :
  log (handleCommand_begin c b (setIsExecuting v s)) = log (handleCommand_begin c b s) /\
  val (handleCommand_begin c b (setIsExecuting v s)) = val (handleCommand_begin c b s).
Proof. now rewrite !begin_log, !begin_val. Qed.

Lemma forEach_log_same {S A} (f : A -> M S unit) (l : list A) :
  (forall a s s', log (f a s) = log (f a s')) ->
  forall s s', log (forEach l f s) = log (forEach l f s').
Proof.
  intros Hf. induction l as [|a l IH]; intros s s'; simpl; [reflexivity|].
  unfold bind. simpl. rewrite (Hf a s s'). f_equal. apply IH.
Qed.

(** What [terminalApi.execute] logs and returns does not depend on the
    state of the component when the callback's calls do not. *)
Lemma execute_response_same {S A} (w : Api.World A)
    (f : CommandResult -> M S unit) :
  (forall d s s', log (f d s) = log (f d s')) ->
  forall r s s',
    log (Api.execute_response w f r s) = log (Api.execute_response w f r s') /\
    val (Api.execute_response w f r s) = val (Api.execute_response w f r s').
Proof.
  intros Hf [m|status txt| |chunks failure] s s'; simpl; try (split; reflexivity).
  unfold bind. simpl. split; [|reflexivity]. f_equal.
  apply forEach_log_same. intros text s1 s2. unfold Api.execute_chunk.
  apply forEach_log_same. intros line s3 s4.
  destruct (Api.JSON_parse w (slice 6 line)); [apply Hf | reflexivity].
Qed.

Lemma onData_log_same (c : jsstring) (d : CommandResult) (s s' : State) :
  log (onData c d s) = log (onData c d s').
Proof. case_onData d; reflexivity. Qed.

Lemma after_execute_log (r : Result unit) (s : State) : log (after_execute r s) = [].
Proof. destruct r; reflexivity. Qed.

Lemma finish_execute_same (w : Api.World CommandAnalysis)
    (c : jsstring) (b : bool) (s s' : State) :
  log (finish_execute w c b s) = log (finish_execute w c b s').
Proof.
  unfold finish_execute, bind. cbn [log].
  rewrite !after_execute_log.
  destruct (execute_response_same w (onData c) (onData_log_same c)
              (Api.execute_endpoint w (Api.execute_body c b)) s s') as [-> _].
  reflexivity.
Qed.

Lemma handleKeyDown_ignores_isExecuting (k : Key) (sh v : bool) (s : State) :
  log (handleKeyDown k sh (setIsExecuting v s)) = log (handleKeyDown k sh s) /\
  val (handleKeyDown k sh (setIsExecuting v s)) = val (handleKeyDown k sh s).
Proof.
  destruct k; simpl.
  - destruct sh; simpl; [split; reflexivity|]. unfold bind. simpl.
    now rewrite !begin_log, !begin_val.
  - unfold bind. simpl.
    destruct (0 <? Z.of_nat (List.length (history s)))%Z; split; reflexivity.
  - unfold bind. simpl.
    destruct (0 <? historyIndex s)%Z; [split; reflexivity|].
    destruct (historyIndex s =? 0)%Z; split; reflexivity.
  - destruct sh; split; reflexivity.
Qed.

(** No handler and no continuation reads [isExecuting]: whatever its value,
    a turn of the event loop makes the same calls and leaves the same
    promises pending. *)
Lemma fire_ignores_isExecuting (w : Api.World CommandAnalysis)
    (r : Running) (e : Event) (v : bool) :
  snd (fire w {| term := setIsExecuting v (term r); pool := pool r |} e)
    = snd (fire w r e) /\
  pool (fst (fire w {| term := setIsExecuting v (term r); pool := pool r |} e))
    = pool (fst (fire w r e)).
Proof.
  destruct e as [text|k sh| | | |n]; cbn [fire fst snd term pool].
  - split; reflexivity.
  - destruct (handleKeyDown_ignores_isExecuting k sh v (term r)) as [-> ->].
    split; reflexivity.
  - unfold handleSend, bind. cbn [log val st read update ret].
    change (input (setIsExecuting v (term r))) with (input (term r)).
    rewrite !begin_log, !begin_val. split; reflexivity.
  - unfold handleConfirmExecution, bind. cbn [log val st read update ret].
    change (confirmDialog (setIsExecuting v (term r))) with (confirmDialog (term r)).
    rewrite !begin_log, !begin_val. split; reflexivity.
  - split; reflexivity.
  - destruct (nth_error (pool r) n) as [[path|c|c b]|]; cbn [fst snd pool];
      [| | |split; reflexivity].
    + unfold settle, bind, after_changeDirectory.
      destruct (Api.cd_endpoint w path); split; reflexivity.
    + unfold settle, after_analyze.
      destruct (Api.analyze_endpoint w c) as [a|m];
        [destruct (requires_confirmation a)|]; split; reflexivity.
    + unfold settle, bind. cbn [log val ret].
      rewrite (finish_execute_same w c b (setIsExecuting v (term r)) (term r)).
      split; reflexivity.
Qed.

Lemma filter_remove_nth {A} (f : A -> bool) (l : list A) (n : nat) (x : A) :
  nth_error l n = Some x -> f x = false -> filter f (remove_nth n l) = filter f l.
Proof.
  revert n. induction l as [|a l IH]; intros [|n] H Hx; simpl in *; try discriminate.
  - injection H as ->. now rewrite Hx.
  - rewrite (IH n H Hx). reflexivity.
Qed.

(** An analysis that comes back without asking for confirmation, or not at
    all, starts the execution, whatever is executing already. *)
Lemma analysis_answer_starts_execution (w : Api.World CommandAnalysis)
    (r : Running) (n : nat) (c : jsstring) :
  nth_error (pool r) n = Some (AwaitAnalyze c) ->
  match Api.analyze_endpoint w c with
  | Ok a => requires_confirmation a = false
  | Throw _ => True
  end ->
  snd (fire w r (Settle n)) =
    match Api.analyze_endpoint w c with
    | Ok _ => []
    | Throw _ => [console_error (js "Analysis failed:")]
    end ++ [POST_execute (Api.execute_body c false)] /\
  executing (fst (fire w r (Settle n))) = executing r ++ [AwaitExecute c false].
Proof.
  intros Hn Ha. unfold executing. cbn [fire]. rewrite Hn.
  cbn [fst snd pool]. unfold settle, after_analyze.
  destruct (Api.analyze_endpoint w c) as [a|m]; [rewrite Ha|];
    cbn [start_execute bind update call ret log val st suspend app];
    rewrite filter_app, (filter_remove_nth _ _ n _ Hn eq_refl);
    split; reflexivity.
Qed.

(** The approval of the dialog starts the execution of its command,
    whatever is executing already. *)
Lemma approval_starts_execution (w : Api.World CommandAnalysis) (r : Running) :
  blank (dialog_command (confirmDialog (term r))) = false ->
  builtin (dialog_command (confirmDialog (term r))) = false ->
  snd (fire w r ClickExecuteAnyway) =
    [POST_execute (Api.execute_body (dialog_command (confirmDialog (term r))) true)] /\
  executing (fst (fire w r ClickExecuteAnyway)) =
    executing r ++ [AwaitExecute (dialog_command (confirmDialog (term r))) true].
Proof.
  intros B H. unfold builtin in H. cbv zeta in H.
  apply orb_false_iff in H. destruct H as [H1 H2].
  unfold executing. cbn [fire fst snd pool].
  unfold handleConfirmExecution, bind. cbn [log val st read update ret app].
  rewrite begin_log, begin_val, B, H1, H2, filter_app.
  split; reflexivity.
Qed.

(** C5, as amended.  While [isExecuting] is true the input field and the
    send button are disabled, so typing, key presses and the send button do
    nothing.  That is the only limit.  Neither [handleCommand] nor any other
    handler or continuation reads [isExecuting]: a call of [handleCommand]
    and every turn of the event loop make the same calls, and leave the same
    promises pending, as with [isExecuting] false, so nothing is rejected as
    busy.  In particular, while a command is executing, a submission still
    awaiting its analysis sends its execute request when the analysis comes
    back without asking for confirmation (or fails), and the approval of the
    confirmation dialog sends the execute request of its command; each adds
    one to the commands that are executing. *)
Theorem submission_controls_disabled_while_executing
    (w : Api.World CommandAnalysis) (r : Running) (e : Event)
    (c : jsstring) (b : bool) (n : nat) :
  isExecuting (term r) = true ->
  (submission_control e = true -> step w r e = (r, [])) /\
  log (handleCommand_begin c b (term r)) =
    log (handleCommand_begin c b (setIsExecuting false (term r))) /\
  val (handleCommand_begin c b (term r)) =
    val (handleCommand_begin c b (setIsExecuting false (term r))) /\
  snd (fire w r e) =
    snd (fire w {| term := setIsExecuting false (term r); pool := pool r |} e) /\
  pool (fst (fire w r e)) =
    pool (fst (fire w {| term := setIsExecuting false (term r); pool := pool r |} e)) /\
  (nth_error (pool r) n = Some (AwaitAnalyze c) ->
   match Api.analyze_endpoint w c with
   | Ok a => requires_confirmation a = false
   | Throw _ => True
   end ->
   snd (fire w r (Settle n)) =
     match Api.analyze_endpoint w c with
     | Ok _ => []
     | Throw _ => [console_error (js "Analysis failed:")]
     end ++ [POST_execute (Api.execute_body c false)] /\
   executing (fst (fire w r (Settle n))) = executing r ++ [AwaitExecute c false]) /\
  (blank (dialog_command (confirmDialog (term r))) = false ->
   builtin (dialog_command (confirmDialog (term r))) = false ->
   snd (fire w r ClickExecuteAnyway) =
     [POST_execute
        (Api.execute_body (dialog_command (confirmDialog (term r))) true)] /\
   executing (fst (fire w r ClickExecuteAnyway)) =
     executing r ++ [AwaitExecute (dialog_command (confirmDialog (term r))) true]).
Proof.
  intros H. split; [|split; [|split; [|split; [|split; [|split]]]]].
  - intros He. unfold step, enabled, sendDisabled, inputDisabled.
    destruct e; try discriminate; rewrite H; reflexivity.
  - now destruct (begin_ignores_isExecuting c b false (term r)) as [-> _].
  - now destruct (begin_ignores_isExecuting c b false (term r)) as [_ ->].
  - now destruct (fire_ignores_isExecuting w r e false) as [-> _].
  - now destruct (fire_ignores_isExecuting w r e false) as [_ ->].
  - apply analysis_answer_starts_execution.
  - apply approval_starts_execution.
Qed.

Lemma submission_controls_disabled_while_executing_witness :
  let r := {| term :=
                setConfirmDialog
                  {| open := true; dialog_command := Sample.rm_project;
                     dialog_analysis := Some Sample.rm_analysis |}
                  (setIsExecuting true (setInput (js "ls") initial));
              pool := [AwaitExecute (js "sleep 60") false; AwaitAnalyze (js "ls")] |} in
  step Sample.world r ClickSend = (r, []) /\
  log (handleCommand_begin (js "ls") true (term r)) =
    [POST_execute (Api.execute_body (js "ls") true)] /\
  snd (fire Sample.world r (Settle 1)) =
    [POST_execute (Api.execute_body (js "ls") false)] /\
  executing (fst (fire Sample.world r (Settle 1))) =
    [AwaitExecute (js "sleep 60") false; AwaitExecute (js "ls") false] /\
  snd (fire Sample.world r ClickExecuteAnyway) =
    [POST_execute (Api.execute_body Sample.rm_project true)] /\
  executing (fst (fire Sample.world r ClickExecuteAnyway)) =
    [AwaitExecute (js "sleep 60") false; AwaitExecute Sample.rm_project true].
Proof.
  cbv zeta.
  destruct (submission_controls_disabled_while_executing Sample.world
              {| term :=
                   setConfirmDialog
                     {| open := true; dialog_command := Sample.rm_project;
                        dialog_analysis := Some Sample.rm_analysis |}
                     (setIsExecuting true (setInput (js "ls") initial));
                 pool := [AwaitExecute (js "sleep 60") false;
                          AwaitAnalyze (js "ls")] |}
              ClickSend (js "ls") true 1 eq_refl)
    as (Hstep & Hlog & _ & _ & _ & Hsettle & Hconfirm).
  destruct (Hsettle eq_refl eq_refl) as [S1 S2].
  destruct (Hconfirm eq_refl eq_refl) as [C1 C2].
  split; [exact (Hstep eq_refl)|].
  split; [rewrite Hlog; reflexivity|].
  split; [exact S1|]. split; [exact S2|]. split; [exact C1 | exact C2].
Defined.

(** C5, as stated, fails.  Two commands are submitted one after the other
    through the enabled controls while the first is still being analysed;
    when both analyses have come back, both execute requests have been sent
    and both streams are open.  The second request is sent while
    [isExecuting] is already true, and nothing is rejected. *)
Lemma two_commands_in_flight :
  let submit := [Change (js "sleep 60"); ClickSend; Change (js "ls"); ClickSend] in
  let r4 := fst (run Sample.world mounted submit) in
  let r5 := fst (run Sample.world r4 [Settle 0]) in
  let r6 := run Sample.world r5 [Settle 0] in
  pool r4 = [AwaitAnalyze (js "sleep 60"); AwaitAnalyze (js "ls")] /\
  isExecuting (term r5) = true /\
  executing r5 = [AwaitExecute (js "sleep 60") false] /\
  snd r6 = [(Settle 0, [POST_execute (Api.execute_body (js "ls") false)])] /\
  executing (fst r6) =
    [AwaitExecute (js "sleep 60") false; AwaitExecute (js "ls") false].
Proof. vm_compute. repeat split; reflexivity. Qed.

(** ** The approval flow of [App] and the modal's countdown *)

Section Cooldown.

Import ApprovalModal App.

Variable w : Api.World ApprovalModal.CommandAnalysis.



End Cooldown.




(** ** The create-backup choice *)

(** C3 fails on the code.  The user opens the modal on a command that is
    not reversible, waits for the countdown, unticks "Create backup before
    execution" and approves: [onApprove] is called with [false], and the
    execute request still carries [create_backup = true]. *)
Lemma unchecked_backup_still_requested :
  let es := [App.RunCommand Sample.rm_project] ++ repeat App.TimerFires 5
              ++ [App.CheckBackup false] in
  let y := fst (App.run Sample.app_world App.started es) in
  ApprovalModal.createBackup (App.modal y) = false /\
  App.enabled y App.ClickApprove = true /\
  snd (App.step Sample.app_world y App.ClickApprove) =
    [POST_execute {| req_command := Sample.rm_project; req_confirmed := true;
                     req_create_backup := true |}].
Proof. vm_compute. repeat split; reflexivity. Qed.

(** The request of [handleApproveCommand] does not depend on its argument. *)
Lemma approve_ignores_createBackup
    (w : Api.World ApprovalModal.CommandAnalysis) (b : bool) (s : App.State) :
  App.handleApproveCommand w b s = App.handleApproveCommand w true s.
Proof. reflexivity. Qed.

(** ** What interposes the approval step *)

(** The dialog of [Terminal] follows the [requires_confirmation] field the
    analyzer sent, and nothing else. *)
Lemma terminal_gate (w : Api.World CommandAnalysis)
    (c : jsstring) (a : CommandAnalysis) (s : State) :
  Api.analyze_endpoint w c = Ok a ->
  blank c = false -> builtin c = false ->
  confirmDialog (st (handleCommand w c false s)) =
    if requires_confirmation a
    then {| open := true; dialog_command := c; dialog_analysis := Some a |}
    else confirmDialog s.
Proof.
  intros Ha B H.
  destruct (gated_unconfirmed w c s B H) as [_ Hs]. cbv zeta in Hs.
  rewrite Ha in Hs. rewrite Hs. unfold after_analyze.
  destruct (requires_confirmation a); [reflexivity|].
  change (confirmDialog (st (finish_execute w c false
            (setIsExecuting true (st (handleCommand_begin c false s)))))
          = confirmDialog s).
  rewrite finish_execute_keeps by reflexivity. apply begin_dialog.
Qed.

(** C4, as amended.  The client derives nothing from [reversible].
    [handleRunCommand] opens the approval modal on the command exactly when
    its [risk_level] is high or critical, and otherwise only switches to the
    terminal tab; the [Terminal] opens its dialog exactly when the
    [requires_confirmation] field of the analysis it received is true. *)
Theorem approval_interposed_by_risk_level
    (w : Api.World ApprovalModal.CommandAnalysis)
    (c : jsstring) (a : ApprovalModal.CommandAnalysis) (s : App.State)
    (w' : Api.World CommandAnalysis) (c' : jsstring) (a' : CommandAnalysis)
    (s' : State) :
  Api.analyze_endpoint w c = Ok a ->
  Api.analyze_endpoint w' c' = Ok a' ->
  blank c' = false -> builtin c' = false ->
  st (App.handleRunCommand w c s) =
    (if App.needsApproval a
     then App.setApprovalModalOpen true
            (App.setCommandAnalysis (Some a) (App.setPendingCommand (Some c)
               (App.setActiveTab App.terminal s)))
     else App.setActiveTab App.terminal s) /\
  (App.needsApproval a = true <->
     ApprovalModal.risk_level a = ApprovalModal.high \/
     ApprovalModal.risk_level a = ApprovalModal.critical) /\
  confirmDialog (st (handleCommand w' c' false s')) =
    (if requires_confirmation a'
     then {| open := true; dialog_command := c'; dialog_analysis := Some a' |}
     else confirmDialog s').
Proof.
  intros Ha Ha' B H. split; [|split].
  - unfold App.handleRunCommand, bind. simpl. rewrite Ha.
    destruct (App.needsApproval a); reflexivity.
  - unfold App.needsApproval.
    destruct (ApprovalModal.risk_level a); simpl; split;
      intuition discriminate.
  - exact (terminal_gate w' c' a' s' Ha' B H).
Qed.

Lemma approval_interposed_by_risk_level_witness :
  App.approvalModalOpen
    (st (App.handleRunCommand Sample.app_world Sample.rm_project App.initial))
  = true /\
  open (confirmDialog
          (st (handleCommand Sample.world_unguarded Sample.rm_project false initial)))
  = false.
Proof.
  destruct (approval_interposed_by_risk_level
              Sample.app_world Sample.rm_project Sample.rm_report App.initial
              Sample.world_unguarded Sample.rm_project
              (Sample.unguarded_analysis Sample.rm_project) initial
              eq_refl eq_refl eq_refl eq_refl) as (H1 & _ & H3).
  split; [rewrite H1 | rewrite H3]; reflexivity.
Defined.

(** C4, as stated, fails.  A command of medium risk that is not reversible
    does not open the approval modal: [handleRunCommand] only switches the
    tab.  And the [Terminal] executes a critical command without its dialog
    when the analysis says [requires_confirmation = false]. *)
Lemma irreversible_medium_risk_not_gated :
  ApprovalModal.risk_level Sample.chmod_report = ApprovalModal.medium /\
  ApprovalModal.reversible Sample.chmod_report = false /\
  st (App.handleRunCommand Sample.app_world Sample.chmod_docs App.initial) =
    App.initial /\
  Types.risk_level (Sample.unguarded_analysis Sample.rm_project) = Types.critical /\
  log (handleCommand Sample.world_unguarded Sample.rm_project false initial) =
    [POST_analyze Sample.rm_project;
     POST_execute (Api.execute_body Sample.rm_project false)].
Proof. vm_compute. repeat split; reflexivity. Qed.

(** ** The events of the execute stream *)

Section Delivered.

Context {A : Type} (w : Api.World A).

Let record (d : CommandResult) : M (list CommandResult) unit :=
  update (fun l => l ++ [d]).

Lemma record_chunk (text : jsstring) (seen : list CommandResult) :
  st (Api.execute_chunk w record text seen) = seen ++ parsed_lines w text.
Proof.
  unfold Api.execute_chunk, parsed_lines.
  generalize (Api.data_lines text) as ls. intros ls. revert seen.
  induction ls as [|line ls IH]; intros seen; simpl.
  - now rewrite app_nil_r.
  - unfold bind. simpl. rewrite IH.
    destruct (Api.JSON_parse w (slice 6 line)); unfold record, update; simpl.
    + now rewrite <- app_assoc.
    + reflexivity.
Qed.

Lemma record_chunks (chunks : list jsstring) (seen : list CommandResult) :
  st (forEach chunks (Api.execute_chunk w record) seen) =
  seen ++ flat_map (parsed_lines w) chunks.
Proof.
  revert seen. induction chunks as [|text chunks IH]; intros seen; simpl.
  - now rewrite app_nil_r.
  - unfold bind. simpl. rewrite IH, record_chunk. now rewrite <- app_assoc.
Qed.

Lemma delivered_stream (chunks : list jsstring) (failure : option jsstring) :
  delivered w (Api.body_stream chunks failure) = flat_map (parsed_lines w) chunks.
Proof.
  unfold delivered. simpl. unfold bind. simpl.
  exact (record_chunks chunks []).
Qed.

End Delivered.

(** *** The read loop with its untyped callback *)

Lemma filter_true {A} (l : list A) : filter (fun _ => true) l = l.
Proof. induction l as [|a l IH]; simpl; [reflexivity | now rewrite IH]. Qed.

Section ReadLoop.

Context {S : Type} (JSON_parse : jsstring -> option Stream.Parsed)
        (throws : Stream.Parsed -> bool) (onData : Stream.Callback S)
        (keep : Call -> bool).

Hypothesis keep_console : keep (console_error (js "Failed to parse SSE data:")) = true.
Hypothesis onData_quiet : forall data s, filter keep (log (onData data s)) = [].
Hypothesis onData_throws :
  forall data s,
    match val (onData data s) with
    | Throw _ => throws data = true
    | Ok _ => throws data = false
    end.

Let on_line (line : jsstring) : M S unit :=
  match JSON_parse (slice 6 line) with
  | Some data =>
      bind (onData data) (fun r =>
        match r with
        | Ok _ => ret tt
        | Throw _ => call (console_error (js "Failed to parse SSE data:"))
        end)
  | None => call (console_error (js "Failed to parse SSE data:"))
  end.

Lemma lines_console (ls : list jsstring) (s : S) :
  filter keep (log (forEach ls on_line s)) =
  map (fun _ => console_error (js "Failed to parse SSE data:"))
      (filter (Stream.caught JSON_parse throws) ls).
Proof.
  revert s. induction ls as [|line ls IH]; intros s; [reflexivity|].
  cbn [forEach filter]. unfold bind at 1. cbn [log st val].
  rewrite filter_app, IH. unfold on_line, Stream.caught.
  destruct (JSON_parse (slice 6 line)) as [data|].
  - unfold bind. cbn [log st val]. rewrite filter_app, onData_quiet.
    pose proof (onData_throws data s) as T.
    destruct (val (onData data s)); rewrite T; cbn [ret call log filter app map].
    + reflexivity.
    + rewrite keep_console. reflexivity.
  - cbn [call log filter]. rewrite keep_console. reflexivity.
Qed.

Lemma loop_console (chunks : list jsstring) (s : S) :
  filter keep (log (Stream.read_loop JSON_parse onData chunks s)) =
  map (fun _ => console_error (js "Failed to parse SSE data:"))
      (filter (Stream.caught JSON_parse throws) (flat_map Api.data_lines chunks)).
Proof.
  unfold Stream.read_loop. revert s.
  induction chunks as [|text chunks IH]; intros s; [reflexivity|].
  cbn [forEach flat_map]. unfold bind. cbn [log st val].
  rewrite !filter_app, map_app, IH. f_equal.
  exact (lines_console (Api.data_lines text) s).
Qed.

End ReadLoop.

Section Recorder.

Context (JSON_parse : jsstring -> option Stream.Parsed) (throws : Stream.Parsed -> bool).

Lemma recorder_chunk (text : jsstring) (seen : list Stream.Parsed) :
  st (Stream.execute_chunk JSON_parse (Stream.recorder throws) text seen) =
  seen ++ Stream.accepted JSON_parse text.
Proof.
  unfold Stream.execute_chunk, Stream.accepted.
  generalize (Api.data_lines text) as ls. intros ls. revert seen.
  induction ls as [|line ls IH]; intros seen; simpl.
  - now rewrite app_nil_r.
  - unfold bind at 1. cbn [st val]. rewrite IH.
    destruct (JSON_parse (slice 6 line)) as [data|].
    + unfold Stream.recorder, bind, update. cbn [st val ret].
      destruct (throws data); cbn [st call ret]; now rewrite <- app_assoc.
    + reflexivity.
Qed.

Lemma recorder_loop (chunks : list jsstring) (seen : list Stream.Parsed) :
  st (Stream.read_loop JSON_parse (Stream.recorder throws) chunks seen) =
  seen ++ flat_map (Stream.accepted JSON_parse) chunks.
Proof.
  unfold Stream.read_loop. revert seen.
  induction chunks as [|text chunks IH]; intros seen; simpl.
  - now rewrite app_nil_r.
  - unfold bind. cbn [st val]. rewrite IH, recorder_chunk. now rewrite <- app_assoc.
Qed.

Lemma recorder_console (chunks : list jsstring) :
  Stream.reported JSON_parse throws chunks =
  map (fun _ => console_error (js "Failed to parse SSE data:"))
      (filter (Stream.caught JSON_parse throws) (flat_map Api.data_lines chunks)).
Proof.
  unfold Stream.reported.
  rewrite <- (filter_true (log _)).
  apply loop_console.
  - reflexivity.
  - intros data s. reflexivity.
  - intros data s. unfold Stream.recorder, bind. cbn [val st update ret].
    destruct (throws data); reflexivity.
Qed.

Lemma accepted_rejected (ls : list jsstring) :
  List.length (flat_map (fun line =>
                           match JSON_parse (slice 6 line) with
                           | Some data => [data]
                           | None => []
                           end) ls)
  + List.length (filter (Stream.rejected JSON_parse) ls) = List.length ls.
Proof.
  induction ls as [|line ls IH]; [reflexivity|].
  cbn [flat_map filter]. unfold Stream.rejected at 1.
  destruct (JSON_parse (slice 6 line)); simpl; lia.
Qed.

Lemma accepted_rejected_chunks (chunks : list jsstring) :
  List.length (flat_map (Stream.accepted JSON_parse) chunks)
  + List.length (filter (Stream.rejected JSON_parse) (flat_map Api.data_lines chunks))
  = List.length (flat_map Api.data_lines chunks).
Proof.
  induction chunks as [|text chunks IH]; [reflexivity|].
  cbn [flat_map]. rewrite filter_app, !length_app.
  pose proof (accepted_rejected (Api.data_lines text)) as H.
  fold (Stream.accepted JSON_parse text) in H. lia.
Qed.

End Recorder.

(** *** The callback of [handleCommand] *)

Lemma appended_nil (s : State) : appended [] s = s.
Proof. destruct s; unfold appended, setLines; simpl. now rewrite app_nil_r. Qed.

(** The lines the callback adds for an event and the calls it makes. *)
Lemma onData_effect (c : jsstring) (d : CommandResult) (s : State) :
  st (onData c d s) =
    appended
      match type d with
      | output =>
          [ {| line_type := match stream d with
                            | Some stderr_stream => line_error
                            | _ => line_output
                            end;
               line_content := match content d with Some t => t | None => [] end |} ]
      | execution_complete =>
          match success d with
          | Some true => []
          | _ => [ {| line_type := line_error;
                      line_content := js "Command exited with code "
                                        ++ template ofZ (exit_code d) |} ]
          end
      | error =>
          [ {| line_type := line_error;
               line_content := js "Error: " ++ template (fun m => m) (message d) |} ]
      | execution_start =>
          match backups d with
          | Some (b :: bs) =>
              [ {| line_type := line_info;
                   line_content := js "Created " ++ ofNat (List.length (b :: bs))
                                     ++ js " backup(s) before execution" |} ]
          | _ => []
          end
      | confirmation_required => []
      end s /\
  log (onData c d s) =
    match type d with
    | execution_complete => [onCommandExecuted c d]
    | _ => []
    end.
Proof.
  unfold onData. destruct (type d).
  - split; reflexivity.
  - destruct (success d) as [[|]|]; cbn [bind ret st log val];
      (split; [|reflexivity]).
    + now rewrite appended_nil.
    + reflexivity.
    + reflexivity.
  - split; reflexivity.
  - cbn [st log ret]. now rewrite appended_nil.
  - destruct (backups d) as [[|b bs]|]; cbn [st log ret];
      (split; [|reflexivity]); try (now rewrite appended_nil). reflexivity.
Qed.



(** Read through the declared type [CommandResult], the loop is the one of
    [Api.execute_chunk]: for a decoder that yields event objects and [null]
    only, both leave the same terminal and make the same calls. *)
Lemma typed_loop_agrees (w : Api.World CommandAnalysis)
    (JSON_parse : jsstring -> option Stream.Parsed) (c : jsstring)
    (chunks : list jsstring) :
  (forall t, Api.JSON_parse w t = Stream.typed JSON_parse t) ->
  (forall t, JSON_parse t <> Some Stream.parsed_other) ->
  forall s,
    st (forEach chunks (Api.execute_chunk w (onData c)) s) =
      st (Stream.read_loop JSON_parse (Stream.onData c) chunks s) /\
    log (forEach chunks (Api.execute_chunk w (onData c)) s) =
      log (Stream.read_loop JSON_parse (Stream.onData c) chunks s).
Proof.
  intros Hw Hother. unfold Stream.read_loop.
  assert (Hchunk : forall text s,
            st (Api.execute_chunk w (onData c) text s) =
              st (Stream.execute_chunk JSON_parse (Stream.onData c) text s) /\
            log (Api.execute_chunk w (onData c) text s) =
              log (Stream.execute_chunk JSON_parse (Stream.onData c) text s)).
  { intros text. unfold Api.execute_chunk, Stream.execute_chunk.
    generalize (Api.data_lines text) as ls. intros ls.
    induction ls as [|line ls IH]; intros s; [split; reflexivity|].
    cbn [forEach]. unfold bind at 1 3 4 6. cbn [st log val].
    rewrite Hw. unfold Stream.typed.
    pose proof (Hother (slice 6 line)) as Ho.
    destruct (JSON_parse (slice 6 line)) as [[d| |]|]; try congruence;
      unfold Stream.onData, bind; cbn [st log val ret call];
      rewrite ?app_nil_r;
      destruct (IH (st (onData c d s))) as [I1 I2] || destruct (IH s) as [I1 I2];
      rewrite I1, I2; split; reflexivity. }
  induction chunks as [|text chunks IH]; intros s; [split; reflexivity|].
  cbn [forEach]. unfold bind. cbn [st log val].
  destruct (Hchunk text s) as [C1 C2]. rewrite C1, C2.
  destruct (IH (st (Stream.execute_chunk JSON_parse (Stream.onData c) text s)))
    as [I1 I2].
  rewrite I1, I2. split; reflexivity.
Qed.




(** ** The shape of an analysis *)

(** C8, as amended.  The client has two declarations of [CommandAnalysis].
    The one of [ApprovalModal] (and of [App]) has the shape of the data
    model: a [risk_level] over the five literals safe, low, medium, high and
    critical, and the properties risk_score, category, actions,
    affected_paths, reversible, requires_sudo, warnings and recommendations.
    The shared one, which [Terminal] consumes, has a [RiskLevel] over the
    four literals low, medium, high and critical, and the properties
    command, is_risky, risk_level, reason, affected_paths,
    requires_confirmation and backup_recommended. *)
Theorem analysis_shapes (lit : jsstring) :
  ((exists r, ApprovalModal.RiskLevel_literal r = lit) <->
   In lit [js "safe"; js "low"; js "medium"; js "high"; js "critical"]) /\
  ApprovalModal.CommandAnalysis_properties =
    ["risk_level"; "risk_score"; "category"; "actions"; "affected_paths";
     "reversible"; "requires_sudo"; "warnings"; "recommendations"]%string /\
  ((exists r, Types.RiskLevel_literal r = lit) <->
   In lit [js "low"; js "medium"; js "high"; js "critical"]) /\
  Types.CommandAnalysis_properties =
    ["command"; "is_risky"; "risk_level"; "reason"; "affected_paths";
     "requires_confirmation"; "backup_recommended"]%string.
Proof.
  split; [|split; [reflexivity|split; [|reflexivity]]].
  - split.
    + intros [[] <-]; simpl; auto 6.
    + intros [<-|[<-|[<-|[<-|[<-|[]]]]]].
      * now exists ApprovalModal.safe.
      * now exists ApprovalModal.low.
      * now exists ApprovalModal.medium.
      * now exists ApprovalModal.high.
      * now exists ApprovalModal.critical.
  - split.
    + intros [[] <-]; simpl; auto 6.
    + intros [<-|[<-|[<-|[<-|[]]]]].
      * now exists Types.low.
      * now exists Types.medium.
      * now exists Types.high.
      * now exists Types.critical.
Qed.

(** Each declaration has the listed properties and no other: an analysis is
    determined by them. *)
Lemma modal_analysis_ext (a b : ApprovalModal.CommandAnalysis) :
  ApprovalModal.risk_level a = ApprovalModal.risk_level b ->
  ApprovalModal.risk_score a = ApprovalModal.risk_score b ->
  ApprovalModal.category a = ApprovalModal.category b ->
  ApprovalModal.actions a = ApprovalModal.actions b ->
  ApprovalModal.affected_paths a = ApprovalModal.affected_paths b ->
  ApprovalModal.reversible a = ApprovalModal.reversible b ->
  ApprovalModal.requires_sudo a = ApprovalModal.requires_sudo b ->
  ApprovalModal.warnings a = ApprovalModal.warnings b ->
  ApprovalModal.recommendations a = ApprovalModal.recommendations b ->
  a = b.
Proof. destruct a, b; simpl; intros; subst; reflexivity. Qed.

Lemma shared_analysis_ext (a b : Types.CommandAnalysis) :
  Types.command a = Types.command b ->
  is_risky a = is_risky b ->
  Types.risk_level a = Types.risk_level b ->
  reason a = reason b ->
  Types.affected_paths a = Types.affected_paths b ->
  requires_confirmation a = requires_confirmation b ->
  backup_recommended a = backup_recommended b ->
  a = b.
Proof. destruct a, b; simpl; intros; subst; reflexivity. Qed.

(** C8, as stated, fails on the shared declaration: "safe" is no member of
    its [RiskLevel], and it has no [risk_score] nor [reversible] property. *)
Lemma shared_risk_level_has_no_safe :
  ~ (exists r, Types.RiskLevel_literal r = js "safe") /\
  ~ In "risk_score"%string Types.CommandAnalysis_properties /\
  ~ In "reversible"%string Types.CommandAnalysis_properties.
Proof.
  split; [|split].
  - intros [[] H]; discriminate.
  - simpl. intuition discriminate.
  - simpl. intuition discriminate.
Qed.

(* ================================================================== *)
(** * Further properties of the code around the gate *)
(* ================================================================== *)

(** ** The stored navigation settings *)

Section NavigationProperties.

Import Navigation.

Variable num : Type.
Variable num_truthy : num -> bool.

Abbreviation json := (Navigation.json num).
Abbreviation DEFAULT := DEFAULT_NAVIGATION_ORDER.

Lemma includes_In (l : list jsstring) (x : jsstring) :
  includes l x = true <-> In x l.
Proof.
  unfold includes. rewrite existsb_exists. split.
  - intros (y & Hy & E). apply streq_true in E. now subst.
  - intros H. exists x. split; [exact H | apply streq_refl].
Qed.

Lemma includes_false (l : list jsstring) (x : jsstring) :
  includes l x = false <-> ~ In x l.
Proof.
  rewrite <- includes_In. destruct (includes l x); split; congruence.
Qed.

Lemma DEFAULT_NoDup : NoDup DEFAULT.
Proof.
  unfold DEFAULT_NAVIGATION_ORDER.
  repeat (constructor; [simpl; intuition discriminate|]). constructor.
Qed.

Lemma known_ids_default (items : list json) (id : jsstring) :
  In id (known_ids items) -> In id DEFAULT.
Proof.
  unfold known_ids. rewrite in_flat_map. intros (v & _ & H).
  destruct v as [ | | |s| | ]; try contradiction.
  destruct (includes DEFAULT s) eqn:E; [|contradiction].
  destruct H as [<-|[]]. now apply includes_In.
Qed.

Lemma filtered_ids_default (input : json) (id : jsstring) :
  In id (filtered_ids input) -> In id DEFAULT.
Proof.
  destruct input; simpl; try contradiction. apply known_ids_default.
Qed.

Lemma known_ids_strings (l : list jsstring) :
  known_ids (num:=num) (map (@JString num) l) = filter (includes DEFAULT) l.
Proof.
  unfold known_ids.
  induction l as [|x l IH]; [reflexivity|].
  cbn [map flat_map filter]. rewrite IH.
  destruct (includes DEFAULT x); reflexivity.
Qed.

Lemma filter_all {A} (f : A -> bool) (l : list A) :
  (forall x, In x l -> f x = true) -> filter f l = l.
Proof.
  induction l as [|x l IH]; intros H; simpl; [reflexivity|].
  rewrite (H x (or_introl eq_refl)), IH; [reflexivity|].
  intros y Hy. apply H. now right.
Qed.

Lemma filter_none {A} (f : A -> bool) (l : list A) :
  (forall x, In x l -> f x = false) -> filter f l = [].
Proof.
  induction l as [|x l IH]; intros H; simpl; [reflexivity|].
  rewrite (H x (or_introl eq_refl)). apply IH.
  intros y Hy. apply H. now right.
Qed.

(** X1.  Whatever value was stored, the sanitised order lists section ids
    only and lists every section: none can be lost from the navigation. *)
Theorem sanitizeOrderInput_complete (input : json) (id : jsstring) :
  In id (sanitizeOrderInput input) <-> In id DEFAULT.
Proof.
  unfold sanitizeOrderInput. cbv zeta. rewrite in_app_iff, filter_In. split.
  - intros [H|[H _]]; [now apply filtered_ids_default in H | exact H].
  - intros H. destruct (includes (filtered_ids input) id) eqn:E.
    + left. now apply includes_In.
    + right. split; [exact H | reflexivity].
Qed.

Lemma count_missing (l : list jsstring) (id : jsstring) (d : list jsstring) :
  NoDup d -> In id d ->
  count_occ jsstring_dec (filter (fun x => negb (includes l x)) d) id =
  if includes l id then 0 else 1.
Proof.
  intros Hd. induction Hd as [|x d Hx Hd IH]; intros Hin; [contradiction|].
  simpl. destruct Hin as [->|Hin].
  - assert (Z0 : count_occ jsstring_dec
                   (filter (fun x => negb (includes l x)) d) id = 0).
    { apply count_occ_not_In. intros H. apply filter_In in H. tauto. }
    destruct (includes l id); simpl; [exact Z0|].
    destruct (jsstring_dec id id); [|congruence]. now rewrite Z0.
  - assert (x <> id) by (intros ->; contradiction).
    destruct (includes l x); simpl; [now apply IH|].
    destruct (jsstring_dec x id); [contradiction|now apply IH].
Qed.

(** X2.  Sanitising keeps the stored ids as they are, repetitions
    included: a section stored [n] times is listed [n] times, and a section
    that was not stored is added once. *)
Theorem sanitizeOrderInput_count (input : json) (id : jsstring) :
  In id DEFAULT ->
  count_occ jsstring_dec (sanitizeOrderInput input) id =
  Nat.max 1 (count_occ jsstring_dec (filtered_ids input) id).
Proof.
  intros H. unfold sanitizeOrderInput. cbv zeta.
  rewrite count_occ_app, (count_missing _ id DEFAULT DEFAULT_NoDup H).
  destruct (includes (filtered_ids input) id) eqn:E.
  - apply includes_In in E.
    apply (count_occ_In jsstring_dec) in E. lia.
  - apply includes_false in E.
    apply (count_occ_not_In jsstring_dec) in E. lia.
Qed.

(** X3.  When no section id is stored twice, the sanitised order is a
    rearrangement of the six sections. *)
Theorem sanitizeOrderInput_permutation (input : json) :
  NoDup (filtered_ids input) ->
  Permutation (sanitizeOrderInput input) DEFAULT.
Proof.
  intros H. apply NoDup_Permutation.
  - unfold sanitizeOrderInput. cbv zeta. apply NoDup_app.
    + exact H.
    + apply NoDup_filter, DEFAULT_NoDup.
    + intros a Ha Hb. apply filter_In in Hb. destruct Hb as [_ Hb].
      apply includes_In in Ha. rewrite Ha in Hb. discriminate.
  - apply DEFAULT_NoDup.
  - intros id. apply sanitizeOrderInput_complete.
Qed.

(** X4.  Sanitising is idempotent: an order that went through
    [sanitizeOrderInput], stored as a JSON array of strings and sanitised
    again, comes back unchanged. *)
Theorem sanitizeOrderInput_idempotent (input : json) :
  sanitizeOrderInput (order_json num (sanitizeOrderInput input)) =
  sanitizeOrderInput input.
Proof.
  set (out := sanitizeOrderInput input).
  unfold sanitizeOrderInput at 1. cbv zeta. unfold order_json, filtered_ids.
  rewrite known_ids_strings.
  rewrite (filter_all (includes DEFAULT) out).
  - rewrite filter_none; [apply app_nil_r|].
    intros x Hx. apply negb_false_iff, includes_In.
    now apply sanitizeOrderInput_complete.
  - intros x Hx. apply includes_In. now apply sanitizeOrderInput_complete in Hx.
Qed.

End NavigationProperties.

Lemma sanitizeOrderInput_count_witness :
  let stored :=
    Navigation.JArray
      [Navigation.JString (js "chat"); Navigation.JString (js "chat");
       Navigation.JNumber 7%Z; Navigation.JString (js "logs")] in
  count_occ jsstring_dec (Navigation.sanitizeOrderInput stored) (js "chat") = 2.
Proof.
  cbv zeta. rewrite sanitizeOrderInput_count.
  - reflexivity.
  - simpl. tauto.
Defined.

Lemma sanitizeOrderInput_permutation_witness :
  Permutation
    (Navigation.sanitizeOrderInput (num:=Z)
       (Navigation.JArray
          [Navigation.JString (js "files"); Navigation.JBool true;
           Navigation.JString (js "terminal")]))
    Navigation.DEFAULT_NAVIGATION_ORDER.
Proof.
  apply sanitizeOrderInput_permutation.
  simpl. repeat (constructor; [simpl; intuition discriminate|]). constructor.
Defined.

Section NavigationConfig.

Import Navigation.

Variable num : Type.
Variable num_truthy : num -> bool.

Abbreviation json := (Navigation.json num).
Abbreviation DEFAULT := DEFAULT_NAVIGATION_ORDER.

Lemma get_assign (k : jsstring) (v : bool) (obj : config) (k2 : jsstring) :
  get k2 (assign k v obj) = if streq k k2 then Some v else get k2 obj.
Proof.
  induction obj as [|[k0 v0] rest IH]; simpl; [reflexivity|].
  destruct (streq k0 k) eqn:E; simpl.
  - apply streq_true in E. subst k0. destruct (streq k k2); reflexivity.
  - rewrite IH. destruct (streq k0 k2) eqn:E2; [|reflexivity].
    apply streq_true in E2. subst k0.
    destruct (streq k k2) eqn:E3; [|reflexivity].
    apply streq_true in E3. subst k. rewrite streq_refl in E. discriminate.
Qed.

Lemma keys_assign (k : jsstring) (v : bool) (obj : config) :
  In k (map fst obj) -> map fst (assign k v obj) = map fst obj.
Proof.
  induction obj as [|[k0 v0] rest IH]; simpl; [contradiction|].
  intros H. destruct (streq k0 k) eqn:E; simpl; [reflexivity|].
  f_equal. apply IH. destruct H as [H|H]; [|exact H].
  apply streq_false in E. contradiction.
Qed.

Let visit (defaults : config) (entry : jsstring * json) : config :=
  if includes DEFAULT (fst entry)
  then assign (fst entry) (Boolean num_truthy (snd entry)) defaults
  else defaults.

Lemma visit_keys (es : list (jsstring * json)) (acc : config) :
  map fst acc = DEFAULT -> map fst (fold_left visit es acc) = DEFAULT.
Proof.
  revert acc. induction es as [|e es IH]; intros acc H; simpl; [exact H|].
  apply IH. unfold visit. destruct (includes DEFAULT (fst e)) eqn:E; [|exact H].
  rewrite keys_assign; [exact H|]. rewrite H. now apply includes_In.
Qed.

Lemma find_snoc {A} (p : A -> bool) (l : list A) (x : A) :
  find p (l ++ [x]) =
  match find p l with
  | Some y => Some y
  | None => if p x then Some x else None
  end.
Proof.
  induction l as [|y l IH]; simpl; [reflexivity|].
  destruct (p y); [reflexivity | exact IH].
Qed.

Lemma visit_get (id : jsstring) (es : list (jsstring * json)) (acc : config) :
  In id DEFAULT ->
  get id (fold_left visit es acc) =
  match last_entry id es with
  | Some e => Some (Boolean num_truthy (snd e))
  | None => get id acc
  end.
Proof.
  intros Hid. revert acc. unfold last_entry.
  induction es as [|e es IH]; intros acc; simpl; [reflexivity|].
  rewrite IH, find_snoc.
  destruct (find (fun e0 => streq (fst e0) id) (rev es)); [reflexivity|].
  unfold visit. destruct (streq (fst e) id) eqn:E.
  - apply streq_true in E. rewrite E.
    rewrite (proj2 (includes_In DEFAULT id) Hid), get_assign, streq_refl.
    reflexivity.
  - destruct (includes DEFAULT (fst e)); [|reflexivity].
    now rewrite get_assign, E.
Qed.

(** X5.  Whatever value was stored, the sanitised visibility config has
    exactly the six section ids as its keys, in the default order: unknown
    keys are dropped and no section is left without a setting. *)
Theorem sanitizeConfigInput_keys (input : json) :
  map fst (sanitizeConfigInput num_truthy input) = DEFAULT.
Proof.
  unfold sanitizeConfigInput. apply (visit_keys (Object_entries input)).
  reflexivity.
Qed.

(** X6.  A section's setting is the truthiness of the value stored under
    its id (the last one, should the entries repeat the id), and [true] when
    nothing is stored for it: a section is hidden only by a falsy stored
    value. *)
Theorem sanitizeConfigInput_value (input : json) (id : jsstring) :
  In id DEFAULT ->
  get id (sanitizeConfigInput num_truthy input) =
  Some match last_entry id (Object_entries input) with
       | Some e => Boolean num_truthy (snd e)
       | None => true
       end.
Proof.
  intros Hid. unfold sanitizeConfigInput.
  rewrite (visit_get id (Object_entries input) _ Hid).
  destruct (last_entry id (Object_entries input)); [reflexivity|].
  unfold DEFAULT_NAVIGATION_ORDER in Hid. simpl in Hid.
  repeat destruct Hid as [<-|Hid]; try reflexivity. contradiction.
Qed.

(** X7.  Sanitising a config is idempotent: written back as a JSON object
    of booleans and sanitised again, it is unchanged. *)
Theorem sanitizeConfigInput_idempotent (input : json) :
  sanitizeConfigInput num_truthy
    (config_json num (sanitizeConfigInput num_truthy input)) =
  sanitizeConfigInput num_truthy input.
Proof.
  pose proof (sanitizeConfigInput_keys input) as K.
  destruct (sanitizeConfigInput num_truthy input)
    as [|[k1 b1] [|[k2 b2] [|[k3 b3] [|[k4 b4] [|[k5 b5] [|[k6 b6] [|x r]]]]]]];
    try discriminate K.
  injection K as -> -> -> -> -> ->. reflexivity.
Qed.

(** X8.  The App always starts with a full navigation.  Whatever the
    browser does (no [window], a storage that throws, nothing stored, text
    that is not JSON, JSON of any shape), [readStoredNavigationOrder] lists
    exactly the six sections and [readStoredNavigationConfig] has exactly
    their six keys. *)
Theorem stored_navigation_always_complete (b : Browser num) (id : jsstring) :
  (In id (fst (readStoredNavigationOrder b)) <-> In id DEFAULT) /\
  map fst (fst (readStoredNavigationConfig num_truthy b)) = DEFAULT.
Proof.
  split.
  - unfold readStoredNavigationOrder.
    destruct (storage b) as [getItem|]; [|reflexivity].
    destruct (getItem NAV_ORDER_STORAGE_KEY) as [[raw|]|m]; try reflexivity.
    destruct (truthy raw); simpl; [|reflexivity].
    destruct (parse b raw) as [parsed|]; [|reflexivity].
    apply sanitizeOrderInput_complete.
  - unfold readStoredNavigationConfig.
    destruct (storage b) as [getItem|]; [|reflexivity].
    destruct (getItem NAV_CONFIG_STORAGE_KEY) as [[raw|]|m]; try reflexivity.
    destruct (truthy raw); simpl; [|reflexivity].
    destruct (parse b raw) as [parsed|]; [|reflexivity].
    destruct parsed; try reflexivity; apply sanitizeConfigInput_keys.
Qed.

End NavigationConfig.

Lemma sanitizeConfigInput_value_witness :
  let stored :=
    Navigation.JObject
      [(js "chat", Navigation.JNumber 0%Z); (js "logs", Navigation.JBool true);
       (js "chat", Navigation.JString (js "no"))] in
  Navigation.get (js "chat")
    (Navigation.sanitizeConfigInput (fun z => negb (z =? 0)%Z) stored) = Some true /\
  Navigation.get (js "files")
    (Navigation.sanitizeConfigInput (fun z => negb (z =? 0)%Z) stored) = Some true.
Proof.
  cbv zeta. split.
  - rewrite sanitizeConfigInput_value; [reflexivity | simpl; tauto].
  - rewrite sanitizeConfigInput_value; [reflexivity | simpl; tauto].
Defined.

(** ** Recalling commands with the arrow keys *)

Lemma begin_historyIndex (c : jsstring) (b : bool) (s : State) :
  historyIndex (st (handleCommand_begin c b s)) =
  if blank c then historyIndex s else (-1)%Z.
Proof. case_begin c b. Qed.

Lemma begin_input (c : jsstring) (b : bool) (s : State) :
  input (st (handleCommand_begin c b s)) = input s.
Proof. case_begin c b. Qed.

(** A continuation only touches the lines, the directory, the dialog and
    [isExecuting]. *)
Lemma settle_keeps {B} (w : Api.World CommandAnalysis) (proj : State -> B) :
  (forall f s, proj (setLines f s) = proj s) ->
  (forall v s, proj (setIsExecuting v s) = proj s) ->
  (forall v s, proj (setCurrentDir v s) = proj s) ->
  (forall v s, proj (setConfirmDialog v s) = proj s) ->
  forall p s, proj (st (settle w p s)) = proj s.
Proof.
  intros HL HE HD HC [path|c|c b] s.
  - unfold settle, bind, after_changeDirectory. simpl.
    destruct (Api.cd_endpoint w path); simpl; unfold bind; simpl.
    + now rewrite HL, HD.
    + now rewrite HL.
  - unfold settle, after_analyze.
    destruct (Api.analyze_endpoint w c) as [a|m];
      [destruct (requires_confirmation a)|]; simpl; unfold bind; simpl;
      rewrite ?HC, ?HE; reflexivity.
  - change (proj (st (finish_execute w c b s)) = proj s).
    now apply finish_execute_keeps.
Qed.

Lemma begin_in_range (c : jsstring) (b : bool) (s : State) :
  index_in_range s -> index_in_range (st (handleCommand_begin c b s)).
Proof.
  unfold index_in_range. rewrite begin_history, begin_historyIndex.
  destruct (blank c); [tauto|]. intros _. left.
  rewrite length_app. simpl. lia.
Qed.

Lemma handleKeyDown_in_range (k : Key) (sh : bool) (s : State) :
  index_in_range s -> index_in_range (st (handleKeyDown k sh s)).
Proof.
  intros H. destruct k; simpl.
  - destruct sh; simpl; [exact H|]. unfold bind. simpl.
    apply (begin_in_range (input s) false s) in H.
    unfold index_in_range in *. exact H.
  - unfold bind. simpl.
    destruct (0 <? Z.of_nat (List.length (history s)))%Z eqn:L; simpl; [|exact H].
    unfold index_in_range in *. simpl.
    destruct (historyIndex s <? Z.of_nat (List.length (history s)) - 1)%Z eqn:L2.
    + apply Z.ltb_lt in L2. lia.
    + apply Z.ltb_ge in L2. apply Z.ltb_lt in L. left.
      destruct H as [H|[H1 H2]]; [lia|]. rewrite H2 in L. simpl in L. lia.
  - unfold bind. simpl.
    destruct (0 <? historyIndex s)%Z eqn:L; simpl.
    + apply Z.ltb_lt in L. unfold index_in_range in *. simpl. lia.
    + destruct (historyIndex s =? 0)%Z eqn:L2; simpl; [|exact H].
      apply Z.eqb_eq in L2. unfold index_in_range in *. simpl. left. lia.
  - destruct sh; exact H.
Qed.

Lemma fire_in_range (w : Api.World CommandAnalysis) (r : Running) (e : Event) :
  index_in_range (term r) -> index_in_range (term (fst (fire w r e))).
Proof.
  intros H. destruct e as [text|k sh| | | |n]; simpl; try exact H.
  - now apply handleKeyDown_in_range.
  - unfold handleSend, bind. simpl.
    apply (begin_in_range (input (term r)) false) in H. exact H.
  - unfold handleConfirmExecution, bind. simpl.
    apply (begin_in_range (dialog_command (confirmDialog (term r))) true
             (setConfirmDialog closedDialog (term r))).
    exact H.
  - destruct (nth_error (pool r) n) as [p|]; simpl; [|exact H].
    unfold index_in_range.
    rewrite (settle_keeps w history) by reflexivity.
    rewrite (settle_keeps w historyIndex) by reflexivity. exact H.
Qed.

Lemma run_in_range (w : Api.World CommandAnalysis) (es : list Event) (r : Running) :
  index_in_range (term r) -> index_in_range (term (fst (run w r es))).
Proof.
  revert r. induction es as [|e rest IH]; intros r H; simpl; [exact H|].
  destruct (step w r e) as [r1 calls] eqn:E1.
  specialize (IH r1).
  destruct (run w r1 rest) as [r2 tr] eqn:E2. simpl in *.
  apply IH. unfold step in E1. destruct (enabled r e).
  - pose proof (fire_in_range w r e H) as F. rewrite E1 in F. exact F.
  - injection E1 as <- _. exact H.
Qed.

(** X9.  The history cursor never leaves the history.  In every state the
    component reaches, [historyIndex] is -1 (nothing recalled) or the index
    of an entry of [history], so the arrow keys always recall a stored
    command and never read outside the list. *)
Theorem history_index_in_range
    (w : Api.World CommandAnalysis) (es : list Event) :
  let s := term (fst (run w mounted es)) in
  (-1 <= historyIndex s)%Z /\
  (historyIndex s < Z.max 0 (Z.of_nat (List.length (history s))))%Z.
Proof.
  cbv zeta.
  assert (H : index_in_range (term (fst (run w mounted es)))).
  { apply run_in_range. right. split; reflexivity. }
  destruct H as [H|[H1 H2]]; [lia|]. rewrite H1, H2. simpl. lia.
Qed.

Lemma arrowUp_step (s : State) :
  history s <> [] -> (-1 <= historyIndex s)%Z ->
  let len := Z.of_nat (List.length (history s)) in
  let i := (if historyIndex s <? len - 1 then historyIndex s + 1
            else historyIndex s)%Z in
  history (arrowUp s) = history s /\
  historyIndex (arrowUp s) = i /\
  input (arrowUp s) = at_index (history s) (len - 1 - i).
Proof.
  intros Hh Hi. cbv zeta. unfold arrowUp, handleKeyDown, bind. simpl.
  assert (L : (0 <? Z.of_nat (List.length (history s)))%Z = true).
  { apply Z.ltb_lt. destruct (history s); [congruence | simpl; lia]. }
  rewrite L. simpl. auto.
Qed.

Lemma at_index_rev (h : list jsstring) (k : nat) :
  k < List.length h ->
  at_index h (Z.of_nat (List.length h) - 1 - Z.of_nat k) = nth k (rev h) [].
Proof.
  intros H. unfold at_index.
  destruct (Z.of_nat (List.length h) - 1 - Z.of_nat k <? 0)%Z eqn:E.
  - apply Z.ltb_lt in E. lia.
  - rewrite rev_nth by exact H. f_equal. lia.
Qed.

Lemma arrowUp_iter (s : State) (n : nat) :
  historyIndex s = (-1)%Z -> history s <> [] ->
  let s' := Nat.iter (S n) arrowUp s in
  let k := Nat.min n (List.length (history s) - 1) in
  history s' = history s /\
  historyIndex s' = Z.of_nat k /\
  input s' = nth k (rev (history s)) [].
Proof.
  intros Hi Hh. cbv zeta.
  assert (Hlen : 0 < List.length (history s))
    by (destruct (history s); [congruence | simpl; lia]).
  induction n as [|n IH].
  - simpl Nat.iter. destruct (arrowUp_step s Hh) as (H1 & H2 & H3); [lia|].
    rewrite H1, H2, H3, Hi.
    destruct (-1 <? Z.of_nat (List.length (history s)) - 1)%Z eqn:E;
      [|apply Z.ltb_ge in E; lia].
    split; [reflexivity|]. split; [reflexivity|].
    change (Nat.min 0 (List.length (history s) - 1)) with 0.
    rewrite <- (at_index_rev (history s) 0 Hlen). reflexivity.
  - destruct IH as (I1 & I2 & I3).
    set (t := Nat.iter (S n) arrowUp s) in *.
    change (Nat.iter (S (S n)) arrowUp s) with (arrowUp t).
    destruct (arrowUp_step t) as (H1 & H2 & H3); [congruence | lia |].
    rewrite H1, H2, H3, I1, I2.
    destruct (Z.of_nat (Nat.min n (List.length (history s) - 1))
              <? Z.of_nat (List.length (history s)) - 1)%Z eqn:E.
    + apply Z.ltb_lt in E.
      assert (K : Nat.min (S n) (List.length (history s) - 1) =
                  S (Nat.min n (List.length (history s) - 1))) by lia.
      rewrite K. split; [reflexivity|]. split; [lia|].
      rewrite <- at_index_rev by lia. f_equal. lia.
    + apply Z.ltb_ge in E.
      assert (K : Nat.min (S n) (List.length (history s) - 1) =
                  Nat.min n (List.length (history s) - 1)) by lia.
      rewrite K. split; [reflexivity|]. split; [reflexivity|].
      rewrite <- at_index_rev by lia. reflexivity.
Qed.

(** X10.  With nothing recalled yet, pressing ArrowUp [n+1] times puts the
    [n]-th most recent command in the input field; once the oldest command
    is reached, further presses stay on it. *)
Theorem arrow_up_walks_history (s : State) (n : nat) :
  historyIndex s = (-1)%Z -> history s <> [] ->
  input (Nat.iter (S n) arrowUp s) =
  nth (Nat.min n (List.length (history s) - 1)) (rev (history s)) [].
Proof.
  intros Hi Hh. exact (proj2 (proj2 (arrowUp_iter s n Hi Hh))).
Qed.

Lemma arrow_up_walks_history_witness :
  let s := setHistory (fun _ => [js "ls"; js "pwd"; js "make"]) initial in
  input (Nat.iter 2 arrowUp s) = js "pwd" /\
  input (Nat.iter 5 arrowUp s) = js "ls".
Proof.
  cbv zeta. split.
  - rewrite (arrow_up_walks_history
               (setHistory (fun _ => [js "ls"; js "pwd"; js "make"]) initial) 1);
      [reflexivity | reflexivity | discriminate].
  - rewrite (arrow_up_walks_history
               (setHistory (fun _ => [js "ls"; js "pwd"; js "make"]) initial) 4);
      [reflexivity | reflexivity | discriminate].
Defined.

(** X11.  A command that was just submitted is the first one ArrowUp
    recalls: after [handleCommand(command)] with a command that is not
    blank, one press of ArrowUp puts [command] back in the input field. *)
Theorem submitted_command_is_recalled (c : jsstring) (b : bool) (s : State) :
  blank c = false ->
  input (arrowUp (st (handleCommand_begin c b s))) = c.
Proof.
  intros B.
  pose proof (begin_history c b s) as Hh. rewrite B in Hh.
  pose proof (begin_historyIndex c b s) as Hi. rewrite B in Hi.
  destruct (arrowUp_iter (st (handleCommand_begin c b s)) 0 Hi) as (_ & _ & H).
  { rewrite Hh. destruct (filter _ (history s)); discriminate. }
  simpl Nat.iter in H. rewrite H, Hh, rev_app_distr. reflexivity.
Qed.

Lemma submitted_command_is_recalled_witness :
  input (arrowUp (st (handleCommand_begin (js "git status") false initial)))
  = js "git status".
Proof. apply submitted_command_is_recalled. reflexivity. Defined.

Lemma arrowDown_idle (s : State) (j : nat) :
  historyIndex s = (-1)%Z -> Nat.iter j arrowDown s = s.
Proof.
  intros H. induction j as [|j IH]; [reflexivity|].
  simpl. rewrite IH. unfold arrowDown, handleKeyDown, bind. simpl.
  rewrite H. reflexivity.
Qed.

Lemma arrowDown_iter (k : nat) (s : State) (j : nat) :
  historyIndex s = Z.of_nat k -> k < j ->
  let s' := Nat.iter j arrowDown s in
  historyIndex s' = (-1)%Z /\ input s' = [] /\ history s' = history s.
Proof.
  revert s j. induction k as [|k IH]; intros s j Hi Hj; cbv zeta;
    (destruct j as [|j]; [lia|]); rewrite Nat.iter_succ_r.
  - assert (E : arrowDown s = setInput [] (setHistoryIndex (-1)%Z s)).
    { unfold arrowDown, handleKeyDown, bind. simpl. rewrite Hi. reflexivity. }
    rewrite E, arrowDown_idle by reflexivity. auto.
  - assert (E : historyIndex (arrowDown s) = Z.of_nat k /\
                history (arrowDown s) = history s).
    { unfold arrowDown, handleKeyDown, bind. simpl. rewrite Hi.
      destruct (0 <? Z.of_nat (S k))%Z eqn:L; [|apply Z.ltb_ge in L; lia].
      split; [|reflexivity].
      change (Z.of_nat (S k) - 1 = Z.of_nat k)%Z. lia. }
    destruct E as [E1 E2].
    destruct (IH (arrowDown s) j E1) as (H1 & H2 & H3); [lia|].
    rewrite H1, H2, H3, E2. auto.
Qed.

(** X12.  Walking back down leaves an empty input.  After [n+1] presses of
    ArrowUp, [n+1] presses of ArrowDown bring the cursor back to "nothing
    recalled" with the input field empty, whatever had been typed there
    before: the draft is not restored. *)
Theorem arrow_down_returns_to_empty_input (s : State) (n : nat) :
  historyIndex s = (-1)%Z -> history s <> [] ->
  let s' := Nat.iter (S n) arrowDown (Nat.iter (S n) arrowUp s) in
  historyIndex s' = (-1)%Z /\ input s' = [] /\ history s' = history s.
Proof.
  intros Hi Hh. cbv zeta.
  destruct (arrowUp_iter s n Hi Hh) as (U1 & U2 & _).
  destruct (arrowDown_iter (Nat.min n (List.length (history s) - 1))
              (Nat.iter (S n) arrowUp s) (S n) U2) as (D1 & D2 & D3); [lia|].
  rewrite D1, D2, D3, U1. auto.
Qed.

Lemma arrow_down_returns_to_empty_input_witness :
  let s := setInput (js "draft")
             (setHistory (fun _ => [js "ls"; js "pwd"]) initial) in
  input (Nat.iter 2 arrowDown (Nat.iter 2 arrowUp s)) = [].
Proof.
  cbv zeta.
  destruct (arrow_down_returns_to_empty_input
              (setInput (js "draft")
                 (setHistory (fun _ => [js "ls"; js "pwd"]) initial)) 1)
    as (_ & H & _); [reflexivity | discriminate | exact H].
Defined.

(** ** The [cd] built-in and the current directory *)

Lemma trim_last (s l : jsstring) (c : N) :
  trim s = l ++ [c] -> isWhiteSpace c = false.
Proof.
  unfold trim, trimEnd. intros H.
  apply (f_equal (@rev N)) in H. rewrite rev_involutive, rev_app_distr in H.
  simpl in H. exact (trimStart_head _ _ _ H).
Qed.

Lemma blank_last (m : jsstring) (d : N) :
  m <> [] -> blank m = true -> isWhiteSpace (last m d) = true.
Proof.
  induction m as [|a m IH]; intros Hm Hb; [congruence|].
  simpl in Hb. apply andb_true_iff in Hb. destruct Hb as [Ha Hb].
  destruct m as [|a' m']; [exact Ha|].
  change (isWhiteSpace (last (a' :: m') d) = true). apply IH; [discriminate|exact Hb].
Qed.

Lemma startsWith_app (p s : jsstring) :
  startsWith s p = true -> exists r, s = p ++ r.
Proof.
  revert s. induction p as [|x p IH]; intros s H.
  - now exists s.
  - destruct s as [|y s]; [discriminate|]. simpl in H.
    apply andb_true_iff in H. destruct H as [E H].
    apply N.eqb_eq in E. subst y.
    destruct (IH s H) as [r ->]. now exists r.
Qed.

(** The argument of a [cd] command is never empty once trimmed. *)
Lemma cd_argument (c : jsstring) :
  startsWith (trim c) (js "cd ") = true ->
  truthy (trim (slice 3 (trim c))) = true /\
  streq (trim c) (js "clear") || streq (trim c) (js "cls") = false /\
  blank c = false.
Proof.
  intros H. destruct (startsWith_app _ _ H) as [rest E].
  assert (B : blank c = false).
  { destruct (blank c) eqn:B; [|reflexivity].
    apply trim_nil_blank in B. rewrite B in E. discriminate. }
  split; [|split; [|exact B]].
  - rewrite E. change (slice 3 (js "cd " ++ rest)) with rest.
    rewrite truthy_trim. destruct (blank rest) eqn:R; [exfalso|reflexivity].
    assert (Hne : trim c <> []) by (rewrite E; discriminate).
    destruct (exists_last Hne) as (l & x & Hl).
    pose proof (trim_last c l x Hl) as Hx.
    assert (Hw : isWhiteSpace (last (trim c) 0%N) = true).
    { rewrite E.
      change (isWhiteSpace (last (32%N :: rest) 0%N) = true).
      apply blank_last; [discriminate|]. simpl. exact R. }
    rewrite Hl, last_last in Hw. congruence.
  - rewrite E. apply orb_false_iff. split; apply streq_false; discriminate.
Qed.

(** X13.  The [cd] built-in never asks the back end for an empty path: a
    command whose trimmed text begins with "cd " sends exactly one
    change-directory request, and its path, the rest of the text trimmed, is
    not empty. *)
Theorem cd_never_sends_empty_path (c : jsstring) (b : bool) (s : State) :
  startsWith (trim c) (js "cd ") = true ->
  exists path,
    log (handleCommand_begin c b s) = [POST_cd path] /\
    val (handleCommand_begin c b s) = Some (AwaitChangeDirectory path) /\
    path <> [].
Proof.
  intros H. destruct (cd_argument c H) as (Hp & Hc & B).
  exists (trim (slice 3 (trim c))).
  rewrite begin_log, begin_val, B, Hc, H.
  split; [reflexivity|]. split; [reflexivity|].
  intros E. rewrite E in Hp. discriminate.
Qed.

Lemma cd_never_sends_empty_path_witness :
  exists path,
    log (handleCommand_begin (js "  cd   /var/log  ") false initial)
      = [POST_cd path] /\
    val (handleCommand_begin (js "  cd   /var/log  ") false initial)
      = Some (AwaitChangeDirectory path) /\
    path <> [].
Proof.
  apply (cd_never_sends_empty_path (js "  cd   /var/log  ") false initial).
  reflexivity.
Defined.

Lemma begin_currentDir (c : jsstring) (b : bool) (s : State) :
  currentDir (st (handleCommand_begin c b s)) = currentDir s.
Proof. case_begin c b. Qed.

Lemma handleKeyDown_currentDir (k : Key) (sh : bool) (s : State) :
  currentDir (st (handleKeyDown k sh s)) = currentDir s.
Proof.
  destruct k; simpl.
  - destruct sh; simpl; [reflexivity|]. unfold bind. simpl. apply begin_currentDir.
  - unfold bind. simpl.
    destruct (0 <? Z.of_nat (List.length (history s)))%Z; reflexivity.
  - unfold bind. simpl.
    destruct (0 <? historyIndex s)%Z; [reflexivity|].
    destruct (historyIndex s =? 0)%Z; reflexivity.
  - destruct sh; reflexivity.
Qed.

Lemma fire_currentDir (w : Api.World CommandAnalysis) (r : Running) (e : Event) :
  currentDir (term (fst (fire w r e))) =
    match e with
    | Settle n =>
        match nth_error (pool r) n with
        | Some (AwaitChangeDirectory path) =>
            match Api.cd_endpoint w path with
            | Ok p => p
            | Throw _ => currentDir (term r)
            end
        | _ => currentDir (term r)
        end
    | _ => currentDir (term r)
    end.
Proof.
  destruct e as [text|k sh| | | |n]; simpl; try reflexivity.
  - apply handleKeyDown_currentDir.
  - unfold handleSend, bind. simpl. apply begin_currentDir.
  - unfold handleConfirmExecution, bind. simpl. now rewrite begin_currentDir.
  - destruct (nth_error (pool r) n) as [[path|c|c b]|]; simpl; [| | |reflexivity].
    + unfold bind, after_changeDirectory. simpl.
      destruct (Api.cd_endpoint w path); reflexivity.
    + unfold after_analyze.
      destruct (Api.analyze_endpoint w c) as [a|m];
        [destruct (requires_confirmation a)|]; reflexivity.
    + change (currentDir (st (finish_execute w c b (term r))) = currentDir (term r)).
      now apply finish_execute_keeps.
Qed.

Lemma step_currentDir (w : Api.World CommandAnalysis) (r : Running) (e : Event) :
  currentDir (term (fst (step w r e))) = currentDir (term (fst (fire w r e))).
Proof.
  unfold step. destruct (enabled r e) eqn:E; [reflexivity|].
  rewrite fire_currentDir. destruct e as [text|k sh| | | |n]; try reflexivity.
  simpl in E. destruct (nth_error (pool r) n); [discriminate | reflexivity].
Qed.

(** X14.  The current directory is written in two places only.  Over one
    turn of the event loop of the mounted component [currentDir] keeps its
    value, except that the answer to the mount effect's
    [getCurrentDirectory()] sets it to the returned path, or to "(offline)"
    when the request fails, and that the answer to a change-directory
    request sets it to the returned path; a failed [cd] leaves it alone. *)
Theorem current_directory_set_by_mount_or_cd
    (w : Api.World CommandAnalysis) (pwd : Result jsstring)
    (k : Mount.Component) (t : Mount.Turn) :
  currentDir (term (Mount.running (fst (Mount.turn w pwd k t)))) =
    match t with
    | Mount.DirectoryLoaded =>
        if Mount.loading k then
          match pwd with Ok path => path | Throw _ => js "(offline)" end
        else currentDir (term (Mount.running k))
    | Mount.Ui (Settle n) =>
        match nth_error (pool (Mount.running k)) n with
        | Some (AwaitChangeDirectory path) =>
            match Api.cd_endpoint w path with
            | Ok p => p
            | Throw _ => currentDir (term (Mount.running k))
            end
        | _ => currentDir (term (Mount.running k))
        end
    | Mount.Ui _ => currentDir (term (Mount.running k))
    end.
Proof.
  destruct t as [e|].
  - unfold Mount.turn.
    pose proof (step_currentDir w (Mount.running k) e) as H.
    rewrite fire_currentDir in H.
    destruct (step w (Mount.running k) e) as [r calls]. simpl in *.
    rewrite H. destruct e; reflexivity.
  - unfold Mount.turn. destruct (Mount.loading k); [|reflexivity].
    destruct pwd as [path|m]; reflexivity.
Qed.

(** The answer of the mount effect can come after a [cd] and replaces the
    directory the [cd] had set. *)
Example mount_answer_overwrites_cd :
  let cd := [Mount.Ui (Change (js "cd /tmp")); Mount.Ui ClickSend;
             Mount.Ui (Settle 0)] in
  let home := Ok (js "/home/user") in
  let k3 := Mount.turns Sample.world home Mount.component_mounted cd in
  let k4 := Mount.turns Sample.world home k3 [Mount.DirectoryLoaded] in
  currentDir (term (Mount.running k3)) = js "/tmp" /\
  currentDir (term (Mount.running k4)) = js "/home/user".
Proof. vm_compute. split; reflexivity. Qed.

(** ** The confirmation dialog *)

Lemma begin_val_analyze (c : jsstring) (b : bool) (s : State) (c' : jsstring) :
  val (handleCommand_begin c b s) = Some (AwaitAnalyze c') ->
  c' = c /\ b = false /\ blank c = false /\ builtin c = false.
Proof.
  rewrite begin_val. unfold builtin. cbv zeta.
  destruct (blank c); [discriminate|].
  destruct (streq (trim c) (js "clear") || streq (trim c) (js "cls"));
    [discriminate|].
  destruct (startsWith (trim c) (js "cd ")); [discriminate|].
  destruct b; [discriminate|]. intros H. injection H as <-. auto.
Qed.

Lemma handleKeyDown_dialog (k : Key) (sh : bool) (s : State) :
  confirmDialog (st (handleKeyDown k sh s)) = confirmDialog s.
Proof.
  destruct k; simpl.
  - destruct sh; simpl; [reflexivity|]. unfold bind. simpl. apply begin_dialog.
  - unfold bind. simpl.
    destruct (0 <? Z.of_nat (List.length (history s)))%Z; reflexivity.
  - unfold bind. simpl.
    destruct (0 <? historyIndex s)%Z; [reflexivity|].
    destruct (historyIndex s =? 0)%Z; reflexivity.
  - destruct sh; reflexivity.
Qed.

Lemma handleKeyDown_val (k : Key) (sh : bool) (s : State) (c : jsstring) :
  val (handleKeyDown k sh s) = Some (AwaitAnalyze c) ->
  blank c = false /\ builtin c = false.
Proof.
  destruct k; simpl.
  - destruct sh; simpl; [discriminate|]. unfold bind. simpl.
    intros H. apply begin_val_analyze in H. destruct H as (-> & _ & H). exact H.
  - unfold bind. simpl.
    destruct (0 <? Z.of_nat (List.length (history s)))%Z; discriminate.
  - unfold bind. simpl.
    destruct (0 <? historyIndex s)%Z; [discriminate|].
    destruct (historyIndex s =? 0)%Z; discriminate.
  - destruct sh; discriminate.
Qed.

Lemma In_remove_nth {A} (n : nat) (l : list A) (x : A) :
  In x (remove_nth n l) -> In x l.
Proof.
  revert n. induction l as [|a l IH]; intros n H; [destruct n; exact H|].
  destruct n as [|n]; simpl in H; [now right|].
  destruct H as [H|H]; [now left | right; exact (IH n H)].
Qed.

Lemma closed_dialog_ok (w : Api.World CommandAnalysis) (s : State) :
  confirmDialog s = closedDialog -> dialog_ok w s.
Proof.
  intros H. unfold dialog_ok. rewrite H. split; [discriminate | reflexivity].
Qed.

Lemma same_dialog_ok (w : Api.World CommandAnalysis) (s s' : State) :
  confirmDialog s' = confirmDialog s -> dialog_ok w s -> dialog_ok w s'.
Proof. unfold dialog_ok. now intros ->. Qed.

Lemma fire_dialog_ok (w : Api.World CommandAnalysis) (r : Running) (e : Event) :
  dialog_ok w (term r) -> pool_ok r ->
  dialog_ok w (term (fst (fire w r e))) /\ pool_ok (fst (fire w r e)).
Proof.
  intros Hd Hp.
  assert (grow : forall (o : Out State (option Pending)),
             confirmDialog (st o) = confirmDialog (term r) \/
             confirmDialog (st o) = closedDialog ->
             (forall c, val o = Some (AwaitAnalyze c) ->
                        blank c = false /\ builtin c = false) ->
             dialog_ok w (st o) /\
             pool_ok {| term := st o; pool := pool r ++ suspend (val o) |}).
  { intros o Hdlg Hval. split.
    - destruct Hdlg as [E|E];
        [exact (same_dialog_ok w _ _ E Hd) | exact (closed_dialog_ok w _ E)].
    - intros c Hc. simpl in Hc. apply in_app_or in Hc.
      destruct Hc as [Hc|Hc]; [exact (Hp c Hc)|].
      destruct (val o) as [p|]; [|contradiction].
      destruct Hc as [->|[]]. now apply Hval. }
  destruct e as [text|k sh| | | |n]; simpl.
  - split; [exact (same_dialog_ok w _ _ eq_refl Hd) | exact Hp].
  - apply grow.
    + left. apply handleKeyDown_dialog.
    + intros c. apply handleKeyDown_val.
  - apply grow.
    + left. unfold handleSend, bind. simpl. apply begin_dialog.
    + intros c H. unfold handleSend, bind in H. simpl in H.
      apply begin_val_analyze in H. destruct H as (-> & _ & H). exact H.
  - apply grow.
    + right. unfold handleConfirmExecution, bind. simpl.
      now rewrite begin_dialog.
    + intros c H. unfold handleConfirmExecution, bind in H. simpl in H.
      apply begin_val_analyze in H. destruct H as (_ & H & _). discriminate.
  - split; [now apply closed_dialog_ok | exact Hp].
  - destruct (nth_error (pool r) n) as [p|] eqn:E; simpl; [|now split].
    apply nth_error_In in E.
    assert (Hrest : forall (v : option Pending) c,
               (forall c', v <> Some (AwaitAnalyze c')) ->
               In (AwaitAnalyze c) (remove_nth n (pool r) ++ suspend v) ->
               blank c = false /\ builtin c = false).
    { intros v c Hv Hc. apply in_app_or in Hc. destruct Hc as [Hc|Hc].
      - apply Hp. exact (In_remove_nth _ _ _ Hc).
      - destruct v as [q|]; [|contradiction]. destruct Hc as [->|[]].
        exfalso. exact (Hv c eq_refl). }
    destruct p as [path|c|c b].
    + split.
      * apply (same_dialog_ok w (term r)); [|exact Hd].
        unfold settle, bind, after_changeDirectory. simpl.
        destruct (Api.cd_endpoint w path); reflexivity.
      * intros c Hc. apply (Hrest None c); [discriminate | exact Hc].
    + destruct (Hp c E) as [B H].
      unfold settle, after_analyze.
      destruct (Api.analyze_endpoint w c) as [a|m] eqn:Ha;
        [destruct (requires_confirmation a) eqn:Hr|]; simpl.
      * split.
        -- unfold dialog_ok. simpl. split; [|discriminate].
           intros _. exists a. auto.
        -- intros c0 Hc. apply (Hrest None c0); [discriminate | exact Hc].
      * split; [exact (same_dialog_ok w _ _ eq_refl Hd)|].
        intros c0 Hc.
        apply (Hrest (Some (AwaitExecute c false)) c0); [discriminate | exact Hc].
      * split; [exact (same_dialog_ok w _ _ eq_refl Hd)|].
        intros c0 Hc.
        apply (Hrest (Some (AwaitExecute c false)) c0); [discriminate | exact Hc].
    + split.
      * apply (same_dialog_ok w (term r)); [|exact Hd].
        change (confirmDialog (st (finish_execute w c b (term r)))
                = confirmDialog (term r)).
        now apply finish_execute_keeps.
      * intros c0 Hc. apply (Hrest None c0); [discriminate | exact Hc].
Qed.

Lemma run_dialog_ok (w : Api.World CommandAnalysis) (es : list Event) (r : Running) :
  dialog_ok w (term r) -> pool_ok r ->
  dialog_ok w (term (fst (run w r es))) /\ pool_ok (fst (run w r es)).
Proof.
  revert r. induction es as [|e rest IH]; intros r Hd Hp; simpl; [now split|].
  destruct (step w r e) as [r1 calls] eqn:E1.
  specialize (IH r1).
  destruct (run w r1 rest) as [r2 tr] eqn:E2. simpl in *.
  unfold step in E1. destruct (enabled r e).
  - destruct (fire_dialog_ok w r e Hd Hp) as [H1 H2]. rewrite E1 in H1, H2.
    now apply IH.
  - injection E1 as <- _. now apply IH.
Qed.

Lemma mounted_dialog_ok (w : Api.World CommandAnalysis) (es : list Event) :
  dialog_ok w (term (fst (run w mounted es))).
Proof.
  apply run_dialog_ok.
  - now apply closed_dialog_ok.
  - intros c [].
Qed.

(** X15.  The confirmation dialog only ever shows a command the analyzer
    flagged.  In every state the component reaches, an open dialog holds a
    command that is neither blank nor a built-in, together with the analysis
    the analyzer gave for that very command, and that analysis asks for
    confirmation; a closed dialog holds no command and no analysis. *)
Theorem dialog_holds_flagged_command
    (w : Api.World CommandAnalysis) (es : list Event) :
  let d := confirmDialog (term (fst (run w mounted es))) in
  (open d = true ->
   exists a,
     dialog_analysis d = Some a /\
     Api.analyze_endpoint w (dialog_command d) = Ok a /\
     requires_confirmation a = true /\
     blank (dialog_command d) = false /\
     builtin (dialog_command d) = false) /\
  (open d = false -> d = closedDialog).
Proof. exact (mounted_dialog_ok w es). Qed.

Lemma dialog_holds_flagged_command_witness :
  let d := confirmDialog
             (term (fst (run Sample.world mounted
                           [Change Sample.rm_project; ClickSend; Settle 0]))) in
  open d = true /\
  Api.analyze_endpoint Sample.world (dialog_command d) = Ok Sample.rm_analysis /\
  dialog_analysis d = Some Sample.rm_analysis.
Proof.
  cbv zeta.
  destruct (dialog_holds_flagged_command Sample.world
              [Change Sample.rm_project; ClickSend; Settle 0]) as [H _].
  destruct (H eq_refl) as (a & H1 & H2 & _).
  split; [reflexivity|]. split; reflexivity.
Defined.

(** X16.  Approving in the dialog executes exactly the command shown.  In
    every state the component reaches with the dialog open, "Execute Anyway"
    sends one request, the execute request for the dialog's command with
    [confirmed = true], closes the dialog and sets [isExecuting]. *)
Theorem execute_anyway_sends_the_shown_command
    (w : Api.World CommandAnalysis) (es : list Event) :
  let r := fst (run w mounted es) in
  open (confirmDialog (term r)) = true ->
  snd (fire w r ClickExecuteAnyway) =
    [POST_execute
       (Api.execute_body (dialog_command (confirmDialog (term r))) true)] /\
  confirmDialog (term (fst (fire w r ClickExecuteAnyway))) = closedDialog /\
  isExecuting (term (fst (fire w r ClickExecuteAnyway))) = true.
Proof.
  cbv zeta. intros Ho.
  destruct (mounted_dialog_ok w es) as [H _].
  destruct (H Ho) as (a & _ & _ & _ & B & Hb).
  set (r := fst (run w mounted es)) in *.
  set (c := dialog_command (confirmDialog (term r))) in *.
  unfold builtin in Hb. cbv zeta in Hb. apply orb_false_iff in Hb.
  destruct Hb as [Hb1 Hb2].
  simpl. unfold handleConfirmExecution, bind. simpl. fold c.
  rewrite begin_log, begin_dialog, B, Hb1, Hb2.
  split; [reflexivity|]. split; [reflexivity|].
  unfold handleCommand_begin. rewrite truthy_trim, B, Hb1, Hb2. reflexivity.
Qed.

Lemma execute_anyway_sends_the_shown_command_witness :
  let r := fst (run Sample.world mounted
                  [Change Sample.rm_project; ClickSend; Settle 0]) in
  snd (fire Sample.world r ClickExecuteAnyway) =
    [POST_execute (Api.execute_body Sample.rm_project true)].
Proof.
  cbv zeta.
  destruct (execute_anyway_sends_the_shown_command Sample.world
              [Change Sample.rm_project; ClickSend; Settle 0] eq_refl)
    as (H & _).
  rewrite H. reflexivity.
Defined.

(** X17.  An approval is used up, and a cancelled command is gone.  From
    any state, right after "Execute Anyway" or after the dialog was closed,
    a further "Execute Anyway" sends nothing and starts nothing: a double
    click does not execute the command twice. *)
Theorem approval_is_consumed (w : Api.World CommandAnalysis) (r : Running) :
  let after_approve := fst (fire w r ClickExecuteAnyway) in
  let after_cancel := fst (fire w r CloseDialog) in
  snd (fire w after_approve ClickExecuteAnyway) = [] /\
  pool (fst (fire w after_approve ClickExecuteAnyway)) = pool after_approve /\
  snd (fire w after_cancel ClickExecuteAnyway) = [] /\
  pool (fst (fire w after_cancel ClickExecuteAnyway)) = pool after_cancel.
Proof.
  cbv zeta.
  assert (K : forall r0, confirmDialog (term r0) = closedDialog ->
                snd (fire w r0 ClickExecuteAnyway) = [] /\
                pool (fst (fire w r0 ClickExecuteAnyway)) = pool r0).
  { intros r0 H. simpl. unfold handleConfirmExecution, bind. simpl.
    rewrite H. simpl. split; [reflexivity | apply app_nil_r]. }
  destruct (K (fst (fire w r ClickExecuteAnyway))) as [A1 A2].
  { simpl. unfold handleConfirmExecution, bind. simpl. now rewrite begin_dialog. }
  destruct (K (fst (fire w r CloseDialog))) as [B1 B2]; [reflexivity|].
  auto.
Qed.

(** X18.  A confirmed command goes straight to execution.  For a command
    that is neither blank nor a built-in, [handleCommand(command, true)]
    first sends the execute request with [confirmed = true] and after it
    makes no request at all: the analyzer is not consulted again. *)
Theorem confirmed_command_skips_analysis
    (w : Api.World CommandAnalysis) (c : jsstring) (s : State) :
  blank c = false -> builtin c = false ->
  exists rest,
    log (handleCommand w c true s) =
      POST_execute (Api.execute_body c true) :: rest /\
    Forall (fun x => request_call x = false) rest.
Proof.
  intros B H. unfold builtin in H. cbv zeta in H. apply orb_false_iff in H.
  destruct H as [H1 H2].
  exists ((log (finish_execute w c true
                  (st (handleCommand_begin c true s))) ++ []) ++ []).
  split.
  - rewrite handleCommand_log, begin_log, begin_val, B, H1, H2. reflexivity.
  - rewrite !app_nil_r. apply finish_execute_log.
Qed.

Lemma confirmed_command_skips_analysis_witness :
  exists rest,
    log (handleCommand Sample.world Sample.rm_project true initial) =
      POST_execute (Api.execute_body Sample.rm_project true) :: rest /\
    Forall (fun x => request_call x = false) rest.
Proof.
  apply confirmed_command_skips_analysis; reflexivity.
Defined.

(** ** The outcome of an execute request in the terminal *)

(** X19.  An HTTP error answer to the execute request is shown in the
    terminal.  For a confirmed command that reaches execution, when the
    response is not ok the terminal gets, after the echoed input line, the
    single line "Execution failed: " followed by the trimmed response text,
    or by "Terminal execute endpoint returned <status>" when that text is
    blank or cannot be read; nothing else is requested and [isExecuting]
    ends false. *)
Theorem http_error_is_reported
    (w : Api.World CommandAnalysis) (c : jsstring) (s : State)
    (status : N) (txt : option jsstring) :
  blank c = false -> builtin c = false ->
  Api.execute_endpoint w (Api.execute_body c true) = Api.not_ok status txt ->
  let fallback := js "Terminal execute endpoint returned " ++ ofZ (Z.of_N status) in
  let shown := match txt with
               | Some e => if blank e then fallback else trim e
               | None => fallback
               end in
  lines (st (handleCommand w c true s)) =
    lines s ++
      [ {| line_type := line_input; line_content := currentDir s ++ js "> " ++ c |};
        {| line_type := line_error;
           line_content := js "Execution failed: " ++ shown |} ] /\
  log (handleCommand w c true s) = [POST_execute (Api.execute_body c true)] /\
  isExecuting (st (handleCommand w c true s)) = false.
Proof.
  intros B H Hr. cbv zeta.
  unfold builtin in H. cbv zeta in H. apply orb_false_iff in H.
  destruct H as [H1 H2].
  unfold handleCommand, bind, handleCommand_begin.
  rewrite truthy_trim, B. simpl. rewrite H1, H2. simpl.
  unfold finish_execute, bind. simpl. rewrite Hr. simpl.
  destruct txt as [e|]; simpl.
  - rewrite truthy_trim. destruct (blank e); simpl;
      rewrite <- app_assoc; repeat split; reflexivity.
  - rewrite <- app_assoc. repeat split; reflexivity.
Qed.

Lemma http_error_is_reported_witness :
  let w := {| Api.analyze_endpoint := Api.analyze_endpoint Sample.world;
              Api.cd_endpoint := Api.cd_endpoint Sample.world;
              Api.execute_endpoint := fun _ => Api.not_ok 503 (Some (js "  "));
              Api.JSON_parse := Api.JSON_parse Sample.world |} in
  lines (st (handleCommand w (js "ls") true initial)) =
    [ {| line_type := line_input; line_content := js "> ls" |};
      {| line_type := line_error;
         line_content :=
           js "Execution failed: Terminal execute endpoint returned 503" |} ].
Proof.
  cbv zeta.
  destruct (http_error_is_reported
              {| Api.analyze_endpoint := Api.analyze_endpoint Sample.world;
                 Api.cd_endpoint := Api.cd_endpoint Sample.world;
                 Api.execute_endpoint := fun _ => Api.not_ok 503 (Some (js "  "));
                 Api.JSON_parse := Api.JSON_parse Sample.world |}
              (js "ls") initial 503 (Some (js "  ")) eq_refl eq_refl eq_refl)
    as (H & _).
  rewrite H. reflexivity.
Defined.

(** ** The lines of the execute stream *)

Lemma onData_no_console (c : jsstring) (data : Stream.Parsed) (s : State) :
  filter console_error_call (log (Stream.onData c data s)) = [].
Proof.
  destruct data as [d| |]; [|reflexivity|reflexivity].
  unfold Stream.onData, bind. cbn [log st val ret]. rewrite app_nil_r.
  destruct (onData_effect c d s) as [_ ->]. destruct (type d); reflexivity.
Qed.

Lemma onData_throws_on_null (c : jsstring) (data : Stream.Parsed) (s : State) :
  match val (Stream.onData c data s) with
  | Throw _ => Stream.is_null data = true
  | Ok _ => Stream.is_null data = false
  end.
Proof. destruct data; reflexivity. Qed.

(** X20.  No line of the execute stream is skipped, and a line that fails
    does not stop the stream.  Over all the chunks of a response body, every
    [data: ] line is passed to the callback unless [JSON.parse] rejects it;
    the console gets one "Failed to parse SSE data:" for each line that
    [JSON.parse] rejects and for each line on which the callback throws, and
    nothing else from the loop.  With the callback of [handleCommand] the
    lines reported are those that are no JSON and those that are [null]. *)
Theorem stream_lines_are_all_accounted_for
    (JSON_parse : jsstring -> option Stream.Parsed) (throws : Stream.Parsed -> bool)
    (chunks : list jsstring) (c : jsstring) (s : State) :
  List.length (Stream.delivered JSON_parse throws chunks)
  + List.length (filter (Stream.rejected JSON_parse)
                        (flat_map Api.data_lines chunks))
    = List.length (flat_map Api.data_lines chunks) /\
  Stream.reported JSON_parse throws chunks =
    map (fun _ => console_error (js "Failed to parse SSE data:"))
        (filter (Stream.caught JSON_parse throws) (flat_map Api.data_lines chunks)) /\
  filter console_error_call
    (log (Stream.read_loop JSON_parse (Stream.onData c) chunks s)) =
    map (fun _ => console_error (js "Failed to parse SSE data:"))
        (filter (Stream.caught JSON_parse Stream.is_null)
                (flat_map Api.data_lines chunks)).
Proof.
  split; [|split].
  - unfold Stream.delivered. rewrite recorder_loop. simpl.
    apply accepted_rejected_chunks.
  - apply recorder_console.
  - apply loop_console.
    + reflexivity.
    + apply onData_no_console.
    + apply onData_throws_on_null.
Qed.

(** A [null] line is passed to the callback and reported as well; the
    lines after it are still served. *)
Example null_line_is_delivered_and_reported :
  Stream.delivered Stream.parse_sample Stream.is_null [Stream.sample_chunk] =
    [Stream.parsed_null; Stream.parsed_event Sample.confirmation_event] /\
  Stream.reported Stream.parse_sample Stream.is_null [Stream.sample_chunk] =
    [console_error (js "Failed to parse SSE data:");
     console_error (js "Failed to parse SSE data:")] /\
  List.length (flat_map Api.data_lines [Stream.sample_chunk]) = 3.
Proof. vm_compute. repeat split; reflexivity. Qed.

(** ** [isExecuting] with several commands in flight *)

(** X21.  The end of any one execute stream re-enables the input.  When an
    execute request settles, [isExecuting] becomes false and the input field
    is enabled again, while every other pending promise, the other execute
    streams included, stays as it was. *)
Theorem input_enabled_when_any_command_finishes
    (w : Api.World CommandAnalysis) (r : Running) (n : nat)
    (c : jsstring) (b : bool) (text : jsstring) :
  nth_error (pool r) n = Some (AwaitExecute c b) ->
  let r' := fst (fire w r (Settle n)) in
  isExecuting (term r') = false /\
  enabled r' (Change text) = true /\
  pool r' = remove_nth n (pool r).
Proof.
  intros H. cbv zeta. simpl. rewrite H. simpl.
  unfold enabled, inputDisabled. simpl. rewrite app_nil_r.
  repeat split; reflexivity.
Qed.

Lemma input_enabled_when_any_command_finishes_witness :
  let r := {| term := setIsExecuting true initial;
              pool := [AwaitExecute (js "sleep 60") false;
                       AwaitExecute (js "ls") false] |} in
  let r' := fst (fire Sample.world r (Settle 1)) in
  enabled r' (Change (js "x")) = true /\
  executing r' = [AwaitExecute (js "sleep 60") false].
Proof.
  cbv zeta.
  destruct (input_enabled_when_any_command_finishes Sample.world
              {| term := setIsExecuting true initial;
                 pool := [AwaitExecute (js "sleep 60") false;
                          AwaitExecute (js "ls") false] |}
              1 (js "ls") false (js "x") eq_refl) as (_ & H2 & H3).
  split; [exact H2|]. unfold executing. rewrite H3. reflexivity.
Defined.

(** ** The terminal lines *)

Lemma lines_extended_refl (s : State) : lines_extended s s.
Proof. exists []. now rewrite app_nil_r. Qed.

Lemma lines_extended_trans (s1 s2 s3 : State) :
  lines_extended s1 s2 -> lines_extended s2 s3 -> lines_extended s1 s3.
Proof.
  intros [l1 H1] [l2 H2]. exists (l1 ++ l2). now rewrite H2, H1, app_assoc.
Qed.

Lemma lines_extended_same (s s' : State) :
  lines s' = lines s -> lines_extended s s'.
Proof. intros H. exists []. now rewrite app_nil_r. Qed.

Ltac same_lines :=
  first [ apply lines_extended_refl
        | apply lines_extended_same; reflexivity
        | eexists; reflexivity ].

Lemma forEach_extends {A} (f : A -> M State unit) (l : list A) :
  (forall a s, lines_extended s (st (f a s))) ->
  forall s, lines_extended s (st (forEach l f s)).
Proof.
  intros Hf. induction l as [|a r IH]; intros s; simpl.
  - same_lines.
  - unfold bind. simpl. eapply lines_extended_trans; [apply Hf | apply IH].
Qed.

Lemma onData_extends (c : jsstring) (d : CommandResult) (s : State) :
  lines_extended s (st (onData c d s)).
Proof. destruct (onData_state c d s) as [l ->]. now exists l. Qed.

Lemma finish_execute_extends (w : Api.World CommandAnalysis)
    (c : jsstring) (b : bool) (s : State) :
  lines_extended s (st (finish_execute w c b s)).
Proof.
  unfold finish_execute, bind. simpl.
  set (o := Api.execute_response w (onData c) _ s).
  assert (Ho : lines_extended s (st o)).
  { subst o. destruct (Api.execute_endpoint w (Api.execute_body c b))
      as [m|status txt| |chunks failure]; simpl;
      try same_lines.
    unfold bind. simpl. apply forEach_extends. intros text s1.
    unfold Api.execute_chunk. apply forEach_extends. intros line s2.
    destruct (Api.JSON_parse w (slice 6 line));
      [apply onData_extends | same_lines]. }
  eapply lines_extended_trans; [exact Ho|].
  unfold after_execute. destruct (val o); simpl; unfold bind; simpl.
  - same_lines.
  - same_lines.
Qed.

Lemma settle_extends (w : Api.World CommandAnalysis) (p : Pending) (s : State) :
  lines_extended s (st (settle w p s)).
Proof.
  destruct p as [path|c|c b].
  - unfold settle, bind, after_changeDirectory. simpl.
    destruct (Api.cd_endpoint w path); simpl; same_lines.
  - unfold settle, after_analyze.
    destruct (Api.analyze_endpoint w c) as [a|m];
      [destruct (requires_confirmation a)|]; simpl;
      same_lines.
  - exact (finish_execute_extends w c b s).
Qed.

Lemma begin_extends_or_clears (c : jsstring) (b : bool) (s : State) :
  lines_extended s (st (handleCommand_begin c b s)) \/
  (lines (st (handleCommand_begin c b s)) = [] /\
   (trim c = js "clear" \/ trim c = js "cls")).
Proof.
  unfold handleCommand_begin. rewrite truthy_trim.
  destruct (blank c); simpl; [left; same_lines|].
  destruct (streq (trim c) (js "clear")) eqn:E1; simpl.
  { right. apply streq_true in E1. auto. }
  destruct (streq (trim c) (js "cls")) eqn:E2; simpl.
  { right. apply streq_true in E2. auto. }
  left. destruct (startsWith (trim c) (js "cd ")); simpl.
  - same_lines.
  - destruct b; simpl; same_lines.
Qed.

Lemma handleKeyDown_extends_or_clears (k : Key) (sh : bool) (s : State) :
  lines_extended s (st (handleKeyDown k sh s)) \/
  (lines (st (handleKeyDown k sh s)) = [] /\
   (trim (input s) = js "clear" \/ trim (input s) = js "cls")).
Proof.
  destruct k; simpl.
  - destruct sh; simpl; [left; same_lines|].
    unfold bind. simpl.
    destruct (begin_extends_or_clears (input s) false s) as [H|H];
      [left | right]; exact H.
  - left. unfold bind. simpl.
    destruct (0 <? Z.of_nat (List.length (history s)))%Z;
      same_lines.
  - left. unfold bind. simpl.
    destruct (0 <? historyIndex s)%Z; [same_lines|].
    destruct (historyIndex s =? 0)%Z; same_lines.
  - left. destruct sh; same_lines.
Qed.

(** X22.  What the terminal shows is never rewritten.  In every state the
    component reaches, one more turn of the event loop leaves the lines
    already shown in place, in order, with any new ones after them; the only
    exception is the submission of "clear" or "cls" from the input field,
    which empties the terminal. *)
Theorem terminal_lines_append_or_clear
    (w : Api.World CommandAnalysis) (es : list Event) (e : Event) :
  let r := fst (run w mounted es) in
  (exists l, lines (term (fst (fire w r e))) = lines (term r) ++ l) \/
  (lines (term (fst (fire w r e))) = [] /\
   (e = ClickSend \/ exists sh, e = KeyDown Enter sh) /\
   (trim (input (term r)) = js "clear" \/ trim (input (term r)) = js "cls")).
Proof.
  cbv zeta. pose proof (mounted_dialog_ok w es) as Hd.
  set (r := fst (run w mounted es)) in *.
  destruct e as [text|k sh| | | |n]; simpl.
  - left. same_lines.
  - destruct (handleKeyDown_extends_or_clears k sh (term r)) as [H|[H1 H2]];
      [left; exact H|].
    destruct k.
    + right. split; [exact H1|]. split; [right; now exists sh | exact H2].
    + left. unfold handleKeyDown, bind. simpl.
      destruct (0 <? Z.of_nat (List.length (history (term r))))%Z;
        same_lines.
    + left. unfold handleKeyDown, bind. simpl.
      destruct (0 <? historyIndex (term r))%Z; [same_lines|].
      destruct (historyIndex (term r) =? 0)%Z; same_lines.
    + left. destruct sh; same_lines.
  - unfold handleSend, bind. simpl.
    destruct (begin_extends_or_clears (input (term r)) false (term r))
      as [H|[H1 H2]]; [left; exact H|].
    right. split; [exact H1|]. split; [now left | exact H2].
  - left. unfold handleConfirmExecution, bind. simpl.
    set (s0 := setConfirmDialog closedDialog (term r)).
    set (c := dialog_command (confirmDialog (term r))) in *.
    destruct (begin_extends_or_clears c true s0) as [H|[_ H2]]; [exact H|].
    exfalso. destruct Hd as [Hopen Hclosed].
    destruct (open (confirmDialog (term r))) eqn:O.
    + destruct (Hopen eq_refl) as (a & _ & _ & _ & _ & Hb).
      unfold builtin in Hb. cbv zeta in Hb. fold c in Hb.
      destruct H2 as [H2|H2]; rewrite H2 in Hb; discriminate.
    + assert (E : c = []) by (subst c; now rewrite (Hclosed eq_refl)).
      rewrite E in H2. destruct H2 as [H2|H2]; discriminate.
  - left. same_lines.
  - left. destruct (nth_error (pool r) n) as [p|]; simpl;
      [apply settle_extends | same_lines].
Qed.

(** ** The approval flow of [App] *)

Section AppFlow.

Variable w : Api.World ApprovalModal.CommandAnalysis.

Let logs (d : CommandResult) : M App.State unit :=
  call (console_log (js "Command output:") d).

(** The stream of an approved command only reaches the console. *)
Lemma approve_response (r : Api.ExecuteResponse) (s : App.State) :
  st (Api.execute_response w logs r s) = s /\
  Forall (fun x => execute_call x = false) (log (Api.execute_response w logs r s)) /\
  val (Api.execute_response w logs r s) =
    match r with
    | Api.fetch_rejected m => Throw m
    | Api.not_ok status txt =>
        let t := match txt with Some e => trim e | None => [] end in
        Throw (if truthy t then t
               else js "Terminal execute endpoint returned " ++ ofZ (Z.of_N status))
    | Api.no_body =>
        Throw (js "Terminal execute endpoint did not provide a response stream.")
    | Api.body_stream _ None => Ok tt
    | Api.body_stream _ (Some m) => Throw m
    end.
Proof.
  split; [|split].
  - apply (execute_response_keeps w logs (fun x => x)). reflexivity.
  - apply execute_response_log; [reflexivity|].
    intros d s0. repeat constructor.
  - destruct r as [m|status txt| |chunks [m|]]; reflexivity.
Qed.

Lemma approve_outcome (r : Api.ExecuteResponse) (s : App.State) :
  match val (Api.execute_response w logs r s) with
  | Ok _ => answers_ok r = true
  | Throw _ => answers_ok r = false
  end.
Proof.
  destruct (approve_response r s) as (_ & _ & ->).
  destruct r as [m|status txt| |chunks [m|]]; reflexivity.
Qed.

Lemma approve_state (b : bool) (s : App.State) (c : jsstring) :
  App.pendingCommand s = Some c ->
  truthy c = true ->
  App.approvalLoading s = false ->
  st (App.handleApproveCommand w b s) =
    if answers_ok (Api.execute_endpoint w (Api.execute_body c true))
    then {| App.activeTab := App.activeTab s; App.approvalModalOpen := false;
            App.pendingCommand := None; App.commandAnalysis := None;
            App.approvalLoading := false |}
    else s.
Proof.
  intros Hp Hc Hl. unfold App.handleApproveCommand, bind. simpl.
  rewrite Hp, Hc. simpl. unfold Api.execute, bind. simpl.
  set (r := Api.execute_endpoint w (Api.execute_body c true)).
  fold logs.
  destruct (approve_response r (App.setApprovalLoading true s)) as (Hs & _ & _).
  pose proof (approve_outcome r (App.setApprovalLoading true s)) as Ho.
  rewrite Hs.
  destruct (val (Api.execute_response w logs r (App.setApprovalLoading true s)));
    rewrite Ho; simpl.
  - reflexivity.
  - destruct s; simpl in *. subst. reflexivity.
Qed.

(** The calls of an approval: the execute request, then console output. *)
Lemma approve_log (b : bool) (s : App.State) (c : jsstring) :
  App.pendingCommand s = Some c ->
  truthy c = true ->
  exists rest,
    log (App.handleApproveCommand w b s) =
      POST_execute (Api.execute_body c true) :: rest /\
    Forall (fun x => execute_call x = false) rest.
Proof.
  intros Hp Hc. unfold App.handleApproveCommand, bind. simpl.
  rewrite Hp, Hc. simpl. unfold Api.execute, bind. simpl.
  set (r := Api.execute_endpoint w (Api.execute_body c true)).
  fold logs.
  destruct (approve_response r (App.setApprovalLoading true s)) as (_ & Hf & _).
  eexists. split; [reflexivity|].
  repeat (apply Forall_app; split); try exact Hf; try constructor.
  destruct (val (Api.execute_response w logs r (App.setApprovalLoading true s)));
    simpl; repeat constructor.
Qed.

(** Without a pending command, approving does nothing. *)
Lemma approve_nothing (b : bool) (s : App.State) :
  App.pendingCommand s = None ->
  App.handleApproveCommand w b s = ret tt s.
Proof.
  intros Hp. unfold App.handleApproveCommand, bind. simpl. rewrite Hp.
  reflexivity.
Qed.

(** X23.  A failed execution keeps the command waiting for approval.  When
    the approved command's execute call returns normally the modal closes
    and the pending command and its analysis are cleared; when it throws
    (network failure, HTTP error, missing or broken stream) the state of
    [App] is left exactly as it was, modal open, so the user can approve
    again or reject. *)
Theorem failed_approval_keeps_command_pending
    (b : bool) (s : App.State) (c : jsstring) :
  App.pendingCommand s = Some c ->
  truthy c = true ->
  App.approvalLoading s = false ->
  st (App.handleApproveCommand w b s) =
    if answers_ok (Api.execute_endpoint w (Api.execute_body c true))
    then {| App.activeTab := App.activeTab s; App.approvalModalOpen := false;
            App.pendingCommand := None; App.commandAnalysis := None;
            App.approvalLoading := false |}
    else s.
Proof. exact (approve_state b s c). Qed.

Lemma fire_no_execute (y : App.System) (e : App.Event) :
  e <> App.ClickApprove ->
  Forall (fun x => execute_call x = false) (snd (App.fire w y e)).
Proof.
  intros He. destruct e as [c| |b| |]; try congruence; simpl;
    try solve [repeat constructor].
  unfold App.handleRunCommand, bind. simpl.
  destruct (Api.analyze_endpoint w c) as [a|m];
    [destruct (App.needsApproval a)|]; simpl; repeat constructor.
Qed.

Lemma step_no_execute (y : App.System) (e : App.Event) :
  e <> App.ClickApprove ->
  Forall (fun x => execute_call x = false) (snd (App.step w y e)).
Proof.
  intros He. unfold App.step. destruct (App.enabled y e);
    [now apply fire_no_execute | constructor].
Qed.

(** X24.  [App] sends an execute request only on the Approve button.  From
    any state, a run of events without a click on Approve sends no execute
    request; in particular [handleRunCommand], which the chat and the task
    planner call to "run" a command, only analyses it. *)
Theorem app_executes_only_on_approve (y : App.System) (es : list App.Event) :
  (forall e, In e es -> e <> App.ClickApprove) ->
  Forall (fun x => execute_call x = false) (snd (App.run w y es)).
Proof.
  revert y. induction es as [|e rest IH]; intros y H; simpl; [constructor|].
  pose proof (step_no_execute y e (H e (or_introl eq_refl))) as S1.
  destruct (App.step w y e) as [y1 c1].
  specialize (IH y1 (fun e0 H0 => H e0 (or_intror H0))).
  destruct (App.run w y1 rest) as [y2 c2]. simpl in *.
  apply Forall_app. now split.
Qed.

End AppFlow.

Lemma failed_approval_keeps_command_pending_witness :
  let s := st (App.handleRunCommand no_body_world Sample.rm_project App.initial) in
  App.approvalModalOpen (st (App.handleApproveCommand no_body_world true s)) = true /\
  App.pendingCommand (st (App.handleApproveCommand no_body_world true s))
  = Some Sample.rm_project.
Proof.
  cbv zeta.
  rewrite (failed_approval_keeps_command_pending no_body_world true
             (st (App.handleRunCommand no_body_world Sample.rm_project App.initial))
             Sample.rm_project eq_refl eq_refl eq_refl).
  split; reflexivity.
Defined.

Lemma app_executes_only_on_approve_witness :
  Forall (fun x => execute_call x = false)
    (snd (App.run Sample.app_world App.started
            [App.RunCommand Sample.rm_project; App.TimerFires;
             App.CheckBackup false; App.Reject;
             App.RunCommand Sample.chmod_docs])).
Proof.
  apply app_executes_only_on_approve.
  intros e H. simpl in H.
  repeat destruct H as [<-|H]; try discriminate. contradiction.
Defined.

Section AppInvariants.

Variable w : Api.World ApprovalModal.CommandAnalysis.

Lemma run_command_ok (c : jsstring) (s : App.State) :
  app_ok w s -> app_ok w (st (App.handleRunCommand w c s)).
Proof.
  intros H. unfold App.handleRunCommand, bind. simpl.
  destruct (Api.analyze_endpoint w c) as [a|m] eqn:Ha;
    [destruct (App.needsApproval a) eqn:Hn|]; simpl.
  - destruct H as [Hl _]. split; [exact Hl|]. simpl.
    split; [reflexivity|]. exists a. auto.
  - exact H.
  - exact H.
Qed.

Lemma approve_ok (b : bool) (s : App.State) :
  app_ok w s -> app_ok w (st (App.handleApproveCommand w b s)).
Proof.
  intros H. destruct (App.pendingCommand s) as [c|] eqn:Hp.
  - destruct (truthy c) eqn:Hc.
    + destruct H as [Hl H]. rewrite (approve_state w b s c Hp Hc Hl).
      destruct (answers_ok _).
      * split; [reflexivity|]. simpl. auto.
      * split; [exact Hl | exact H].
    + unfold App.handleApproveCommand, bind. simpl. rewrite Hp, Hc. exact H.
  - now rewrite (approve_nothing w b s Hp).
Qed.

Lemma fire_app_ok (y : App.System) (e : App.Event) :
  app_ok w (App.app y) -> app_ok w (App.app (fst (App.fire w y e))).
Proof.
  intros H. destruct e as [c| |b| |]; try exact H.
  - exact (run_command_ok c (App.app y) H).
  - exact (approve_ok (ApprovalModal.createBackup (App.modal y)) (App.app y) H).
  - destruct H as [Hl _]. split; [exact Hl|]. simpl. auto.
Qed.

Lemma step_app_ok (y : App.System) (e : App.Event) :
  app_ok w (App.app y) -> app_ok w (App.app (fst (App.step w y e))).
Proof.
  intros H. unfold App.step. destruct (App.enabled y e);
    [now apply fire_app_ok | exact H].
Qed.

Lemma run_app_ok (es : list App.Event) (y : App.System) :
  app_ok w (App.app y) -> app_ok w (App.app (fst (App.run w y es))).
Proof.
  revert y. induction es as [|e rest IH]; intros y H; simpl; [exact H|].
  pose proof (step_app_ok y e H) as S1.
  destruct (App.step w y e) as [y1 c1].
  specialize (IH y1 S1).
  destruct (App.run w y1 rest) as [y2 c2]. exact IH.
Qed.

Lemma started_ok : app_ok w (App.app App.started).
Proof. split; [reflexivity|]. simpl. auto. Qed.

(** X25.  The approval modal is open exactly while a command is pending.
    In every state [App] reaches, either a command is pending, the modal is
    open and shows the analysis the analyzer gave for that command, of high
    or critical risk; or nothing is pending, the modal is closed and holds
    no analysis. *)
Theorem modal_open_iff_command_pending (es : list App.Event) :
  let s := App.app (fst (App.run w App.started es)) in
  (App.approvalModalOpen s = true <-> App.pendingCommand s <> None) /\
  (App.approvalModalOpen s = true <-> App.commandAnalysis s <> None) /\
  (forall c, App.pendingCommand s = Some c ->
     exists a, App.commandAnalysis s = Some a /\
               Api.analyze_endpoint w c = Ok a /\
               (ApprovalModal.risk_level a = ApprovalModal.high \/
                ApprovalModal.risk_level a = ApprovalModal.critical)).
Proof.
  cbv zeta. destruct (run_app_ok es App.started started_ok) as [_ H].
  destruct (App.pendingCommand (App.app (fst (App.run w App.started es))))
    as [c|] eqn:Hp.
  - destruct H as (Ho & a & Ha & Hw & Hn). rewrite Ho, Ha.
    split; [split; [discriminate|reflexivity]|].
    split; [split; [discriminate|reflexivity]|].
    intros c0 E. injection E as <-. exists a. split; [reflexivity|].
    split; [exact Hw|]. unfold App.needsApproval in Hn.
    destruct (ApprovalModal.risk_level a); simpl in Hn; try discriminate; auto.
  - destruct H as (Ho & Ha). rewrite Ho, Ha.
    split; [split; [discriminate|congruence]|].
    split; [split; [discriminate|congruence]|].
    discriminate.
Qed.

Lemma step_flagged (y : App.System) (e : App.Event) (body : ExecuteRequest) :
  app_ok w (App.app y) ->
  In (POST_execute body) (snd (App.step w y e)) ->
  req_confirmed body = true /\ req_create_backup body = true /\
  exists a, Api.analyze_endpoint w (req_command body) = Ok a /\
            App.needsApproval a = true.
Proof.
  intros H Hin.
  assert (e = App.ClickApprove \/ e <> App.ClickApprove) as [->|He]
    by (destruct e; (now left) || (right; discriminate)).
  2:{ exfalso. pose proof (step_no_execute w y e He) as F.
      rewrite Forall_forall in F. specialize (F _ Hin). discriminate. }
  unfold App.step in Hin. destruct (App.enabled y App.ClickApprove);
    [|contradiction].
  change (In (POST_execute body)
            (log (App.handleApproveCommand w
                    (ApprovalModal.createBackup (App.modal y)) (App.app y))))
    in Hin.
  destruct (App.pendingCommand (App.app y)) as [c|] eqn:Hp.
  - destruct (truthy c) eqn:Hc.
    + destruct (approve_log w (ApprovalModal.createBackup (App.modal y))
                  (App.app y) c Hp Hc) as (rest & Hl & Hf).
      rewrite Hl in Hin. destruct Hin as [Hin|Hin].
      * injection Hin as <-. destruct H as [_ H]. rewrite Hp in H.
        destruct H as (_ & a & _ & Hw & Hn). simpl. eauto.
      * rewrite Forall_forall in Hf. specialize (Hf _ Hin). discriminate.
    + unfold App.handleApproveCommand, bind in Hin. simpl in Hin.
      rewrite Hp, Hc in Hin. contradiction.
  - rewrite (approve_nothing w _ _ Hp) in Hin. contradiction.
Qed.

Lemma run_flagged (es : list App.Event) (y : App.System) (body : ExecuteRequest) :
  app_ok w (App.app y) ->
  In (POST_execute body) (snd (App.run w y es)) ->
  req_confirmed body = true /\ req_create_backup body = true /\
  exists a, Api.analyze_endpoint w (req_command body) = Ok a /\
            App.needsApproval a = true.
Proof.
  revert y. induction es as [|e rest IH]; intros y H Hin; simpl in Hin;
    [contradiction|].
  pose proof (step_app_ok y e H) as S1.
  pose proof (step_flagged y e body H) as S2.
  destruct (App.step w y e) as [y1 c1].
  specialize (IH y1 S1).
  destruct (App.run w y1 rest) as [y2 c2]. simpl in *.
  apply in_app_or in Hin. destruct Hin as [Hin|Hin]; [now apply S2 | now apply IH].
Qed.

(** X26.  [App] executes only commands that were analysed as high or
    critical risk.  Every execute request of a run from the start is for a
    command the analyzer rated high or critical, and carries
    [confirmed = true] and [create_backup = true]. *)
Theorem app_executes_only_flagged_commands
    (es : list App.Event) (body : ExecuteRequest) :
  In (POST_execute body) (snd (App.run w App.started es)) ->
  req_confirmed body = true /\ req_create_backup body = true /\
  exists a,
    Api.analyze_endpoint w (req_command body) = Ok a /\
    (ApprovalModal.risk_level a = ApprovalModal.high \/
     ApprovalModal.risk_level a = ApprovalModal.critical).
Proof.
  intros Hin.
  destruct (run_flagged es App.started body started_ok Hin)
    as (H1 & H2 & a & Ha & Hn).
  split; [exact H1|]. split; [exact H2|]. exists a. split; [exact Ha|].
  unfold App.needsApproval in Hn.
  destruct (ApprovalModal.risk_level a); simpl in Hn; try discriminate; auto.
Qed.

End AppInvariants.

Lemma app_executes_only_flagged_commands_witness :
  let es := [App.RunCommand Sample.rm_project] ++ repeat App.TimerFires 5
              ++ [App.ClickApprove] in
  exists a,
    Api.analyze_endpoint Sample.app_world Sample.rm_project = Ok a /\
    (ApprovalModal.risk_level a = ApprovalModal.high \/
     ApprovalModal.risk_level a = ApprovalModal.critical).
Proof.
  cbv zeta.
  destruct (app_executes_only_flagged_commands Sample.app_world
              ([App.RunCommand Sample.rm_project] ++ repeat App.TimerFires 5
                 ++ [App.ClickApprove])
              (Api.execute_body Sample.rm_project true)) as (_ & _ & H).
  - vm_compute. right. left. reflexivity.
  - exact H.
Defined.

(** ** The approval flow of [App] with its requests in flight *)

Section AppInFlight.

Variable w : Api.World ApprovalModal.CommandAnalysis.

(** Run with nothing in between, the two parts of [handleRunCommand] and
    of [handleApproveCommand] are the handlers of [App]. *)
Lemma handleRunCommand_cut (c : jsstring) (s : App.State) :
  let o := AppAsync.handleRunCommand_begin c s in
  let o' := AppAsync.handleRunCommand_after c (Api.analyze_endpoint w c) (st o) in
  st (App.handleRunCommand w c s) = st o' /\
  log (App.handleRunCommand w c s) = log o ++ log o'.
Proof.
  cbv zeta. unfold App.handleRunCommand, AppAsync.handleRunCommand_begin,
    AppAsync.handleRunCommand_after, bind. simpl.
  destruct (Api.analyze_endpoint w c) as [a|m];
    [destruct (App.needsApproval a)|]; split; reflexivity.
Qed.

Lemma handleApproveCommand_cut (b : bool) (s : App.State) :
  let o := AppAsync.handleApproveCommand_begin b s in
  st (App.handleApproveCommand w b s) =
    match val o with
    | Some p => st (AppAsync.settle w p (st o))
    | None => st o
    end /\
  log (App.handleApproveCommand w b s) =
    log o ++ match val o with
             | Some p => log (AppAsync.settle w p (st o))
             | None => []
             end.
Proof.
  cbv zeta. unfold App.handleApproveCommand, AppAsync.handleApproveCommand_begin, bind.
  simpl. destruct (App.pendingCommand s) as [c|]; [|split; reflexivity].
  destruct (truthy c); simpl; split; reflexivity.
Qed.

Lemma approve_after_keeps_none (c : jsstring) (s : App.State) :
  App.pendingCommand s = None ->
  App.pendingCommand (st (AppAsync.handleApproveCommand_after w c s)) = None /\
  Forall (fun x => execute_call x = false)
    (log (AppAsync.handleApproveCommand_after w c s)).
Proof.
  intros Hp. unfold AppAsync.handleApproveCommand_after, bind. cbn [st log val].
  destruct (approve_response w (Api.execute_endpoint w (Api.execute_body c true)) s)
    as (Hs & Hf & _).
  rewrite Hs.
  match goal with |- context [match ?r with Ok _ => _ | Throw _ => _ end] =>
    destruct r end; simpl.
  - split; [reflexivity|]. rewrite !app_nil_r. exact Hf.
  - split; [exact Hp|]. apply Forall_app. split; [exact Hf | repeat constructor].
Qed.

(** With no command pending, a turn that is not the answer of an analysis
    sends no execute request and leaves no command pending. *)
Lemma flow_step_keeps_none (f : AppAsync.Flow) (e : AppAsync.Event) :
  AppAsync.no_analysis_answer w f [e] = true ->
  App.pendingCommand (App.app (AppAsync.sys f)) = None ->
  App.pendingCommand (App.app (AppAsync.sys (fst (AppAsync.step w f e)))) = None /\
  Forall (fun x => execute_call x = false) (snd (AppAsync.step w f e)).
Proof.
  intros He Hp. unfold AppAsync.step. destruct (AppAsync.enabled f e);
    [|split; [exact Hp | constructor]].
  destruct e as [[c| |b| |]|n]; cbn [AppAsync.fire].
  - split; [exact Hp | repeat constructor].
  - split; [exact Hp | constructor].
  - split; [exact Hp | constructor].
  - unfold AppAsync.handleApproveCommand_begin, bind. cbn [read val st log].
    rewrite Hp. split; [exact Hp | constructor].
  - split; [reflexivity | constructor].
  - cbn [AppAsync.no_analysis_answer] in He.
    destruct (nth_error (AppAsync.waiting f) n) as [[c|c]|];
      [discriminate| |split; [exact Hp | constructor]].
    exact (approve_after_keeps_none c (App.app (AppAsync.sys f)) Hp).
Qed.

Lemma flow_run_keeps_none (es : list AppAsync.Event) (f : AppAsync.Flow) :
  AppAsync.no_analysis_answer w f es = true ->
  App.pendingCommand (App.app (AppAsync.sys f)) = None ->
  Forall (fun x => execute_call x = false) (snd (AppAsync.run w f es)).
Proof.
  revert f. induction es as [|e rest IH]; intros f Hq Hp; [constructor|].
  cbn [AppAsync.no_analysis_answer] in Hq. apply andb_true_iff in Hq.
  destruct Hq as [Q1 Q2].
  destruct (flow_step_keeps_none f e) as [S1 S2];
    [cbn [AppAsync.no_analysis_answer]; now rewrite Q1 | exact Hp |].
  cbn [AppAsync.run].
  destruct (AppAsync.step w f e) as [f1 c1]. cbn [fst snd] in *.
  specialize (IH f1 Q2 S1).
  destruct (AppAsync.run w f1 rest) as [f2 c2]. cbn [snd] in *.
  apply Forall_app. now split.
Qed.

(** An analysis answered after a rejection opens the modal again. *)
Lemma late_answer_reopens (f : AppAsync.Flow) (n : nat) (c : jsstring)
    (a : ApprovalModal.CommandAnalysis) :
  nth_error (AppAsync.waiting f) n = Some (AppAsync.AwaitAnalyze c) ->
  Api.analyze_endpoint w c = Ok a ->
  App.needsApproval a = true ->
  truthy c = true ->
  let f0 := fst (AppAsync.fire w f (AppAsync.User App.Reject)) in
  let f1 := fst (AppAsync.fire w f0 (AppAsync.Settle n)) in
  App.pendingCommand (App.app (AppAsync.sys f1)) = Some c /\
  App.approvalModalOpen (App.app (AppAsync.sys f1)) = true /\
  App.commandAnalysis (App.app (AppAsync.sys f1)) = Some a /\
  snd (AppAsync.fire w f1 (AppAsync.User App.ClickApprove)) =
    [POST_execute (Api.execute_body c true)].
Proof.
  intros Hn Ha Hr Hc. cbv zeta.
  cbn [AppAsync.fire fst AppAsync.waiting]. rewrite Hn.
  cbn [fst AppAsync.sys AppAsync.settle]. rewrite Ha.
  unfold AppAsync.handleRunCommand_after. rewrite Hr.
  cbn [AppAsync.fire snd AppAsync.sys].
  unfold AppAsync.handleApproveCommand_begin, AppAsync.commit, App.rerender, bind.
  cbn. rewrite Hc. cbn. repeat split; reflexivity.
Qed.

(** X27.  After [handleRejectCommand] nothing is executed before the answer
    of an analysis arrives.  From whatever state, and with whatever requests
    still in flight, a run after the rejection in which no
    [terminalApi.analyze] promise settles sends no execute request: timer
    firings, checkbox changes, approvals, rejections, new calls of
    [handleRunCommand] (which only send the analyze request) and the end of
    execute requests under way send none.  The answer of an analysis does
    bring a command to approval, also when the analysis was requested before
    the rejection: if it rates the command high or critical the modal opens
    again on it, and the approval then sends its execute request. *)
Theorem rejected_command_is_not_executed
    (f : AppAsync.Flow) (es : list AppAsync.Event)
    (n : nat) (c : jsstring) (a : ApprovalModal.CommandAnalysis) :
  let f0 := fst (AppAsync.fire w f (AppAsync.User App.Reject)) in
  let f1 := fst (AppAsync.fire w f0 (AppAsync.Settle n)) in
  (AppAsync.no_analysis_answer w f0 es = true ->
   Forall (fun x => execute_call x = false) (snd (AppAsync.run w f0 es))) /\
  (nth_error (AppAsync.waiting f) n = Some (AppAsync.AwaitAnalyze c) ->
   Api.analyze_endpoint w c = Ok a ->
   App.needsApproval a = true ->
   truthy c = true ->
   App.pendingCommand (App.app (AppAsync.sys f1)) = Some c /\
   App.approvalModalOpen (App.app (AppAsync.sys f1)) = true /\
   App.commandAnalysis (App.app (AppAsync.sys f1)) = Some a /\
   snd (AppAsync.fire w f1 (AppAsync.User App.ClickApprove)) =
     [POST_execute (Api.execute_body c true)]).
Proof.
  cbv zeta. split.
  - intros H. apply flow_run_keeps_none; [exact H | reflexivity].
  - intros Hn Ha Hr Hc. exact (late_answer_reopens f n c a Hn Ha Hr Hc).
Qed.

End AppInFlight.

Lemma rejected_command_is_not_executed_witness :
  let f := fst (AppAsync.run Sample.app_world AppAsync.flow_started
                  [AppAsync.User (App.RunCommand Sample.rm_project);
                   AppAsync.User (App.RunCommand Sample.rm_project);
                   AppAsync.Settle 0]) in
  let f0 := fst (AppAsync.fire Sample.app_world f (AppAsync.User App.Reject)) in
  let f1 := fst (AppAsync.fire Sample.app_world f0 (AppAsync.Settle 0)) in
  Forall (fun x => execute_call x = false)
    (snd (AppAsync.run Sample.app_world f0
            [AppAsync.User App.ClickApprove;
             AppAsync.User (App.RunCommand Sample.chmod_docs);
             AppAsync.User App.TimerFires; AppAsync.User App.ClickApprove])) /\
  App.pendingCommand (App.app (AppAsync.sys f1)) = Some Sample.rm_project /\
  snd (AppAsync.fire Sample.app_world f1 (AppAsync.User App.ClickApprove)) =
    [POST_execute (Api.execute_body Sample.rm_project true)].
Proof.
  cbv zeta.
  destruct (rejected_command_is_not_executed Sample.app_world
              (fst (AppAsync.run Sample.app_world AppAsync.flow_started
                      [AppAsync.User (App.RunCommand Sample.rm_project);
                       AppAsync.User (App.RunCommand Sample.rm_project);
                       AppAsync.Settle 0]))
              [AppAsync.User App.ClickApprove;
               AppAsync.User (App.RunCommand Sample.chmod_docs);
               AppAsync.User App.TimerFires; AppAsync.User App.ClickApprove]
              0 Sample.rm_project Sample.rm_report) as [H1 H2].
  split; [exact (H1 eq_refl)|].
  destruct (H2 eq_refl eq_refl eq_refl eq_refl) as (P & _ & _ & E).
  split; [exact P | exact E].
Defined.

(** A command rejected while a second analysis of it is in flight: the
    answer opens the modal again, and once the countdown has run out the
    Approve button executes the command. *)
Example analysis_in_flight_reopens_modal :
  let rm := AppAsync.User (App.RunCommand Sample.rm_project) in
  let es := [rm; rm; AppAsync.Settle 0; AppAsync.User App.Reject; AppAsync.Settle 0]
              ++ repeat (AppAsync.User App.TimerFires) 5
              ++ [AppAsync.User App.ClickApprove] in
  snd (AppAsync.run Sample.app_world AppAsync.flow_started es) =
    [POST_analyze Sample.rm_project; POST_analyze Sample.rm_project;
     POST_execute (Api.execute_body Sample.rm_project true)].
Proof. vm_compute. reflexivity. Qed.

(** ** The countdown of the modal across commands *)

Section Countdown.

Variable w : Api.World ApprovalModal.CommandAnalysis.

Lemma RiskLevel_eqb_eq (a b : ApprovalModal.RiskLevel) :
  ApprovalModal.RiskLevel_eqb a b = true <-> a = b.
Proof. destruct a, b; simpl; split; congruence. Qed.

Lemma critical_open_deps (s s' : App.State) :
  ApprovalModal.deps_eqb (ApprovalModal.deps (App.modalProps s))
                         (ApprovalModal.deps (App.modalProps s')) = true ->
  critical_open s' = critical_open s.
Proof.
  unfold ApprovalModal.deps_eqb, ApprovalModal.deps, critical_open. simpl.
  intros H. apply andb_true_iff in H. destruct H as [Ho Hr].
  apply Bool.eqb_prop in Ho. rewrite Ho.
  destruct (App.commandAnalysis s) as [a|], (App.commandAnalysis s') as [a'|];
    simpl in Hr; try discriminate; [|reflexivity].
  apply RiskLevel_eqb_eq in Hr. now rewrite Hr.
Qed.

Lemma rerender_ok (y : App.System) (o : Out App.State unit) :
  countdown_ok y -> countdown_ok (fst (App.rerender y o)).
Proof.
  intros H. unfold App.rerender, countdown_ok. simpl.
  destruct (ApprovalModal.deps_eqb _ _) eqn:E.
  - rewrite (critical_open_deps (App.app y) (st o) E). exact H.
  - unfold ApprovalModal.countdown_effect, critical_open. simpl.
    destruct (App.approvalModalOpen (st o)); simpl; [|reflexivity].
    destruct (App.commandAnalysis (st o)) as [a|]; simpl; [|reflexivity].
    destruct (ApprovalModal.RiskLevel_eqb _ _); simpl; [split; [lia|]|];
      reflexivity.
Qed.

Lemma fire_countdown_ok (y : App.System) (e : App.Event) :
  countdown_ok y -> countdown_ok (fst (App.fire w y e)).
Proof.
  intros H. destruct e as [c| |b| |];
    try (unfold App.fire; now apply rerender_ok).
  - unfold countdown_ok, ApprovalModal.timer_fires in *. simpl.
    destruct (ApprovalModal.countdown (App.modal y)) as [[|k]|] eqn:E;
      unfold ApprovalModal.timer_fires; rewrite E; simpl; rewrite ?E;
      try exact H.
    destruct H as [H1 H2]. split; [lia | exact H2].
  - exact H.
Qed.

Lemma run_countdown_ok (es : list App.Event) (y : App.System) :
  countdown_ok y -> countdown_ok (fst (App.run w y es)).
Proof.
  revert y. induction es as [|e rest IH]; intros y H; simpl; [exact H|].
  assert (S1 : countdown_ok (fst (App.step w y e))).
  { unfold App.step. destruct (App.enabled y e);
      [now apply fire_countdown_ok | exact H]. }
  destruct (App.step w y e) as [y1 c1].
  specialize (IH y1 S1).
  destruct (App.run w y1 rest) as [y2 c2]. exact IH.
Qed.

(** X28.  The countdown exists exactly for an open critical command.  In
    every state [App] and its modal reach, the countdown is a number, at
    most 5, when the modal is open on a command analysed as critical, and
    is absent otherwise, so that the approve button is never held back for a
    command of lower risk. *)
Theorem countdown_only_for_open_critical (es : list App.Event) :
  let y := fst (App.run w App.started es) in
  match ApprovalModal.countdown (App.modal y) with
  | Some k => k <= 5 /\ critical_open (App.app y) = true
  | None =>
      critical_open (App.app y) = false /\
      ApprovalModal.approveDisabled (App.modalProps (App.app y)) (App.modal y)
      = App.approvalLoading (App.app y)
  end.
Proof.
  cbv zeta.
  assert (H : countdown_ok (fst (App.run w App.started es)))
    by (apply run_countdown_ok; reflexivity).
  unfold countdown_ok in H.
  unfold ApprovalModal.approveDisabled, ApprovalModal.timer_armed.
  destruct (ApprovalModal.countdown (App.modal (fst (App.run w App.started es)))).
  - exact H.
  - split; [exact H|]. simpl. apply orb_false_r.
Qed.

(** X29.  A second critical command does not restart the countdown.  With
    the modal already open on a critical command, [handleRunCommand] on
    another critical command replaces the pending command and its analysis
    and leaves the modal's countdown where it was: once the first countdown
    has run out, the new command can be approved at once. *)
Theorem countdown_not_restarted_by_next_command
    (y : App.System) (c : jsstring)
    (a0 a : ApprovalModal.CommandAnalysis) :
  App.approvalModalOpen (App.app y) = true ->
  App.commandAnalysis (App.app y) = Some a0 ->
  ApprovalModal.risk_level a0 = ApprovalModal.critical ->
  Api.analyze_endpoint w c = Ok a ->
  ApprovalModal.risk_level a = ApprovalModal.critical ->
  let y' := fst (App.step w y (App.RunCommand c)) in
  App.pendingCommand (App.app y') = Some c /\
  App.commandAnalysis (App.app y') = Some a /\
  App.modal y' = App.modal y.
Proof.
  intros Ho H0 Hr0 Ha Hr. cbv zeta.
  unfold App.step, App.enabled, App.fire, App.rerender. simpl.
  unfold App.handleRunCommand, bind, App.needsApproval. simpl.
  rewrite Ha, Hr. simpl.
  unfold ApprovalModal.deps, ApprovalModal.deps_eqb. simpl.
  rewrite Ho, H0. simpl. rewrite Hr0, Hr. simpl. auto.
Qed.

End Countdown.

Lemma countdown_not_restarted_by_next_command_witness :
  let y := fst (App.run all_critical_world App.started
                  ([App.RunCommand Sample.rm_project] ++ repeat App.TimerFires 5)) in
  let y' := fst (App.step all_critical_world y
                   (App.RunCommand (js "mkfs.ext4 /dev/sda1"))) in
  App.pendingCommand (App.app y') = Some (js "mkfs.ext4 /dev/sda1") /\
  ApprovalModal.countdown (App.modal y') = Some 0 /\
  App.enabled y' App.ClickApprove = true.
Proof.
  cbv zeta.
  destruct (countdown_not_restarted_by_next_command all_critical_world
              (fst (App.run all_critical_world App.started
                      ([App.RunCommand Sample.rm_project]
                         ++ repeat App.TimerFires 5)))
              (js "mkfs.ext4 /dev/sda1") Sample.rm_report Sample.rm_report
              eq_refl eq_refl eq_refl eq_refl eq_refl) as (H1 & _ & H3).
  split; [exact H1|]. split.
  - rewrite H3. reflexivity.
  - unfold App.enabled. rewrite H3. reflexivity.
Defined.
